(** * karmadactl deinit: a shallow embedding of [pkg/karmadactl/deinit.go]

    The teardown command removes the resources that [karmadactl init] left in
    a host cluster.  The embedding follows the Go source function by function:
    the cluster API client, standard input and standard output are the
    effects of the program, and they are modelled by a small state-and-trace
    monad.  Every call on the client, every line printed and every line read
    is recorded, in order, in the trace of a run. *)

From Stdlib Require Import ZArith Ascii String.
From stdpp Require Import gmap strings list fin_maps sorting pretty.

Local Open Scope string_scope.
Local Open Scope list_scope.

(** ** Strings *)

Module Strings.

  (** [strings.ToLower] on the bytes of a string.  Go lower-cases runes; on
      the ASCII range that is the map A-Z to a-z, and no rune outside ASCII
      lower-cases to one of the letters of the tokens compared against in
      [deleteConfirmation], so the byte-wise map decides those comparisons
      as Go does. *)
Definition lower_byte (c : ascii) : ascii :=
    let n := N_of_ascii c in
    if ((65 <=? n) && (n <=? 90))%N then ascii_of_N (n + 32) else c.

Fixpoint ToLower (s : string) : string :=
    match s with
    | EmptyString => EmptyString
    | String c rest => String (lower_byte c) (ToLower rest)
    end.

  (** [strings.HasPrefix s prefix]. *)
Fixpoint HasPrefix (s prefix : string) : bool :=
    match prefix, s with
    | EmptyString, _ => true
    | String _ _, EmptyString => false
    | String p prefix', String c s' =>
        if Ascii.eqb p c then HasPrefix s' prefix' else false
    end.

  (** [strings.Contains s substr]: [substr] occurs at some offset of [s]. *)
Fixpoint Contains (s substr : string) : bool :=
    HasPrefix s substr ||
    match s with
    | EmptyString => false
    | String _ s' => Contains s' substr
    end.

  (** The upper-case partner of a byte, used to say what "a casing of a
      token" is without reference to [ToLower]. *)
Definition upper_byte (c : ascii) : ascii :=
    let n := N_of_ascii c in
    if ((97 <=? n) && (n <=? 122))%N then ascii_of_N (n - 32) else c.

  (** [casing_of token s]: [s] spells [token] letter by letter, each letter
      in either case. *)
Fixpoint casing_of (token s : string) : bool :=
    match token, s with
    | EmptyString, EmptyString => true
    | String t token', String c s' =>
        (Ascii.eqb c t || Ascii.eqb c (upper_byte t)) && casing_of token' s'
    | _, _ => false
    end.

End Strings.

(** ** Data model *)

(** LabelSelector karmada bootstrapping label *)
Definition LabelSelector : string := "karmada.io/bootstrapping".
Definition karmadaNodeLabel : string := "karmada.io/etcd".

(** The reason carried by an API status error; [NotFound] is the one
    [apierrors.IsNotFound] recognises. *)
Inductive StatusReason := NotFound | Forbidden | Unauthorized | InternalError.

(** Go [error] values that occur in the program.  A Go function returning
    [error] is modelled as returning [option error], [None] being [nil]. *)
Inductive error :=
| ErrEmptyConfig
| StatusError (reason : StatusReason) (message : string)
| ClientError (message : string)
| ScanError (message : string).

(** The resource kinds deleted by label. *)
Inductive Kind := Deployment | StatefulSet | Service | Secret | ClusterRole.

(** Object metadata: the program reads the name of every object and the
    label map of nodes ([metav1.ObjectMeta]). *)
Record Object := { Name : string; Labels : gmap string string }.

(** Everything a run does that can be observed from outside, in order.
    [PrintlnError err] is [fmt.Println(err)], which prints the text of the
    error. *)
Inductive event :=
| Println (line : string)
| Printf (format : string) (args : list string)
| ScanlnCall (res : string + error)
| NamespacesGet (name : string) (res : option error)
| ListCall (k : Kind) (ns : option string) (selector : string)
           (res : error + list Object)
| DeleteCall (k : Kind) (ns : option string) (name : string)
             (res : option error)
| NodesList (selector : string) (res : error + list Object)
| NodesUpdate (node : Object) (res : option error)
| PrintlnError (err : error).

(** The typed clients of [kubernetes.Clientset], as far as the program calls
    them.  [Cluster] is the state behind the API server; a call may fail and
    may change the state. *)
Class KubeClient (Cluster : Type) := {
  namespaces_get : string -> Cluster -> option error * Cluster;
  list_objects : Kind -> option string -> string -> Cluster ->
                 (error + list Object) * Cluster;
  delete_object : Kind -> option string -> string -> Cluster ->
                  option error * Cluster;
  nodes_list : string -> Cluster -> (error + list Object) * Cluster;
  nodes_update : Object -> Cluster -> option error * Cluster
}.

(** The world a run executes in: the cluster, and the results the successive
    [fmt.Scanln] calls will produce (a token, or an error such as an empty
    line or a line with more than one token).  Once they are used up
    standard input is at its end. *)
Record World (Cluster : Type) := mkWorld {
  cluster : Cluster;
  stdin : list (string + error)
}.
Arguments mkWorld {Cluster} _ _.
Arguments cluster {Cluster} _.
Arguments stdin {Cluster} _.

(** ** The monad: state, trace and process exit *)

Inductive Outcome (A : Type) :=
| Ret (a : A)
| Exited (code : Z).
Arguments Ret {A} _.
Arguments Exited {A} _.

Definition M (Cluster A : Type) : Type :=
  World Cluster -> Outcome A * World Cluster * list event.

Section Monad.
Context {Cluster : Type}.

Definition ret {A} (a : A) : M Cluster A := fun w => (Ret a, w, []).

Definition bind {A B} (m : M Cluster A) (f : A -> M Cluster B) : M Cluster B :=
    fun w =>
      match m w with
      | (Ret a, w1, t1) =>
          match f a w1 with
          | (r, w2, t2) => (r, w2, t1 ++ t2)
          end
      | (Exited c, w1, t1) => (Exited c, w1, t1)
      end.

Definition emit (e : event) : M Cluster unit := fun w => (Ret tt, w, [e]).

  (** [os.Exit(code)] *)
Definition os_Exit {A} (code : Z) : M Cluster A := fun w => (Exited code, w, []).

  (** [if err := m; err != nil { return err }] followed by [k]. *)
Definition check (m : M Cluster (option error)) (k : M Cluster (option error))
    : M Cluster (option error) :=
    bind m (fun r => match r with Some err => ret (Some err) | None => k end).

  (** [x, err := m; if err != nil { return err }] followed by [k x]. *)
Definition try {A} (m : M Cluster (error + A)) (k : A -> M Cluster (option error))
    : M Cluster (option error) :=
    bind m (fun r => match r with inl err => ret (Some err) | inr x => k x end).

End Monad.

Declare Scope go_scope.
Delimit Scope go_scope with go.
Notation "x <- m ;; k" := (bind m (fun x => k))
  (at level 100, m at next level, right associativity) : go_scope.
Notation "m ;; k" := (bind m (fun _ => k))
  (at level 100, right associativity) : go_scope.
Notation "'check!' m ;; k" := (check m k)
  (at level 100, m at next level, right associativity) : go_scope.
Notation "x <-! m ;; k" := (try m (fun x => k))
  (at level 100, m at next level, right associativity) : go_scope.

Local Open Scope go_scope.

(** ** Client calls and output, as monadic actions *)

Section Calls.
Context {Cluster : Type} `{KubeClient Cluster}.

  (** A call on the client runs on the cluster of the world and is recorded
      with its response.  The client set that [Complete] stores in the option
      is the handle to that cluster; [Run] is invoked only once it is set. *)
Definition call {R} (op : Cluster -> R * Cluster) (ev : R -> event)
    : M Cluster R :=
    fun w =>
      match op (cluster w) with
      | (res, c) => (Ret res, mkWorld c (stdin w), [ev res])
      end.

  (** [o.KubeClientSet.CoreV1().Namespaces().Get(ctx, name, GetOptions{})] *)
Definition Namespaces_Get (name : string) : M Cluster (option error) :=
    call (namespaces_get name) (NamespacesGet name).

  (** [client.List(ctx, ListOptions{LabelSelector: selector})] on the typed
      client of kind [k], namespaced by [ns] when the kind is. *)
Definition List_ (k : Kind) (ns : option string) (selector : string)
    : M Cluster (error + list Object) :=
    call (list_objects k ns selector) (ListCall k ns selector).

  (** [client.Delete(ctx, name, DeleteOptions{})] *)
Definition Delete (k : Kind) (ns : option string) (name : string)
    : M Cluster (option error) :=
    call (delete_object k ns name) (DeleteCall k ns name).

  (** [nodeClient.List(ctx, ListOptions{LabelSelector: selector})] *)
Definition Nodes_List (selector : string) : M Cluster (error + list Object) :=
    call (nodes_list selector) (NodesList selector).

  (** [nodeClient.Update(ctx, node, UpdateOptions{})]; the node returned by
      the call is discarded by the program. *)
Definition Nodes_Update (node : Object) : M Cluster (option error) :=
    call (nodes_update node) (NodesUpdate node).

Definition fmt_Println (line : string) : M Cluster unit := emit (Println line).

  (** [fmt.Printf(format, args...)]: the format is kept as the Go literal
      is written, the verbs are not expanded. *)
Definition fmt_Printf (format : string) (args : list string) : M Cluster unit :=
    emit (Printf format args).

End Calls.

(** ** The command *)

(** CommandDeInitOption options for deinit.  [KubeConfig] and [DryRun] are
    the fields of the embedded [options.GlobalCommandOptions] that the
    command reads; [KubeContext] is the field [Context] of the source. *)
Record CommandDeInitOption (ClientSet : Type) := mkOption {
  KubeConfig : string;
  DryRun : bool;
  Namespace : string;
  KubeContext : string;
  KubeClientSet : option ClientSet
}.
Arguments mkOption {ClientSet} _ _ _ _ _.
Arguments KubeConfig {ClientSet} _.
Arguments DryRun {ClientSet} _.
Arguments Namespace {ClientSet} _.
Arguments KubeContext {ClientSet} _.
Arguments KubeClientSet {ClientSet} _.

(** What [Complete] needs from outside the command: the process
    environment, the path join of [path/filepath], the file test [Exists] of
    this package, and the two constructors of [cmdinit/utils]. *)
Record Env (RestCfg ClientSet : Type) := mkEnv {
  Getenv : string -> string;
  Join : string -> string -> string;
  Exists : string -> bool;
  RestConfig : string -> string -> error + RestCfg;
  NewClientSet : RestCfg -> option ClientSet * option error
}.
Arguments mkEnv {RestCfg ClientSet} _ _ _ _ _.
Arguments Getenv {RestCfg ClientSet} _ _.
Arguments Join {RestCfg ClientSet} _ _ _.
Arguments Exists {RestCfg ClientSet} _ _.
Arguments RestConfig {RestCfg ClientSet} _ _ _.
Arguments NewClientSet {RestCfg ClientSet} _ _.

Definition set_KubeConfig {CS} (o : CommandDeInitOption CS) (path : string) :=
  mkOption path (DryRun o) (Namespace o) (KubeContext o) (KubeClientSet o).

Definition set_KubeClientSet {CS} (o : CommandDeInitOption CS) (cs : option CS) :=
  mkOption (KubeConfig o) (DryRun o) (Namespace o) (KubeContext o) cs.

(** removeLabels: the loop ranges over the label map and deletes from it the
    key it is visiting when the key contains [removesLabel].  Deleting the
    visited key leaves the rest of the iteration as it was, so the loop is a
    fold over the entries of the map as it was on entry. *)
Definition removeLabels (node : Object) (removesLabel : string) : Object :=
  {| Name := Name node;
     Labels :=
       map_fold
         (fun label _ labels =>
            if Strings.Contains label removesLabel
            then delete label labels else labels)
         (Labels node) (Labels node) |}.

(** deleteConfirmation delete karmada confirmation.  Each call prints the
    prompt and scans once; the recursion of the source is on the input that
    is still to be read.  A scan error prints the error and exits with
    status 1. *)
Fixpoint confirm (input : list (string + error))
  : Outcome bool * list (string + error) * list event :=
  let prompt := Println "Please type (y)es or (n)o and then press enter:" in
  match input with
  | [] =>
      let err := ScanError "EOF" in
      (Exited 1, [], [prompt; ScanlnCall (inr err); PrintlnError err])
  | inr err :: rest =>
      (Exited 1, rest, [prompt; ScanlnCall (inr err); PrintlnError err])
  | inl response :: rest =>
      let lower := Strings.ToLower response in
      if (lower =? "y")%string || (lower =? "yes")%string then
        (Ret true, rest, [prompt; ScanlnCall (inl response)])
      else if (lower =? "n")%string || (lower =? "no")%string then
        (Ret false, rest, [prompt; ScanlnCall (inl response)])
      else
        match confirm rest with
        | (r, rest', evs) =>
            (r, rest', [prompt; ScanlnCall (inl response)] ++ evs)
        end
  end.

Section Command.
Context {Cluster : Type} `{KubeClient Cluster}.
Context {RestCfg ClientSet : Type}.

Definition deleteConfirmation : M Cluster bool :=
    fun w =>
      match confirm (stdin w) with
      | (r, rest, evs) => (r, mkWorld (cluster w) rest, evs)
      end.

  (** Complete the conditions required to be able to run deinit. *)
Definition Complete (env : Env RestCfg ClientSet) (o : CommandDeInitOption ClientSet)
    : M Cluster (CommandDeInitOption ClientSet * option error) :=
    let o :=
      if (KubeConfig o =? "")%string
      then set_KubeConfig o (Join env (Getenv env "HOME") ".kube/config")
      else o in
    if negb (Exists env (KubeConfig o)) then ret (o, Some ErrEmptyConfig)
    else
      match RestConfig env (KubeContext o) (KubeConfig o) with
      | inl err => ret (o, Some err)
      | inr restConfig =>
          match NewClientSet env restConfig with
          | (cs, Some err) => ret (set_KubeClientSet o cs, Some err)
          | (cs, None) =>
              let o := set_KubeClientSet o cs in
              err <- Namespaces_Get (Namespace o) ;;
              match err with
              | Some err => ret (o, Some err)
              | None => ret (o, None)
              end
          end
      end.

  (** The body shared by the five deletion loops of [deleteWorkload] and
      [delete]: [for _, item := range items { Printf; if DryRun continue;
      if err := Delete; err != nil return err }]. *)
Fixpoint deleteItems (dryRun : bool) (k : Kind) (ns : option string)
      (format : string) (items : list Object) : M Cluster (option error) :=
    match items with
    | [] => ret None
    | item :: rest =>
        fmt_Printf format [Name item] ;;
        if dryRun then deleteItems dryRun k ns format rest
        else
          check! Delete k ns (Name item) ;;
          deleteItems dryRun k ns format rest
    end.

Definition deleteWorkload (o : CommandDeInitOption ClientSet) : M Cluster (option error) :=
    (* Delete deployment by label LabelSelector *)
    deployments <-! List_ Deployment (Some (Namespace o)) LabelSelector ;;
    check! deleteItems (DryRun o) Deployment (Some (Namespace o))
             "delete deployment %q\n" deployments ;;
    (* Delete StatefulSet by label LabelSelector *)
    statefulSets <-! List_ StatefulSet (Some (Namespace o)) LabelSelector ;;
    check! deleteItems (DryRun o) StatefulSet (Some (Namespace o))
             "delete StatefulSet: %q\n" statefulSets ;;
    ret None.

  (** delete removes Karmada from Kubernetes *)
Definition delete (o : CommandDeInitOption ClientSet) : M Cluster (option error) :=
    check! deleteWorkload o ;;
    (* Delete Service by label LabelSelector *)
    services <-! List_ Service (Some (Namespace o)) LabelSelector ;;
    check! deleteItems (DryRun o) Service (Some (Namespace o))
             "delete Service %q\n" services ;;
    (* Delete Secret by label LabelSelector *)
    secrets <-! List_ Secret (Some (Namespace o)) LabelSelector ;;
    check! deleteItems (DryRun o) Secret (Some (Namespace o))
             "delete Secrets %q\n" secrets ;;
    (* Delete ClusterRole by label LabelSelector *)
    clusterRoles <-! List_ ClusterRole None LabelSelector ;;
    check! deleteItems (DryRun o) ClusterRole None
             "delete ClusterRole %q\n" clusterRoles ;;
    ret None.

  (** The loop of [removeNodeLabels] over the listed nodes. *)
Fixpoint updateNodes (dryRun : bool) (nodes : list Object)
    : M Cluster (option error) :=
    match nodes with
    | [] => ret None
    | node :: rest =>
        let node := removeLabels node karmadaNodeLabel in
        fmt_Printf "remove node %q labels %q\n" [Name node; karmadaNodeLabel] ;;
        if dryRun then updateNodes dryRun rest
        else
          check! Nodes_Update node ;;
          updateNodes dryRun rest
    end.

  (** removeNodeLabels removes labels from node which were created by
      karmadactl init *)
Definition removeNodeLabels (o : CommandDeInitOption ClientSet) : M Cluster (option error) :=
    nodes <-! Nodes_List karmadaNodeLabel ;;
    if (length nodes =? 0)%nat then
      fmt_Printf "node not found by label %q\n" [karmadaNodeLabel] ;;
      ret None
    else updateNodes (DryRun o) nodes.

  (** Run start delete *)
Definition Run (o : CommandDeInitOption ClientSet) : M Cluster (option error) :=
    fmt_Println "removes Karmada from Kubernetes" ;;
    (* delete confirmation,exit the delete action when false. *)
    confirmed <- deleteConfirmation ;;
    if negb confirmed then ret None
    else
      check! delete o ;;
      check! removeNodeLabels o ;;
      fmt_Println ("remove Karmada from Kubernetes successfully." +:+
        "\ndeinit will not delete etcd data, if the etcd data is persistent, please delete it yourself.") ;;
      ret None.

  (** The [RunE] closure of [NewCmdDeInit]: [Complete], then [Run]. *)
Definition RunE (env : Env RestCfg ClientSet) (opts : CommandDeInitOption ClientSet)
    : M Cluster (option error) :=
    completed <- Complete env opts ;;
    match completed with
    | (_, Some err) => ret (Some err)
    | (opts, None) =>
        err <- Run opts ;;
        match err with
        | Some err => ret (Some err)
        | None => ret None
        end
    end.

End Command.

(** ** An in-memory cluster

    A cluster held in memory, after the fake clientset of client-go: objects
    carry labels, a selector that is a bare key selects the objects that have
    a label with that key, deleting removes the object, updating a node
    stores it.  [fake_reactors] lets a delete call on a listed object answer
    with a prepared error, as a reactor does. *)

Global Instance Kind_eq_dec : EqDecision Kind.
Proof. solve_decision. Defined.

Record FakeCluster := mkFake {
  fake_namespaces : list string;
  fake_objects : list (Kind * option string * Object);
  fake_nodes : list Object;
  fake_reactors : list (Kind * string * error)
}.

Definition has_label (selector : string) (obj : Object) : bool :=
  bool_decide (is_Some (Labels obj !! selector)).

Definition fake_selects (k : Kind) (ns : option string) (selector : string)
    (entry : Kind * option string * Object) : bool :=
  match entry with
  | (k', ns', obj) =>
      bool_decide (k' = k) && bool_decide (ns' = ns) && has_label selector obj
  end.

Definition fake_is (k : Kind) (ns : option string) (name : string)
    (entry : Kind * option string * Object) : bool :=
  match entry with
  | (k', ns', obj) =>
      bool_decide (k' = k) && bool_decide (ns' = ns) && (Name obj =? name)%string
  end.

Fixpoint fake_reaction (k : Kind) (name : string)
    (reactors : list (Kind * string * error)) : option error :=
  match reactors with
  | [] => None
  | (k', name', err) :: rest =>
      if bool_decide (k' = k) && (name' =? name)%string then Some err
      else fake_reaction k name rest
  end.

Definition fake_namespaces_get (name : string) (c : FakeCluster)
  : option error * FakeCluster :=
  if existsb (String.eqb name) (fake_namespaces c) then (None, c)
  else (Some (StatusError NotFound name), c).

Definition fake_list (k : Kind) (ns : option string) (selector : string)
    (c : FakeCluster) : (error + list Object) * FakeCluster :=
  (inr (map snd (List.filter (fake_selects k ns selector) (fake_objects c))), c).

Definition fake_delete (k : Kind) (ns : option string) (name : string)
    (c : FakeCluster) : option error * FakeCluster :=
  match fake_reaction k name (fake_reactors c) with
  | Some err => (Some err, c)
  | None =>
      if existsb (fake_is k ns name) (fake_objects c) then
        (None,
         mkFake (fake_namespaces c)
                (List.filter (fun e => negb (fake_is k ns name e)) (fake_objects c))
                (fake_nodes c) (fake_reactors c))
      else (Some (StatusError NotFound name), c)
  end.

Definition fake_nodes_list (selector : string) (c : FakeCluster)
  : (error + list Object) * FakeCluster :=
  (inr (List.filter (has_label selector) (fake_nodes c)), c).

Definition fake_nodes_update (node : Object) (c : FakeCluster)
  : option error * FakeCluster :=
  if existsb (fun n => (Name n =? Name node)%string) (fake_nodes c) then
    (None,
     mkFake (fake_namespaces c) (fake_objects c)
            (map (fun n => if (Name n =? Name node)%string then node else n)
                 (fake_nodes c))
            (fake_reactors c))
  else (Some (StatusError NotFound (Name node)), c).

Global Instance FakeClient : KubeClient FakeCluster := {|
  namespaces_get := fake_namespaces_get;
  list_objects := fake_list;
  delete_object := fake_delete;
  nodes_list := fake_nodes_list;
  nodes_update := fake_nodes_update
|}.

(** An environment for [Complete] over an in-memory file system: the files
    that exist, and the value of HOME.  The join is the plain one, which is
    what [filepath.Join] gives on two clean, non-empty paths. *)
Definition fake_env (home : string) (files : list string) : Env unit unit :=
  mkEnv (fun name => if (name =? "HOME")%string then home else "")
        (fun dir file => dir +:+ "/" +:+ file)
        (fun path => existsb (String.eqb path) files)
        (fun _ _ => inr tt)
        (fun _ => (Some tt, None)).

(** ** Reading a trace *)

(** The stage an event belongs to: the five deletion stages in the order of
    the source, then the node stage.  A notice is told by its format.
    Prompts, scans, the namespace check and the closing message belong to no
    stage. *)
Definition kind_stage (k : Kind) : nat :=
  match k with
  | Deployment => 0
  | StatefulSet => 1
  | Service => 2
  | Secret => 3
  | ClusterRole => 4
  end.

Definition node_stage : nat := 5.

Definition format_stage (format : string) : option nat :=
  if (format =? "delete deployment %q\n")%string then Some 0
  else if (format =? "delete StatefulSet: %q\n")%string then Some 1
  else if (format =? "delete Service %q\n")%string then Some 2
  else if (format =? "delete Secrets %q\n")%string then Some 3
  else if (format =? "delete ClusterRole %q\n")%string then Some 4
  else if (format =? "node not found by label %q\n")%string then Some 5
  else if (format =? "remove node %q labels %q\n")%string then Some 5
  else None.

Definition stage_of (e : event) : option nat :=
  match e with
  | ListCall k _ _ _ => Some (kind_stage k)
  | DeleteCall k _ _ _ => Some (kind_stage k)
  | NodesList _ _ => Some node_stage
  | NodesUpdate _ _ => Some node_stage
  | Printf format _ => format_stage format
  | _ => None
  end.

(** The error a client call answered with, if it did. *)
Definition failed (e : event) : option error :=
  match e with
  | NamespacesGet _ (Some err) => Some err
  | ListCall _ _ _ (inl err) => Some err
  | DeleteCall _ _ _ (Some err) => Some err
  | NodesList _ (inl err) => Some err
  | NodesUpdate _ (Some err) => Some err
  | _ => None
  end.

(** Discovery calls, and calls that change the cluster. *)
Definition is_discovery (e : event) : bool :=
  match e with
  | ListCall _ _ _ _ | NodesList _ _ => true
  | _ => false
  end.

Definition is_mutation (e : event) : bool :=
  match e with
  | DeleteCall _ _ _ _ | NodesUpdate _ _ => true
  | _ => false
  end.

(** The notice format of each kind, as the source writes them. *)
Definition notice_format (k : Kind) : string :=
  match k with
  | Deployment => "delete deployment %q\n"
  | StatefulSet => "delete StatefulSet: %q\n"
  | Service => "delete Service %q\n"
  | Secret => "delete Secrets %q\n"
  | ClusterRole => "delete ClusterRole %q\n"
  end.

(** The namespace the client of a kind is scoped to. *)
Definition kind_namespace (k : Kind) (namespace : string) : option string :=
  match k with
  | ClusterRole => None
  | _ => Some namespace
  end.

(** The events of a run. *)
Definition events {Cluster A} (run : Outcome A * World Cluster * list event)
  : list event := snd run.

Definition outcome {Cluster A} (run : Outcome A * World Cluster * list event)
  : Outcome A := fst (fst run).

Definition final {Cluster A} (run : Outcome A * World Cluster * list event)
  : World Cluster := snd (fst run).

(** ** The shape of a trace

    The traces the deletion loops, the stages and their sequence can leave,
    as inductive relations between the result returned and the events
    emitted.  The program is shown to run within them; the properties of the
    teardown are then read off the shape. *)

Inductive stage := KindStage (k : Kind) | NodeStage.

Definition stage_index (st : stage) : nat :=
  match st with
  | KindStage k => kind_stage k
  | NodeStage => node_stage
  end.

Definition teardown_stages : list stage :=
  [KindStage Deployment; KindStage StatefulSet; KindStage Service;
   KindStage Secret; KindStage ClusterRole; NodeStage].

Section Shapes.
Variable dryRun : bool.

  (** One deletion loop over the listed items. *)
Inductive loop_run (k : Kind) (ns : option string)
    : list Object -> option error -> list event -> Prop :=
  | loop_done : loop_run k ns [] None []
  | loop_skip item rest r evs :
      dryRun = true ->
      loop_run k ns rest r evs ->
      loop_run k ns (item :: rest) r
               (Printf (notice_format k) [Name item] :: evs)
  | loop_deleted item rest r evs :
      dryRun = false ->
      loop_run k ns rest r evs ->
      loop_run k ns (item :: rest) r
               (Printf (notice_format k) [Name item]
                  :: DeleteCall k ns (Name item) None :: evs)
  | loop_failed item rest err :
      dryRun = false ->
      loop_run k ns (item :: rest) (Some err)
               [Printf (notice_format k) [Name item];
                DeleteCall k ns (Name item) (Some err)].

  (** The loop over the listed nodes. *)
Inductive node_loop_run : list Object -> option error -> list event -> Prop :=
  | node_loop_done : node_loop_run [] None []
  | node_loop_skip node rest r evs :
      dryRun = true ->
      node_loop_run rest r evs ->
      node_loop_run (node :: rest) r
        (Printf "remove node %q labels %q\n" [Name node; karmadaNodeLabel] :: evs)
  | node_loop_updated node rest r evs :
      dryRun = false ->
      node_loop_run rest r evs ->
      node_loop_run (node :: rest) r
        (Printf "remove node %q labels %q\n" [Name node; karmadaNodeLabel]
           :: NodesUpdate (removeLabels node karmadaNodeLabel) None :: evs)
  | node_loop_failed node rest err :
      dryRun = false ->
      node_loop_run (node :: rest) (Some err)
        [Printf "remove node %q labels %q\n" [Name node; karmadaNodeLabel];
         NodesUpdate (removeLabels node karmadaNodeLabel) (Some err)].

Variable namespace : string.

  (** One stage: discovery, then the loop. *)
Inductive stage_run : stage -> option error -> list event -> Prop :=
  | kind_list_failed k err :
      stage_run (KindStage k) (Some err)
        [ListCall k (kind_namespace k namespace) LabelSelector (inl err)]
  | kind_listed k items r evs :
      loop_run k (kind_namespace k namespace) items r evs ->
      stage_run (KindStage k) r
        (ListCall k (kind_namespace k namespace) LabelSelector (inr items) :: evs)
  | nodes_list_failed err :
      stage_run NodeStage (Some err) [NodesList karmadaNodeLabel (inl err)]
  | nodes_none :
      stage_run NodeStage None
        [NodesList karmadaNodeLabel (inr []);
         Printf "node not found by label %q\n" [karmadaNodeLabel]]
  | nodes_listed nodes r evs :
      nodes <> [] ->
      node_loop_run nodes r evs ->
      stage_run NodeStage r (NodesList karmadaNodeLabel (inr nodes) :: evs).

  (** Stages in sequence: the first error ends the sequence. *)
Inductive chain : list stage -> option error -> list event -> Prop :=
  | chain_end : chain [] None []
  | chain_abort st rest err evs :
      stage_run st (Some err) evs ->
      chain (st :: rest) (Some err) evs
  | chain_next st rest evs1 r evs2 :
      stage_run st None evs1 ->
      chain rest r evs2 ->
      chain (st :: rest) r (evs1 ++ evs2).

End Shapes.

(** What has been done to a listed item once its loop has passed it. *)
Definition processed (dryRun : bool) (k : Kind) (ns : option string)
    (item : Object) (evs : list event) : Prop :=
  Printf (notice_format k) [Name item] ∈ evs /\
  (dryRun = false -> DeleteCall k ns (Name item) None ∈ evs).

(** [m] runs within [Q]: whatever the world, the result and the events of
    the run are related by [Q], and the process does not exit. *)
Definition runs_within {Cluster} (m : M Cluster (option error))
    (Q : option error -> list event -> Prop) : Prop :=
  forall w, exists r, outcome (m w) = Ret r /\ Q r (events (m w)).

(** A run fails fast: when it returns an error, the call that answered with
    that error is the last event and no call before it failed; when it
    returns no error, no call failed. *)
Definition unfailing (evs : list event) : Prop :=
  Forall (fun e => failed e = None) evs.

Definition fail_fast (r : option error) (evs : list event) : Prop :=
  match r with
  | None => unfailing evs
  | Some err =>
      exists pre e, evs = pre ++ [e] /\ failed e = Some err /\ unfailing pre
  end.

(** Every event lies in a stage whose index satisfies [P]. *)
Definition staged_in (P : nat -> Prop) (evs : list event) : Prop :=
  Forall (fun e => exists s, stage_of e = Some s /\ P s) evs.

(** The names noticed for a kind, the nodes noticed, and the stages of the
    discovery calls, each in the order of the trace. *)
Definition notice_of (k : Kind) (e : event) : option string :=
  match e with
  | Printf format [name] =>
      if (format =? notice_format k)%string then Some name else None
  | _ => None
  end.

Definition notices_of (k : Kind) (evs : list event) : list string :=
  omap (notice_of k) evs.

Definition node_notice (e : event) : option string :=
  match e with
  | Printf format [name; label] =>
      if (format =? "remove node %q labels %q\n")%string then Some name else None
  | _ => None
  end.

Definition node_notices (evs : list event) : list string :=
  omap node_notice evs.

Definition discovery_stage (e : event) : option nat :=
  if is_discovery e then stage_of e else None.

Definition discoveries (evs : list event) : list nat :=
  omap discovery_stage evs.

(** Events that belong to no stage and carry no failure: the prompts, the
    scans and the messages of [Run]. *)
Definition quiet (e : event) : Prop := stage_of e = None /\ failed e = None.

(** Lower-case letters and tokens, and the table the byte law is checked on. *)
Definition is_lower (c : ascii) : bool :=
  let n := N_of_ascii c in ((97 <=? n) && (n <=? 122))%N.

Fixpoint lowercase (s : string) : bool :=
  match s with
  | EmptyString => true
  | String c rest => is_lower c && lowercase rest
  end.

Definition all_bytes : list ascii := map ascii_of_nat (seq 0 256).

Definition byte_law (t c : ascii) : bool :=
  implb (is_lower t)
        (Bool.eqb (Ascii.eqb c t || Ascii.eqb c (Strings.upper_byte t))
                  (Ascii.eqb (Strings.lower_byte c) t)).

(** The path [Complete] tests and hands to [utils.RestConfig]: the option
    given, or the default under HOME when the option is empty. *)
Definition kubeconfig_path {RestCfg ClientSet} (env : Env RestCfg ClientSet)
    (o : CommandDeInitOption ClientSet) : string :=
  if (KubeConfig o =? "")%string
  then Join env (Getenv env "HOME") ".kube/config"
  else KubeConfig o.

(** What the next [fmt.Scanln] yields on the pending input. *)
Definition next_scan (input : list (string + error)) : string + error :=
  match input with
  | [] => inr (ScanError "EOF")
  | res :: _ => res
  end.

Definition prompt : event :=
  Println "Please type (y)es or (n)o and then press enter:".

(** ** Lines typed at the prompt *)

(** [fmt.Scanln(&response)] on one line of ASCII text, given without its
    newline.  The scan skips the blanks before the word, reads the word up to
    the next blank, and then accepts nothing but blanks up to the end of the
    line: on an empty or blank line it fails with "unexpected newline", on
    text after the word with "expected newline". *)
Module Fmt.

Definition isSpace (c : ascii) : bool :=
  let n := N_of_ascii c in
  ((9 <=? n) && (n <=? 13) || (n =? 32))%N.

Fixpoint SkipSpace (s : string) : string :=
  match s with
  | EmptyString => EmptyString
  | String c rest => if isSpace c then SkipSpace rest else s
  end.

(** The word at the head of [s], and what follows it. *)
Fixpoint token (s : string) : string * string :=
  match s with
  | EmptyString => (EmptyString, EmptyString)
  | String c rest =>
      if isSpace c then (EmptyString, s)
      else let (word, after) := token rest in (String c word, after)
  end.

Definition Scanln (line : string) : string + error :=
  match SkipSpace line with
  | EmptyString => inr (ScanError "unexpected newline")
  | String _ _ as text =>
      let (word, after) := token text in
      match SkipSpace after with
      | EmptyString => inl word
      | String _ _ => inr (ScanError "expected newline")
      end
  end.

End Fmt.

(** What the scans of [deleteConfirmation] yield when these lines are typed,
    one scan a line.  (A scan that fails is the last one: the process
    exits.) *)
Definition typed (lines : list string) : list (string + error) :=
  map Fmt.Scanln lines.

(** ** Sample clusters and options *)

Module Sample.

Definition installed (name : string) : Object :=
  {| Name := name; Labels := {[ LabelSelector := "" ]} |}.

(** A node labelled by [karmadactl init], with a label of its own. *)
Definition etcd_node : Object :=
  {| Name := "node-1";
     Labels := {[ "karmada.io/etcd" := ""; "other.io/x" := "1" ]} |}.

(** A node that only carries a variant of the marker. *)
Definition variant_node : Object :=
  {| Name := "node-2"; Labels := {[ "karmada.io/etcd-old" := "" ]} |}.

Definition plain_node : Object :=
  {| Name := "node-3"; Labels := {[ "other.io/x" := "1" ]} |}.

Definition ns : string := "karmada-system".

Definition objects : list (Kind * option string * Object) :=
  [(Deployment, Some ns, installed "karmada-apiserver");
   (Deployment, Some ns, installed "karmada-scheduler");
   (StatefulSet, Some ns, installed "etcd");
   (Service, Some ns, installed "karmada-apiserver");
   (Secret, Some ns, installed "karmada-cert");
   (ClusterRole, None, installed "karmada-controller-manager")].

Definition host : FakeCluster :=
  mkFake [ns] objects [etcd_node; variant_node; plain_node] [].

(** The same cluster when the first deployment is gone by the time it is
    deleted: the delete call answers "not found". *)
Definition racing : FakeCluster :=
  mkFake [ns] objects [etcd_node; variant_node; plain_node]
         [(Deployment, "karmada-apiserver",
           StatusError NotFound "deployments.apps karmada-apiserver not found")].

(** A cluster without labelled nodes. *)
Definition control_plane_only : FakeCluster :=
  mkFake [ns] objects [plain_node] [].

Definition opts (dryRun : bool) : CommandDeInitOption unit :=
  mkOption "" dryRun ns "" (Some tt).

Definition yes : list (string + error) := [inl "maybe"; inl "YES"].
Definition no : list (string + error) := [inl "No"].

End Sample.

(** ** Further readings of a run *)

(** An answer that is no casing of any of the four tokens. *)
Definition unrecognised (response : string) : bool :=
  negb (Strings.casing_of "y" response || Strings.casing_of "yes" response
        || Strings.casing_of "n" response || Strings.casing_of "no" response).

(** The events of the rounds spent on a list of answers: for each, the
    prompt and the scan that read it. *)
Definition rounds (responses : list string) : list event :=
  flat_map (fun response => [prompt; ScanlnCall (inl response)]) responses.

(** The closing message of [Run]. *)
Definition success_message : event :=
  Println ("remove Karmada from Kubernetes successfully." +:+
    "\ndeinit will not delete etcd data, if the etcd data is persistent, please delete it yourself.").

(** The names the delete calls of a kind were issued for, in order, whatever
    they answered. *)
Definition delete_of (k : Kind) (e : event) : option string :=
  match e with
  | DeleteCall k' _ name _ => if bool_decide (k' = k) then Some name else None
  | _ => None
  end.

Definition deletes_of (k : Kind) (evs : list event) : list string :=
  omap (delete_of k) evs.

(** A call of [Run] is in scope: listings use the bootstrapping selector in
    the namespace of the option (none for cluster roles), a delete call is
    for an item its kind listed, in the same namespace and outside dry-run,
    nodes are listed by the node label and updated outside dry-run only, and
    the namespace lookup of [Complete] does not occur. *)
Definition in_scope (dryRun : bool) (namespace : string) (evs : list event)
    (e : event) : Prop :=
  match e with
  | ListCall k ns selector _ =>
      ns = kind_namespace k namespace /\ selector = LabelSelector
  | DeleteCall k ns name _ =>
      ns = kind_namespace k namespace /\ dryRun = false /\
      exists items item,
        ListCall k ns LabelSelector (inr items) ∈ evs /\
        item ∈ items /\ name = Name item
  | NodesList selector _ => selector = karmadaNodeLabel
  | NodesUpdate _ _ => dryRun = false
  | NamespacesGet _ _ => False
  | _ => True
  end.

(** A client whose list calls leave the cluster as it is. *)
Definition read_only_lists (Cluster : Type) `{KubeClient Cluster} : Prop :=
  (forall k ns selector c, snd (list_objects k ns selector c) = c) /\
  (forall selector c, snd (nodes_list selector c) = c).

(** [m] leaves the observation [f] of the world as it found it. *)
Definition preserves {Cluster A X} (f : World Cluster -> X) (m : M Cluster A)
  : Prop :=
  forall w, f (final (m w)) = f w.

(** The events of the confirmation dialogue. *)
Definition dialogue_event (e : event) : Prop :=
  e = prompt \/ (exists res, e = ScanlnCall res) \/ (exists err, e = PrintlnError err).

(** The events a deletion loop can leave for the items it ranges over, and
    likewise the node loop. *)
Definition loop_event (dryRun : bool) (k : Kind) (ns : option string)
    (items : list Object) (e : event) : Prop :=
  (exists item, item ∈ items /\ e = Printf (notice_format k) [Name item]) \/
  (dryRun = false /\
   exists item res, item ∈ items /\ e = DeleteCall k ns (Name item) res).

Definition node_loop_event (dryRun : bool) (nodes : list Object) (e : event)
  : Prop :=
  (exists node, node ∈ nodes /\
     e = Printf "remove node %q labels %q\n" [Name node; karmadaNodeLabel]) \/
  (dryRun = false /\
   exists node res, node ∈ nodes /\
     e = NodesUpdate (removeLabels node karmadaNodeLabel) res).

(** ** The etcd chart: the named template [etcd.initial.clusters]

    The template of the chart that computes the value of the etcd flag
    [--initial-cluster].  Its functions are those of Go templates and of
    sprig: [until], [printf], [trimSuffix] and [quote].  [printf] applied to
    the accumulated string alone, and [quote], are taken as they come from
    those libraries, as the arguments [Sprintf0] and [quote]. *)

Module Template.

(** sprig [until count]: the integers from 0 up to, not including, [count];
    for a negative count they run downwards from 0. *)
Definition until (count : Z) : list Z :=
  if (count <? 0)%Z
  then map (fun i => (- Z.of_nat i)%Z) (seq 0 (Z.to_nat (- count)))
  else map Z.of_nat (seq 0 (Z.to_nat count)).

(** [strings.HasSuffix] and [strings.TrimSuffix], which sprig [trimSuffix]
    applies with its arguments swapped. *)
Definition HasSuffix (s suffix : string) : bool :=
  (String.length suffix <=? String.length s)%nat &&
  (substring (String.length s - String.length suffix) (String.length suffix) s
   =? suffix)%string.

Definition TrimSuffix (s suffix : string) : string :=
  if HasSuffix s suffix
  then substring 0 (String.length s - String.length suffix) s
  else s.

(** [printf "etcd-%d=http://etcd-%d.etcd.%s.svc.%s:2380," $index $index $ns
    $.Values.clusterDomain] *)
Definition etcd_node (index : Z) (ns clusterDomain : string) : string :=
  "etcd-" +:+ pretty index +:+ "=http://etcd-" +:+ pretty index +:+ ".etcd."
  +:+ ns +:+ ".svc." +:+ clusterDomain +:+ ":2380,".

(** The template: [$uri] starts empty, the range appends one node per index
    ([printf "%s%s" $uri $node]), and the result is
    [printf $uri | trimSuffix "," | quote]. *)
Definition etcd_initial_clusters (Sprintf0 quote : string -> string)
    (replicaCount : Z) (ns clusterDomain : string) : string :=
  let uri :=
    fold_left (fun uri index => uri +:+ etcd_node index ns clusterDomain)
              (until replicaCount) "" in
  quote (TrimSuffix (Sprintf0 uri) ",").

(** One member of the cluster, as the flag lists it. *)
Definition etcd_member (index : Z) (ns clusterDomain : string) : string :=
  "etcd-" +:+ pretty index +:+ "=http://etcd-" +:+ pretty index +:+ ".etcd."
  +:+ ns +:+ ".svc." +:+ clusterDomain +:+ ":2380".

(** A string without a percent sign holds no verb for [printf]. *)
Definition verb_free (s : string) : bool := negb (Strings.Contains s "%").

End Template.

(** A delete call or a node update is announced: the notice that names its
    object is the event just before it. *)
Definition announced (evs : list event) (e : event) : Prop :=
  match e with
  | DeleteCall k _ name _ =>
      exists before after,
        evs = before ++ Printf (notice_format k) [name] :: e :: after
  | NodesUpdate node _ =>
      exists before after,
        evs = before
              ++ Printf "remove node %q labels %q\n" [Name node; karmadaNodeLabel]
              :: e :: after
  | _ => True
  end.

(** ** The dry-run as the specification words it

    The spec's account of a confirmed dry-run (4.2, 4.3 and "Dry-run
    purity"), written down on its own to be compared with the code: the
    kinds are discovered in their order, every object a discovery matched is
    named in a notice, nothing is deleted or updated, a discovery that fails
    ends the sequence with its error, and the node pass lists the labelled
    nodes and names each, or says that there is none. *)

Section SpecDryRun.
Context {Cluster : Type} `{KubeClient Cluster}.

Definition spec_notices (k : Kind) (items : list Object) : list event :=
  map (fun item => Printf (notice_format k) [Name item]) items.

Definition spec_node_notices (nodes : list Object) : list event :=
  map (fun node =>
         Printf "remove node %q labels %q\n" [Name node; karmadaNodeLabel])
      nodes.

Definition spec_dry_nodes (c : Cluster) : option error * Cluster * list event :=
  match nodes_list karmadaNodeLabel c with
  | (inl err, c') => (Some err, c', [NodesList karmadaNodeLabel (inl err)])
  | (inr nodes, c') =>
      (None, c',
       NodesList karmadaNodeLabel (inr nodes)
       :: match nodes with
          | [] => [Printf "node not found by label %q\n" [karmadaNodeLabel]]
          | _ :: _ => spec_node_notices nodes
          end)
  end.

Fixpoint spec_dry_kinds (namespace : string) (kinds : list Kind) (c : Cluster)
  : option error * Cluster * list event :=
  match kinds with
  | [] => spec_dry_nodes c
  | k :: rest =>
      match list_objects k (kind_namespace k namespace) LabelSelector c with
      | (inl err, c') =>
          (Some err, c',
           [ListCall k (kind_namespace k namespace) LabelSelector (inl err)])
      | (inr items, c') =>
          match spec_dry_kinds namespace rest c' with
          | (r, c'', evs) =>
              (r, c'',
               ListCall k (kind_namespace k namespace) LabelSelector (inr items)
               :: spec_notices k items ++ evs)
          end
      end
  end.

Definition spec_dry_run (namespace : string) (c : Cluster)
  : option error * Cluster * list event :=
  spec_dry_kinds namespace
    [Deployment; StatefulSet; Service; Secret; ClusterRole] c.

End SpecDryRun.

(** The events of the node loop when every update succeeds: for each node
    its notice, then the update of the node with its marker labels
    removed. *)
Definition strip_updates (nodes : list Object) : list event :=
  flat_map
    (fun node =>
       [Printf "remove node %q labels %q\n" [Name node; karmadaNodeLabel];
        NodesUpdate (removeLabels node karmadaNodeLabel) None])
    nodes.

(** * Properties *)

(** ** Strings: casings and lower-casing *)

Module StringFacts.
Import Strings.

Lemma in_all_bytes (c : ascii) : In c all_bytes.
Proof.
  unfold all_bytes. rewrite <- (ascii_nat_embedding c).
  apply in_map, in_seq. pose proof (nat_ascii_bounded c). lia.
Qed.

Lemma byte_law_all :
  forallb (fun t => forallb (byte_law t) all_bytes) all_bytes = true.
Proof. vm_compute. reflexivity. Qed.

Lemma casing_byte (t c : ascii) :
  is_lower t = true ->
  Ascii.eqb c t || Ascii.eqb c (upper_byte t) = Ascii.eqb (lower_byte c) t.
Proof.
  intros Ht. pose proof byte_law_all as Hall.
  rewrite forallb_forall in Hall. specialize (Hall t (in_all_bytes t)).
  rewrite forallb_forall in Hall. specialize (Hall c (in_all_bytes c)).
  unfold byte_law in Hall. rewrite Ht in Hall. simpl in Hall.
  apply Bool.eqb_prop in Hall. exact Hall.
Qed.

(** A string is a casing of a lower-case token exactly when it lower-cases
    to the token. *)
Lemma casing_of_ToLower (token : string) :
  lowercase token = true ->
  forall s, casing_of token s = (ToLower s =? token)%string.
Proof.
  induction token as [|t token IH]; intros Hlow [|c s]; simpl; try reflexivity.
  simpl in Hlow. apply andb_prop in Hlow as [Ht Hrest].
  rewrite (casing_byte t c Ht), (IH Hrest s). reflexivity.
Qed.

End StringFacts.

(** ** removeLabels *)

Section RemoveLabels.
Import Strings.

Lemma strip_fold_lookup (marker : string) (m0 m : gmap string string) (key : string) :
  map_fold
    (fun label (_ : string) labels =>
       if Contains label marker then base.delete label labels else labels) m0 m
    !! key
  = if Contains key marker && bool_decide (is_Some (m !! key))
    then None else m0 !! key.
Proof.
  revert key. induction m as [|label x m Hfresh Hfold IH] using map_first_key_ind.
  - intros key. rewrite map_fold_empty, lookup_empty.
    rewrite bool_decide_eq_false_2 by (intros [? ?]; discriminate).
    rewrite andb_false_r. reflexivity.
  - intros key. rewrite map_fold_insert_first_key by assumption.
    destruct (decide (label = key)) as [->|Hne].
    + rewrite lookup_insert_eq.
      rewrite bool_decide_eq_true_2 by eauto. rewrite andb_true_r.
      destruct (Contains key marker) eqn:Hc.
      * apply lookup_delete_eq.
      * rewrite IH, Hc. reflexivity.
    + rewrite lookup_insert_ne by assumption.
      destruct (Contains label marker).
      * rewrite lookup_delete_ne by assumption. apply IH.
      * apply IH.
Qed.

(** After [removeLabels], a key is bound exactly when it was bound before
    and does not contain the marker, and then to the same value. *)
Lemma removeLabels_lookup (node : Object) (marker key : string) :
  Labels (removeLabels node marker) !! key
  = if Contains key marker then None else Labels node !! key.
Proof.
  unfold removeLabels. simpl. rewrite strip_fold_lookup.
  destruct (Contains key marker); simpl; [|reflexivity].
  case_bool_decide as Hb; [reflexivity|].
  destruct (Labels node !! key) eqn:E; [|reflexivity]. exfalso. apply Hb. eauto.
Qed.

Lemma removeLabels_unchanged (node : Object) (marker : string) :
  (forall key, is_Some (Labels node !! key) -> Contains key marker = false) ->
  removeLabels node marker = node.
Proof.
  intros Hno. destruct node as [name labels].
  unfold removeLabels. simpl. f_equal.
  apply map_eq. intros key. rewrite strip_fold_lookup.
  destruct (Contains key marker) eqn:Hc; simpl; [|reflexivity].
  case_bool_decide as Hb; [|reflexivity].
  simpl in Hno. rewrite (Hno key Hb) in Hc. discriminate.
Qed.

End RemoveLabels.

(** ** The program runs within the trace shapes *)

Section Runs.
Context {Cluster : Type} `{KubeClient Cluster}.
Context {RestCfg ClientSet : Type}.
Implicit Types (o : CommandDeInitOption ClientSet) (w : World Cluster).

Lemma runs_ret (Q : option error -> list event -> Prop) (r : option error) :
  Q r [] -> runs_within (ret (Cluster:=Cluster) r) Q.
Proof. intros HQ w. exists r. split; [reflexivity | exact HQ]. Qed.

Lemma runs_printf (format : string) (args : list string)
    (k : M Cluster (option error)) (Q : option error -> list event -> Prop) :
  runs_within k (fun r evs => Q r (Printf format args :: evs)) ->
  runs_within (fmt_Printf format args ;; k) Q.
Proof.
  intros Hk w. destruct (Hk w) as (r & Hr & HQ). exists r.
  unfold bind, fmt_Printf, emit, outcome, events in *. simpl.
  destruct (k w) as [[r' w'] evs']. simpl in *. auto.
Qed.

Lemma runs_check (m k : M Cluster (option error))
    (Q1 Q2 Q : option error -> list event -> Prop) :
  runs_within m Q1 ->
  runs_within k Q2 ->
  (forall err evs, Q1 (Some err) evs -> Q (Some err) evs) ->
  (forall evs1 r evs2, Q1 None evs1 -> Q2 r evs2 -> Q r (evs1 ++ evs2)) ->
  runs_within (check! m ;; k) Q.
Proof.
  intros Hm Hk Habort Hnext w.
  destruct (Hm w) as (r1 & Hr1 & HQ1).
  unfold check, bind, outcome, events in *.
  destruct (m w) as [[o1 w1] evs1]. simpl in *. subst o1.
  destruct r1 as [err|].
  - exists (Some err). simpl. rewrite app_nil_r. auto.
  - destruct (Hk w1) as (r2 & Hr2 & HQ2). unfold outcome, events in *.
    destruct (k w1) as [[o2 w2] evs2]. simpl in *. subst o2.
    exists r2. auto.
Qed.

Lemma runs_call_check (op : Cluster -> option error * Cluster)
    (ev : option error -> event) (k : M Cluster (option error))
    (Q : option error -> list event -> Prop) :
  (forall err, Q (Some err) [ev (Some err)]) ->
  runs_within k (fun r evs => Q r (ev None :: evs)) ->
  runs_within (check! call op ev ;; k) Q.
Proof.
  intros Hfail Hk w. unfold check, bind, call, outcome, events.
  destruct (op (cluster w)) as [[err|] c]; simpl.
  - exists (Some err). auto.
  - destruct (Hk (mkWorld c (stdin w))) as (r & Hr & HQ).
    unfold outcome, events in *.
    destruct (k (mkWorld c (stdin w))) as [[o2 w2] evs2]. simpl in *.
    exists r. auto.
Qed.

Lemma runs_call_try {A} (op : Cluster -> (error + A) * Cluster)
    (ev : error + A -> event) (k : A -> M Cluster (option error))
    (Q : option error -> list event -> Prop) :
  (forall err, Q (Some err) [ev (inl err)]) ->
  (forall x, runs_within (k x) (fun r evs => Q r (ev (inr x) :: evs))) ->
  runs_within (x <-! call op ev ;; k x) Q.
Proof.
  intros Hfail Hk w. unfold try, bind, call, outcome, events.
  destruct (op (cluster w)) as [[err|x] c]; simpl.
  - exists (Some err). auto.
  - destruct (Hk x (mkWorld c (stdin w))) as (r & Hr & HQ).
    unfold outcome, events in *.
    destruct (k x (mkWorld c (stdin w))) as [[o2 w2] evs2]. simpl in *.
    exists r. auto.
Qed.

Lemma runs_weaken (m : M Cluster (option error))
    (Q Q' : option error -> list event -> Prop) :
  runs_within m Q -> (forall r evs, Q r evs -> Q' r evs) -> runs_within m Q'.
Proof.
  intros Hm HQ w. destruct (Hm w) as (r & Hr & Hq). exists r. auto.
Qed.

Lemma deleteItems_runs (dryRun : bool) (k : Kind) (ns : option string)
    (items : list Object) :
  runs_within (deleteItems dryRun k ns (notice_format k) items)
              (loop_run dryRun k ns items).
Proof.
  induction items as [|item rest IH]; simpl.
  - apply runs_ret. constructor.
  - apply runs_printf. destruct dryRun eqn:Hdry.
    + eapply runs_weaken; [exact IH|]. intros r evs Hl.
      apply loop_skip; [reflexivity | exact Hl].
    + apply runs_call_check.
      * intros err. apply loop_failed. reflexivity.
      * eapply runs_weaken; [exact IH|]. intros r evs Hl.
        apply loop_deleted; [reflexivity | exact Hl].
Qed.

Lemma updateNodes_runs (dryRun : bool) (nodes : list Object) :
  runs_within (updateNodes dryRun nodes) (node_loop_run dryRun nodes).
Proof.
  induction nodes as [|node rest IH]; simpl.
  - apply runs_ret. constructor.
  - apply runs_printf. destruct dryRun eqn:Hdry.
    + eapply runs_weaken; [exact IH|]. intros r evs Hl.
      apply node_loop_skip; [reflexivity | exact Hl].
    + apply runs_call_check.
      * intros err. apply node_loop_failed. reflexivity.
      * eapply runs_weaken; [exact IH|]. intros r evs Hl.
        apply node_loop_updated; [reflexivity | exact Hl].
Qed.

Lemma chain_app_abort dryRun namespace sts1 sts2 err evs :
  chain dryRun namespace sts1 (Some err) evs ->
  chain dryRun namespace (sts1 ++ sts2) (Some err) evs.
Proof.
  intros Hc. remember (Some err) as r eqn:Hr.
  induction Hc as [|st rest err' evs Hs|st rest evs1 r evs2 Hs Hc IH]; simpl.
  - discriminate.
  - apply chain_abort. exact Hs.
  - apply chain_next; auto.
Qed.

Lemma chain_app dryRun namespace sts1 sts2 evs1 r evs2 :
  chain dryRun namespace sts1 None evs1 ->
  chain dryRun namespace sts2 r evs2 ->
  chain dryRun namespace (sts1 ++ sts2) r (evs1 ++ evs2).
Proof.
  intros Hc1 Hc2. remember None as r1 eqn:Hr1.
  induction Hc1 as [|st rest err' evs Hs|st rest evsa r' evsb Hs Hc IH]; simpl.
  - exact Hc2.
  - discriminate.
  - rewrite <- app_assoc. apply chain_next; auto.
Qed.

(** One deletion stage followed by the rest of the sequence. *)
Lemma kind_stage_runs (dryRun : bool) (namespace : string) (k : Kind)
    (rest : M Cluster (option error)) (sts : list stage) :
  runs_within rest (chain dryRun namespace sts) ->
  runs_within
    (items <-! List_ k (kind_namespace k namespace) LabelSelector ;;
     check! deleteItems dryRun k (kind_namespace k namespace)
              (notice_format k) items ;;
     rest)
    (chain dryRun namespace (KindStage k :: sts)).
Proof.
  intros Hrest. apply runs_call_try.
  - intros err. apply chain_abort. constructor.
  - intros items.
    eapply runs_check; [apply deleteItems_runs | exact Hrest | |].
    + intros err evs Hl. apply chain_abort. apply kind_listed. exact Hl.
    + intros evs1 r evs2 Hl Hc.
      change (ListCall k (kind_namespace k namespace) LabelSelector (inr items)
                :: evs1 ++ evs2)
        with ((ListCall k (kind_namespace k namespace) LabelSelector (inr items)
                :: evs1) ++ evs2).
      apply chain_next; [|exact Hc]. apply kind_listed. exact Hl.
Qed.

Lemma deleteWorkload_runs o :
  runs_within (deleteWorkload o)
    (chain (DryRun o) (Namespace o) [KindStage Deployment; KindStage StatefulSet]).
Proof.
  unfold deleteWorkload.
  apply (kind_stage_runs (DryRun o) (Namespace o) Deployment).
  apply (kind_stage_runs (DryRun o) (Namespace o) StatefulSet).
  apply runs_ret. constructor.
Qed.

Lemma delete_runs o :
  runs_within (delete o)
    (chain (DryRun o) (Namespace o)
       [KindStage Deployment; KindStage StatefulSet; KindStage Service;
        KindStage Secret; KindStage ClusterRole]).
Proof.
  unfold delete.
  eapply runs_check with
    (Q2 := chain (DryRun o) (Namespace o)
             [KindStage Service; KindStage Secret; KindStage ClusterRole]).
  - apply deleteWorkload_runs.
  - apply (kind_stage_runs (DryRun o) (Namespace o) Service).
    apply (kind_stage_runs (DryRun o) (Namespace o) Secret).
    apply (kind_stage_runs (DryRun o) (Namespace o) ClusterRole).
    apply runs_ret. constructor.
  - intros err evs Hc.
    apply (chain_app_abort _ _ [KindStage Deployment; KindStage StatefulSet]).
    exact Hc.
  - intros evs1 r evs2 Hc1 Hc2.
    apply (chain_app _ _ [KindStage Deployment; KindStage StatefulSet]);
      assumption.
Qed.

Lemma removeNodeLabels_runs o :
  runs_within (removeNodeLabels o) (stage_run (DryRun o) (Namespace o) NodeStage).
Proof.
  unfold removeNodeLabels. apply runs_call_try.
  - intros err. constructor.
  - intros [|node rest].
    + simpl. apply runs_printf. apply runs_ret. constructor.
    + change (length (node :: rest) =? 0)%nat with false. cbv iota.
      eapply runs_weaken; [apply updateNodes_runs|].
      intros r evs Hl. apply nodes_listed; [discriminate | exact Hl].
Qed.

(** The deletions and the node pass, as [Run] sequences them, followed by
    a continuation that only prints. *)
Lemma teardown_runs o (k : M Cluster (option error)) (post : list event) :
  runs_within k (fun r evs => r = None /\ evs = post) ->
  runs_within (check! delete o ;; check! removeNodeLabels o ;; k)
    (fun r evs =>
       exists evs0,
         chain (DryRun o) (Namespace o) teardown_stages r evs0 /\
         evs = evs0 ++ match r with None => post | Some _ => [] end).
Proof.
  intros Hk.
  eapply runs_check with
    (Q2 := fun r evs =>
             exists evs0,
               chain (DryRun o) (Namespace o) [NodeStage] r evs0 /\
               evs = evs0 ++ match r with None => post | Some _ => [] end).
  - apply delete_runs.
  - eapply runs_check; [apply removeNodeLabels_runs | exact Hk | |].
    + intros err evs Hs. exists evs. rewrite app_nil_r.
      split; [apply chain_abort; exact Hs | reflexivity].
    + intros evs1 r evs2 Hs [-> ->]. exists evs1. split; [|reflexivity].
      rewrite <- (app_nil_r evs1). apply chain_next; [exact Hs | constructor].
  - intros err evs Hc. exists evs. rewrite app_nil_r. split; [|reflexivity].
    apply (chain_app_abort _ _ _ [NodeStage]) in Hc. exact Hc.
  - intros evs1 r evs2 Hc1 (evs0 & Hc2 & ->). exists (evs1 ++ evs0).
    split; [|apply app_assoc].
    apply (chain_app _ _ _ [NodeStage] _ _ _ Hc1 Hc2).
Qed.

Lemma confirm_quiet (input : list (string + error)) :
  Forall quiet (snd (confirm input)).
Proof.
  induction input as [|[response|err] rest IH]; simpl.
  - repeat constructor.
  - destruct (_ || _); [repeat constructor|].
    destruct (_ || _); [repeat constructor|].
    destruct (confirm rest) as [[r rest'] evs]. simpl in *.
    repeat constructor. exact IH.
  - repeat constructor.
Qed.

Lemma Run_eq o w :
  Run o w =
  match confirm (stdin w) with
  | (Exited code, rest, cevs) =>
      (Exited code, mkWorld (cluster w) rest,
       Println "removes Karmada from Kubernetes" :: cevs)
  | (Ret false, rest, cevs) =>
      (Ret None, mkWorld (cluster w) rest,
       Println "removes Karmada from Kubernetes" :: cevs ++ [])
  | (Ret true, rest, cevs) =>
      match (check! delete o ;; check! removeNodeLabels o ;;
             fmt_Println ("remove Karmada from Kubernetes successfully." +:+
               "\ndeinit will not delete etcd data, if the etcd data is persistent, please delete it yourself.") ;;
             ret None) (mkWorld (cluster w) rest) with
      | (r, w', evs) =>
          (r, w', Println "removes Karmada from Kubernetes" :: cevs ++ evs)
      end
  end.
Proof.
  unfold Run, bind at 1 2, fmt_Println at 1, emit at 1, deleteConfirmation.
  cbv beta.
  destruct (confirm (stdin w)) as [[[[|]|code] rest] cevs]; try reflexivity.
  unfold negb. destruct ((check! delete o ;; _) _) as [[r w'] evs]. reflexivity.
Qed.

(** The three ways a run of [Run] can go: the scan fails and the process
    exits; the user declines; the user confirms and the stages run. *)
Lemma Run_shape o w :
  match confirm (stdin w) with
  | (Exited code, rest, cevs) =>
      Run o w = (Exited code, mkWorld (cluster w) rest,
                 Println "removes Karmada from Kubernetes" :: cevs)
  | (Ret false, rest, cevs) =>
      Run o w = (Ret None, mkWorld (cluster w) rest,
                 Println "removes Karmada from Kubernetes" :: cevs ++ [])
  | (Ret true, rest, cevs) =>
      exists r evs post,
        chain (DryRun o) (Namespace o) teardown_stages r evs /\
        outcome (Run o w) = Ret r /\
        events (Run o w)
        = (Println "removes Karmada from Kubernetes" :: cevs) ++ evs ++ post /\
        Forall quiet post /\
        (r <> None -> post = [])
  end.
Proof.
  rewrite Run_eq.
  destruct (confirm (stdin w)) as [[[[|]|code] rest] cevs]; try reflexivity.
  set (success := Println ("remove Karmada from Kubernetes successfully." +:+
    "\ndeinit will not delete etcd data, if the etcd data is persistent, please delete it yourself.")).
  destruct (teardown_runs o (emit success ;; ret None) [success]
              (fun w' => ex_intro _ None (conj eq_refl (conj eq_refl eq_refl)))
              (mkWorld (cluster w) rest)) as (r & Hr & evs0 & Hc & Hevs).
  unfold outcome, events, fmt_Println in *. fold success.
  destruct ((check! delete o ;; check! removeNodeLabels o ;; _) _)
    as [[r' w'] evs']. simpl in *. subst r' evs'.
  exists r, evs0, (match r with None => [success] | Some _ => [] end).
  split; [exact Hc|]. split; [reflexivity|]. split; [reflexivity|].
  destruct r as [err|]; split; try (intros; congruence || reflexivity).
  - constructor.
  - repeat constructor.
Qed.

End Runs.

(** ** What the trace shapes imply *)

Section ShapeFacts.
Variable dryRun : bool.
Variable namespace : string.

Lemma notice_stage (k : Kind) :
  format_stage (notice_format k) = Some (kind_stage k).
Proof. destruct k; reflexivity. Qed.

Lemma kind_stage_not_node (k : Kind) : kind_stage k <> node_stage.
Proof. destruct k; unfold node_stage; simpl; lia. Qed.

Lemma staged_in_app P evs1 evs2 :
  staged_in P evs1 -> staged_in P evs2 -> staged_in P (evs1 ++ evs2).
Proof. unfold staged_in. rewrite Forall_app. auto. Qed.

Lemma staged_in_weaken (P P' : nat -> Prop) evs :
  staged_in P evs -> (forall s, P s -> P' s) -> staged_in P' evs.
Proof.
  unfold staged_in. intros Hs HP. eapply Forall_impl; [exact Hs|].
  intros e (s & He & Hp). eauto.
Qed.

Lemma staged_in_elem P evs e :
  staged_in P evs -> e ∈ evs -> exists s, stage_of e = Some s /\ P s.
Proof. unfold staged_in. rewrite Forall_forall. auto. Qed.

Lemma fail_fast_cons e r evs :
  failed e = None -> fail_fast r evs -> fail_fast r (e :: evs).
Proof.
  intros He. destruct r as [err|]; simpl.
  - intros (pre & e' & -> & Hf & Hpre). exists (e :: pre), e'.
    split; [reflexivity|]. split; [exact Hf|]. constructor; assumption.
  - intros Hu. constructor; assumption.
Qed.

Lemma fail_fast_app evs1 r evs2 :
  unfailing evs1 -> fail_fast r evs2 -> fail_fast r (evs1 ++ evs2).
Proof.
  induction 1 as [|e evs1 He Hu IH]; simpl; [auto|].
  intros Hf. apply fail_fast_cons; auto.
Qed.

Lemma processed_mono k ns item evs evs' :
  (forall e, e ∈ evs -> e ∈ evs') ->
  processed dryRun k ns item evs -> processed dryRun k ns item evs'.
Proof. intros Hsub [Hn Hd]. split; auto. Qed.

(** *** The deletion loop *)

Lemma loop_staged k ns items r evs :
  loop_run dryRun k ns items r evs ->
  staged_in (fun s => s = kind_stage k) evs.
Proof.
  unfold staged_in.
  induction 1; repeat constructor; simpl; eauto using notice_stage.
Qed.

Lemma loop_fail_fast k ns items r evs :
  loop_run dryRun k ns items r evs -> fail_fast r evs.
Proof.
  induction 1.
  - constructor.
  - apply fail_fast_cons; [reflexivity | assumption].
  - do 2 (apply fail_fast_cons; [reflexivity|]). assumption.
  - exists [Printf (notice_format k) [Name item]],
           (DeleteCall k ns (Name item) (Some err)).
    repeat split. repeat constructor.
Qed.

Lemma loop_processed k ns items evs :
  loop_run dryRun k ns items None evs ->
  forall item, item ∈ items -> processed dryRun k ns item evs.
Proof.
  intros Hl. remember None as r eqn:Hr in Hl.
  induction Hl as [|item rest r evs Hdry Hl IH|item rest r evs Hdry Hl IH
                  |item rest err Hdry]; intros x Hx.
  - inversion Hx.
  - apply elem_of_cons in Hx as [->|Hx].
    + split; [left|]. intros Hd. congruence.
    + eapply processed_mono; [|apply (IH Hr x Hx)]. intros e He. by right.
  - apply elem_of_cons in Hx as [->|Hx].
    + split; [left|]. intros _. right. left.
    + eapply processed_mono; [|apply (IH Hr x Hx)].
      intros e He. right. by right.
  - discriminate.
Qed.

Lemma loop_dry k ns items r evs :
  dryRun = true ->
  loop_run dryRun k ns items r evs ->
  r = None /\ evs = map (fun item => Printf (notice_format k) [Name item]) items.
Proof.
  intros Hdry. induction 1; simpl; try congruence; [auto|].
  destruct IHloop_run as [-> ->]. auto.
Qed.

Lemma loop_discoveries k ns items r evs :
  loop_run dryRun k ns items r evs -> discoveries evs = [].
Proof. induction 1; simpl; auto. Qed.

(** *** The node loop *)

Lemma node_loop_staged nodes r evs :
  node_loop_run dryRun nodes r evs ->
  staged_in (fun s => s = node_stage) evs.
Proof.
  unfold staged_in. induction 1; repeat constructor; simpl; eauto.
Qed.

Lemma node_loop_fail_fast nodes r evs :
  node_loop_run dryRun nodes r evs -> fail_fast r evs.
Proof.
  induction 1.
  - constructor.
  - apply fail_fast_cons; [reflexivity | assumption].
  - do 2 (apply fail_fast_cons; [reflexivity|]). assumption.
  - exists [Printf "remove node %q labels %q\n" [Name node; karmadaNodeLabel]],
           (NodesUpdate (removeLabels node karmadaNodeLabel) (Some err)).
    repeat split. repeat constructor.
Qed.

Lemma node_loop_dry nodes r evs :
  dryRun = true ->
  node_loop_run dryRun nodes r evs ->
  r = None /\
  evs = map (fun node =>
               Printf "remove node %q labels %q\n" [Name node; karmadaNodeLabel])
            nodes.
Proof.
  intros Hdry. induction 1; simpl; try congruence; [auto|].
  destruct IHnode_loop_run as [-> ->]. auto.
Qed.

Lemma node_loop_discoveries nodes r evs :
  node_loop_run dryRun nodes r evs -> discoveries evs = [].
Proof. induction 1; simpl; auto. Qed.

(** Every node the loop has passed has been noticed and, outside dry-run,
    sent to the update call with its marker labels removed. *)
Lemma node_loop_updated_all nodes evs :
  node_loop_run dryRun nodes None evs ->
  forall node, node ∈ nodes ->
    Printf "remove node %q labels %q\n" [Name node; karmadaNodeLabel] ∈ evs /\
    (dryRun = false ->
     NodesUpdate (removeLabels node karmadaNodeLabel) None ∈ evs).
Proof.
  intros Hl. remember None as r eqn:Hr in Hl.
  induction Hl as [|node rest r evs Hdry Hl IH|node rest r evs Hdry Hl IH
                  |node rest err Hdry]; intros x Hx.
  - inversion Hx.
  - apply elem_of_cons in Hx as [->|Hx].
    + split; [left|]. intros Hd. congruence.
    + destruct (IH Hr x Hx) as [Hn Hu]. split; [by right|].
      intros Hd. right. auto.
  - apply elem_of_cons in Hx as [->|Hx].
    + split; [left|]. intros _. right. left.
    + destruct (IH Hr x Hx) as [Hn Hu]. split; [by do 2 right|].
      intros Hd. do 2 right. auto.
  - discriminate.
Qed.

(** The loop updates nothing but the listed nodes, each with its marker
    labels removed. *)
Lemma node_loop_updates_only nodes r evs node res :
  node_loop_run dryRun nodes r evs ->
  NodesUpdate node res ∈ evs ->
  exists listed, listed ∈ nodes /\ node = removeLabels listed karmadaNodeLabel.
Proof.
  induction 1 as [|n rest r evs Hdry Hl IH|n rest r evs Hdry Hl IH
                 |n rest err Hdry]; intros Hin.
  - inversion Hin.
  - apply elem_of_cons in Hin as [Heq|Hin]; [discriminate|].
    destruct (IH Hin) as (l & Hl' & ->). exists l. split; [by right | reflexivity].
  - apply elem_of_cons in Hin as [Heq|Hin]; [discriminate|].
    apply elem_of_cons in Hin as [Heq|Hin].
    + inversion Heq; subst. exists n. split; [left | reflexivity].
    + destruct (IH Hin) as (l & Hl' & ->). exists l.
      split; [by right | reflexivity].
  - apply elem_of_cons in Hin as [Heq|Hin]; [discriminate|].
    apply elem_of_cons in Hin as [Heq|Hin]; [|inversion Hin].
    inversion Heq; subst. exists n. split; [left | reflexivity].
Qed.

(** *** One stage *)

Lemma discovery_staged e :
  is_discovery e = true -> exists s, stage_of e = Some s.
Proof. destruct e; simpl; intros; try discriminate; eauto. Qed.

Lemma discoveries_nil_elem evs e :
  discoveries evs = [] -> e ∈ evs -> is_discovery e = false.
Proof.
  induction evs as [|a evs IH]; intros Hd He; [inversion He|].
  unfold discoveries in Hd. cbn in Hd. unfold discovery_stage in Hd at 1.
  destruct (is_discovery a) eqn:Ha.
  - destruct (discovery_staged a Ha) as [s Hs]. rewrite Hs in Hd. discriminate.
  - apply elem_of_cons in He as [->|He]; [exact Ha | auto].
Qed.

Lemma staged_in_omap P evs :
  staged_in P evs -> Forall P (omap stage_of evs).
Proof.
  unfold staged_in. induction 1 as [|e evs (s & He & HP) _ IH]; cbn.
  - constructor.
  - rewrite He. constructor; assumption.
Qed.

Lemma stage_staged st r evs :
  stage_run dryRun namespace st r evs ->
  staged_in (fun s => s = stage_index st) evs.
Proof.
  destruct 1 as [k err|k items r evs Hl|err| |nodes r evs Hne Hl].
  - repeat constructor. simpl. eauto.
  - constructor; [simpl; eauto|]. apply (loop_staged _ _ _ _ _ Hl).
  - repeat constructor. simpl. eauto.
  - repeat constructor; simpl; eauto.
  - constructor; [simpl; eauto|]. apply (node_loop_staged _ _ _ Hl).
Qed.

Lemma stage_fail_fast st r evs :
  stage_run dryRun namespace st r evs -> fail_fast r evs.
Proof.
  destruct 1 as [k err|k items r evs Hl|err| |nodes r evs Hne Hl].
  - exists [], (ListCall k (kind_namespace k namespace) LabelSelector (inl err)).
    repeat split. constructor.
  - apply fail_fast_cons; [reflexivity|]. eapply loop_fail_fast; eauto.
  - exists [], (NodesList karmadaNodeLabel (inl err)).
    repeat split. constructor.
  - repeat constructor.
  - apply fail_fast_cons; [reflexivity|]. eapply node_loop_fail_fast; eauto.
Qed.

Lemma stage_discoveries st r evs :
  stage_run dryRun namespace st r evs -> discoveries evs = [stage_index st].
Proof.
  destruct 1 as [k err|k items r evs Hl|err| |nodes r evs Hne Hl];
    unfold discoveries; cbn; try reflexivity.
  - f_equal. eapply loop_discoveries; eauto.
  - f_equal. eapply node_loop_discoveries; eauto.
Qed.

Lemma stage_processed st evs k ns selector items :
  stage_run dryRun namespace st None evs ->
  ListCall k ns selector (inr items) ∈ evs ->
  forall item, item ∈ items -> processed dryRun k ns item evs.
Proof.
  intros Hs Hin. inversion Hs as [|k0 items0 r0 evs0 Hl| | |nodes r0 evs0 Hne Hl];
    subst.
  - apply elem_of_cons in Hin as [Heq|Hin].
    + inversion Heq; subst. intros item Hitem.
      eapply processed_mono; [|eapply loop_processed; eauto].
      intros e He. by right.
    + pose proof (discoveries_nil_elem _ _ (loop_discoveries _ _ _ _ _ Hl) Hin).
      discriminate.
  - apply elem_of_cons in Hin as [Heq|Hin]; [discriminate|].
    apply elem_of_cons in Hin as [Heq|Hin]; [discriminate|]. inversion Hin.
  - apply elem_of_cons in Hin as [Heq|Hin]; [discriminate|].
    pose proof (discoveries_nil_elem _ _ (node_loop_discoveries _ _ _ Hl) Hin).
    discriminate.
Qed.

Lemma notices_of_map k items :
  notices_of k (map (fun item => Printf (notice_format k) [Name item]) items)
  = map Name items.
Proof.
  induction items as [|item rest IH]; [reflexivity|].
  unfold notices_of in *. cbn. rewrite String.eqb_refl, IH. reflexivity.
Qed.

Lemma node_notices_map nodes :
  node_notices
    (map (fun node =>
            Printf "remove node %q labels %q\n" [Name node; karmadaNodeLabel])
         nodes)
  = map Name nodes.
Proof.
  induction nodes as [|node rest IH]; [reflexivity|].
  unfold node_notices in *. cbn. f_equal. exact IH.
Qed.

Lemma notices_of_other k P evs :
  staged_in P evs -> ~ P (kind_stage k) -> notices_of k evs = [].
Proof.
  unfold staged_in, notices_of.
  induction 1 as [|e evs (s & He & HP) _ IH]; intros Hk; [reflexivity|].
  cbn. rewrite (IH Hk).
  destruct e as [| format [|name [|? ?]] | | | | | | |]; cbn; try reflexivity.
  destruct (format =? notice_format k)%string eqn:Hf; [|reflexivity].
  apply String.eqb_eq in Hf. subst format. simpl in He.
  rewrite notice_stage in He. inversion He; subst. contradiction.
Qed.

Lemma node_notices_other P evs :
  staged_in P evs -> ~ P node_stage -> node_notices evs = [].
Proof.
  unfold staged_in, node_notices.
  induction 1 as [|e evs (s & He & HP) _ IH]; intros Hk; [reflexivity|].
  cbn. rewrite (IH Hk).
  destruct e as [| format [|name [|label [|? ?]]] | | | | | | |]; cbn;
    try reflexivity.
  destruct (format =? "remove node %q labels %q\n")%string eqn:Hf;
    [|reflexivity].
  apply String.eqb_eq in Hf. subst format. simpl in He.
  inversion He; subst. contradiction.
Qed.

Lemma stage_dry_notices st r evs k ns selector items :
  dryRun = true ->
  stage_run dryRun namespace st r evs ->
  ListCall k ns selector (inr items) ∈ evs ->
  notices_of k evs = map Name items.
Proof.
  intros Hdry Hs Hin.
  destruct Hs as [k0 err|k0 items0 r evs Hl|err| |nodes r evs Hne Hl].
  - apply elem_of_cons in Hin as [Heq|Hin]; [discriminate | inversion Hin].
  - apply elem_of_cons in Hin as [Heq|Hin].
    + injection Heq as ? ? ? ?; subst k ns selector items.
      destruct (loop_dry _ _ _ _ _ Hdry Hl) as [_ ->].
      unfold notices_of. cbn. apply notices_of_map.
    + pose proof (discoveries_nil_elem _ _ (loop_discoveries _ _ _ _ _ Hl) Hin).
      discriminate.
  - apply elem_of_cons in Hin as [Heq|Hin]; [discriminate | inversion Hin].
  - apply elem_of_cons in Hin as [Heq|Hin]; [discriminate|].
    apply elem_of_cons in Hin as [Heq|Hin]; [discriminate|]. inversion Hin.
  - apply elem_of_cons in Hin as [Heq|Hin]; [discriminate|].
    pose proof (discoveries_nil_elem _ _ (node_loop_discoveries _ _ _ Hl) Hin).
    discriminate.
Qed.

Lemma stage_dry_node_notices st r evs selector nodes :
  dryRun = true ->
  stage_run dryRun namespace st r evs ->
  NodesList selector (inr nodes) ∈ evs ->
  node_notices evs = map Name nodes.
Proof.
  intros Hdry Hs Hin.
  destruct Hs as [k0 err|k0 items0 r evs Hl|err| |nodes0 r evs Hne Hl].
  - apply elem_of_cons in Hin as [Heq|Hin]; [discriminate | inversion Hin].
  - apply elem_of_cons in Hin as [Heq|Hin]; [discriminate|].
    pose proof (discoveries_nil_elem _ _ (loop_discoveries _ _ _ _ _ Hl) Hin).
    discriminate.
  - apply elem_of_cons in Hin as [Heq|Hin]; [discriminate | inversion Hin].
  - apply elem_of_cons in Hin as [Heq|Hin].
    + injection Heq as ? ?; subst selector nodes. reflexivity.
    + apply elem_of_cons in Hin as [Heq|Hin]; [discriminate | inversion Hin].
  - apply elem_of_cons in Hin as [Heq|Hin].
    + injection Heq as ? ?; subst selector nodes.
      destruct (node_loop_dry _ _ _ Hdry Hl) as [_ ->].
      unfold node_notices. cbn [omap node_notice]. apply node_notices_map.
    + pose proof (discoveries_nil_elem _ _ (node_loop_discoveries _ _ _ Hl) Hin).
      discriminate.
Qed.

Lemma stage_dry_no_mutation st r evs :
  dryRun = true ->
  stage_run dryRun namespace st r evs ->
  Forall (fun e => is_mutation e = false) evs.
Proof.
  intros Hdry Hs.
  destruct Hs as [k0 err|k0 items0 r evs Hl|err| |nodes0 r evs Hne Hl].
  - repeat constructor.
  - constructor; [reflexivity|].
    destruct (loop_dry _ _ _ _ _ Hdry Hl) as [_ ->].
    apply Forall_forall. intros e He. apply list_elem_of_fmap in He as (x & -> & _).
    reflexivity.
  - repeat constructor.
  - repeat constructor.
  - constructor; [reflexivity|].
    destruct (node_loop_dry _ _ _ Hdry Hl) as [_ ->].
    apply Forall_forall. intros e He. apply list_elem_of_fmap in He as (x & -> & _).
    reflexivity.
Qed.

Lemma stage_node_updates st evs selector nodes :
  stage_run dryRun namespace st None evs ->
  NodesList selector (inr nodes) ∈ evs ->
  forall node, node ∈ nodes ->
    Printf "remove node %q labels %q\n" [Name node; karmadaNodeLabel] ∈ evs /\
    (dryRun = false ->
     NodesUpdate (removeLabels node karmadaNodeLabel) None ∈ evs).
Proof.
  intros Hs Hin. inversion Hs as [|k0 items0 r0 evs0 Hl| | |nodes0 r0 evs0 Hne Hl];
    subst.
  - apply elem_of_cons in Hin as [Heq|Hin]; [discriminate|].
    pose proof (discoveries_nil_elem _ _ (loop_discoveries _ _ _ _ _ Hl) Hin).
    discriminate.
  - apply elem_of_cons in Hin as [Heq|Hin].
    + inversion Heq; subst. intros node Hnode. inversion Hnode.
    + apply elem_of_cons in Hin as [Heq|Hin]; [discriminate | inversion Hin].
  - apply elem_of_cons in Hin as [Heq|Hin].
    + inversion Heq; subst. intros node Hnode.
      destruct (node_loop_updated_all _ _ Hl node Hnode) as [Hn Hu].
      split; [by right|]. intros Hd. right. auto.
    + pose proof (discoveries_nil_elem _ _ (node_loop_discoveries _ _ _ Hl) Hin).
      discriminate.
Qed.

Lemma stage_updates_only st r evs node res :
  stage_run dryRun namespace st r evs ->
  NodesUpdate node res ∈ evs ->
  exists nodes listed,
    NodesList karmadaNodeLabel (inr nodes) ∈ evs /\ listed ∈ nodes /\
    node = removeLabels listed karmadaNodeLabel.
Proof.
  intros Hs Hin.
  destruct Hs as [k0 err|k0 items0 r evs Hl|err| |nodes0 r evs Hne Hl].
  - apply elem_of_cons in Hin as [Heq|Hin]; [discriminate | inversion Hin].
  - apply elem_of_cons in Hin as [Heq|Hin]; [discriminate|].
    destruct (staged_in_elem _ _ _ (loop_staged _ _ _ _ _ Hl) Hin) as (s & Hs & ->).
    simpl in Hs. inversion Hs as [Hk]. symmetry in Hk.
    destruct (kind_stage_not_node _ Hk).
  - apply elem_of_cons in Hin as [Heq|Hin]; [discriminate | inversion Hin].
  - apply elem_of_cons in Hin as [Heq|Hin]; [discriminate|].
    apply elem_of_cons in Hin as [Heq|Hin]; [discriminate | inversion Hin].
  - apply elem_of_cons in Hin as [Heq|Hin]; [discriminate|].
    destruct (node_loop_updates_only _ _ _ _ _ Hl Hin) as (l & Hl' & ->).
    exists nodes0, l. split; [left | auto].
Qed.

(** *** The sequence of stages *)

Lemma sorted_stages_head st rest :
  StronglySorted lt (map stage_index (st :: rest)) ->
  (forall s, s ∈ map stage_index rest -> stage_index st < s) /\
  StronglySorted lt (map stage_index rest).
Proof.
  simpl. rewrite StronglySorted_cons, Forall_forall. tauto.
Qed.

Lemma constant_sorted (a : nat) (l : list nat) :
  Forall (fun s => s = a) l -> StronglySorted le l.
Proof.
  induction 1 as [|s l -> Hl IH]; constructor; [exact IH|].
  eapply Forall_impl; [exact Hl|]. intros s ->. lia.
Qed.

Lemma chain_staged sts r evs :
  chain dryRun namespace sts r evs ->
  staged_in (fun s => s ∈ map stage_index sts) evs.
Proof.
  induction 1 as [|st rest err evs Hs|st rest evs1 r evs2 Hs Hc IH].
  - constructor.
  - eapply staged_in_weaken; [apply (stage_staged _ _ _ Hs)|].
    intros s ->. simpl. left.
  - apply staged_in_app.
    + eapply staged_in_weaken; [apply (stage_staged _ _ _ Hs)|].
      intros s ->. simpl. left.
    + eapply staged_in_weaken; [exact IH|]. intros s Hin. simpl. by right.
Qed.

Lemma chain_fail_fast sts r evs :
  chain dryRun namespace sts r evs -> fail_fast r evs.
Proof.
  induction 1 as [|st rest err evs Hs|st rest evs1 r evs2 Hs Hc IH].
  - constructor.
  - apply (stage_fail_fast _ _ _ Hs).
  - apply fail_fast_app; [|exact IH]. apply (stage_fail_fast _ _ _ Hs).
Qed.

Lemma chain_sorted sts r evs :
  StronglySorted lt (map stage_index sts) ->
  chain dryRun namespace sts r evs ->
  StronglySorted le (omap stage_of evs).
Proof.
  intros Hsorted Hc.
  induction Hc as [|st rest err evs Hs|st rest evs1 r evs2 Hs Hc IH].
  - constructor.
  - eapply constant_sorted, staged_in_omap, stage_staged, Hs.
  - apply sorted_stages_head in Hsorted as [Hlt Hrest].
    rewrite omap_app. apply StronglySorted_app_2.
    + intros s1 s2 H1 H2.
      pose proof (staged_in_omap _ _ (stage_staged _ _ _ Hs)) as Ha.
      pose proof (staged_in_omap _ _ (chain_staged _ _ _ Hc)) as Hb.
      rewrite Forall_forall in Ha, Hb.
      rewrite (Ha _ H1). specialize (Hlt _ (Hb _ H2)). lia.
    + eapply constant_sorted, staged_in_omap, stage_staged, Hs.
    + apply IH, Hrest.
Qed.

Lemma chain_discoveries sts r evs :
  chain dryRun namespace sts r evs ->
  discoveries evs `prefix_of` map stage_index sts /\
  (r = None -> discoveries evs = map stage_index sts).
Proof.
  induction 1 as [|st rest err evs Hs|st rest evs1 r evs2 Hs Hc [IHp IHe]].
  - split; [apply prefix_nil | reflexivity].
  - rewrite (stage_discoveries _ _ _ Hs). split; [|discriminate].
    simpl. apply prefix_cons, prefix_nil.
  - unfold discoveries in *. rewrite omap_app.
    pose proof (stage_discoveries _ _ _ Hs) as Hd. unfold discoveries in Hd.
    rewrite Hd. simpl. split.
    + apply prefix_cons, IHp.
    + intros Hr. rewrite (IHe Hr). reflexivity.
Qed.

(** When a later stage has left an event, every item of an earlier listing
    has been processed. *)
Lemma chain_processed sts r evs k ns selector items e s :
  StronglySorted lt (map stage_index sts) ->
  chain dryRun namespace sts r evs ->
  ListCall k ns selector (inr items) ∈ evs ->
  e ∈ evs -> stage_of e = Some s -> kind_stage k < s ->
  forall item, item ∈ items -> processed dryRun k ns item evs.
Proof.
  intros Hsorted Hc. revert Hsorted.
  induction Hc as [|st rest err evs Hs|st rest evs1 r evs2 Hs Hc IH];
    intros Hsorted Hlist He Hstage Hlt.
  - inversion He.
  - pose proof (stage_staged _ _ _ Hs) as Hst.
    destruct (staged_in_elem _ _ _ Hst Hlist) as (s1 & H1 & ->).
    destruct (staged_in_elem _ _ _ Hst He) as (s2 & H2 & ->).
    simpl in H1. rewrite Hstage in H2. inversion H1. inversion H2. lia.
  - apply sorted_stages_head in Hsorted as [Hhead Hrest].
    pose proof (stage_staged _ _ _ Hs) as Hst1.
    pose proof (chain_staged _ _ _ Hc) as Hst2.
    apply elem_of_app in Hlist as [Hlist|Hlist].
    + intros item Hitem. eapply processed_mono;
        [|apply (stage_processed _ _ _ _ _ _ Hs Hlist item Hitem)].
      intros e' He'. apply elem_of_app. by left.
    + destruct (staged_in_elem _ _ _ Hst2 Hlist) as (s2 & H2 & Hin2).
      simpl in H2. inversion H2; subst s2.
      apply elem_of_app in He as [He|He].
      * destruct (staged_in_elem _ _ _ Hst1 He) as (s1 & H1 & ->).
        rewrite Hstage in H1. inversion H1; subst s.
        specialize (Hhead _ Hin2). lia.
      * intros item Hitem. eapply processed_mono;
          [|apply (IH Hrest Hlist He Hstage Hlt item Hitem)].
        intros e' He'. apply elem_of_app. by right.
Qed.

Lemma chain_dry_no_mutation sts r evs :
  dryRun = true ->
  chain dryRun namespace sts r evs ->
  Forall (fun e => is_mutation e = false) evs.
Proof.
  intros Hdry.
  induction 1 as [|st rest err evs Hs|st rest evs1 r evs2 Hs Hc IH].
  - constructor.
  - apply (stage_dry_no_mutation _ _ _ Hdry Hs).
  - apply Forall_app. split; [|exact IH].
    apply (stage_dry_no_mutation _ _ _ Hdry Hs).
Qed.

Lemma chain_dry_notices sts r evs k ns selector items :
  StronglySorted lt (map stage_index sts) ->
  dryRun = true ->
  chain dryRun namespace sts r evs ->
  ListCall k ns selector (inr items) ∈ evs ->
  notices_of k evs = map Name items.
Proof.
  intros Hsorted Hdry Hc. revert Hsorted.
  induction Hc as [|st rest err evs Hs|st rest evs1 r evs2 Hs Hc IH];
    intros Hsorted Hlist.
  - inversion Hlist.
  - apply (stage_dry_notices _ _ _ _ _ _ _ Hdry Hs Hlist).
  - apply sorted_stages_head in Hsorted as [Hhead Hrest].
    pose proof (stage_staged _ _ _ Hs) as Hst1.
    pose proof (chain_staged _ _ _ Hc) as Hst2.
    unfold notices_of. rewrite omap_app. fold (notices_of k evs1) (notices_of k evs2).
    apply elem_of_app in Hlist as [Hlist|Hlist].
    + destruct (staged_in_elem _ _ _ Hst1 Hlist) as (s1 & H1 & ->).
      simpl in H1. inversion H1 as [Hk].
      rewrite (stage_dry_notices _ _ _ _ _ _ _ Hdry Hs Hlist).
      rewrite (notices_of_other k _ _ Hst2); [apply app_nil_r|].
      intros Hin. specialize (Hhead _ Hin). lia.
    + destruct (staged_in_elem _ _ _ Hst2 Hlist) as (s2 & H2 & Hin2).
      simpl in H2. inversion H2; subst s2.
      rewrite (notices_of_other k _ _ Hst1); [apply (IH Hrest Hlist)|].
      intros Heq. specialize (Hhead _ Hin2). lia.
Qed.

Lemma chain_dry_node_notices sts r evs selector nodes :
  StronglySorted lt (map stage_index sts) ->
  dryRun = true ->
  chain dryRun namespace sts r evs ->
  NodesList selector (inr nodes) ∈ evs ->
  node_notices evs = map Name nodes.
Proof.
  intros Hsorted Hdry Hc. revert Hsorted.
  induction Hc as [|st rest err evs Hs|st rest evs1 r evs2 Hs Hc IH];
    intros Hsorted Hlist.
  - inversion Hlist.
  - apply (stage_dry_node_notices _ _ _ _ _ Hdry Hs Hlist).
  - apply sorted_stages_head in Hsorted as [Hhead Hrest].
    pose proof (stage_staged _ _ _ Hs) as Hst1.
    pose proof (chain_staged _ _ _ Hc) as Hst2.
    unfold node_notices. rewrite omap_app.
    fold (node_notices evs1) (node_notices evs2).
    apply elem_of_app in Hlist as [Hlist|Hlist].
    + destruct (staged_in_elem _ _ _ Hst1 Hlist) as (s1 & H1 & ->).
      simpl in H1. inversion H1 as [Hk].
      rewrite (stage_dry_node_notices _ _ _ _ _ Hdry Hs Hlist).
      rewrite (node_notices_other _ _ Hst2); [apply app_nil_r|].
      intros Hin. specialize (Hhead _ Hin). lia.
    + destruct (staged_in_elem _ _ _ Hst2 Hlist) as (s2 & H2 & Hin2).
      simpl in H2. inversion H2; subst s2.
      rewrite (node_notices_other _ _ Hst1); [apply (IH Hrest Hlist)|].
      intros Heq. specialize (Hhead _ Hin2). lia.
Qed.

Lemma chain_node_updates sts evs selector nodes :
  chain dryRun namespace sts None evs ->
  NodesList selector (inr nodes) ∈ evs ->
  forall node, node ∈ nodes ->
    Printf "remove node %q labels %q\n" [Name node; karmadaNodeLabel] ∈ evs /\
    (dryRun = false ->
     NodesUpdate (removeLabels node karmadaNodeLabel) None ∈ evs).
Proof.
  intros Hc. remember None as r eqn:Hr in Hc.
  induction Hc as [|st rest err evs Hs|st rest evs1 r evs2 Hs Hc IH];
    intros Hlist node Hnode.
  - inversion Hlist.
  - discriminate.
  - apply elem_of_app in Hlist as [Hlist|Hlist].
    + destruct (stage_node_updates _ _ _ _ Hs Hlist node Hnode) as [Hn Hu].
      split; [apply elem_of_app; by left|].
      intros Hd. apply elem_of_app. left. auto.
    + destruct (IH Hr Hlist node Hnode) as [Hn Hu].
      split; [apply elem_of_app; by right|].
      intros Hd. apply elem_of_app. right. auto.
Qed.

Lemma chain_updates_only sts r evs node res :
  chain dryRun namespace sts r evs ->
  NodesUpdate node res ∈ evs ->
  exists nodes listed,
    NodesList karmadaNodeLabel (inr nodes) ∈ evs /\ listed ∈ nodes /\
    node = removeLabels listed karmadaNodeLabel.
Proof.
  induction 1 as [|st rest err evs Hs|st rest evs1 r evs2 Hs Hc IH]; intros Hin.
  - inversion Hin.
  - apply (stage_updates_only _ _ _ _ _ Hs Hin).
  - apply elem_of_app in Hin as [Hin|Hin].
    + destruct (stage_updates_only _ _ _ _ _ Hs Hin) as (nodes & l & H1 & H2 & H3).
      exists nodes, l. split; [apply elem_of_app; by left | auto].
    + destruct (IH Hin) as (nodes & l & H1 & H2 & H3).
      exists nodes, l. split; [apply elem_of_app; by right | auto].
Qed.

Lemma teardown_stages_sorted :
  StronglySorted lt (map stage_index teardown_stages).
Proof. repeat constructor. Qed.

End ShapeFacts.

(** ** Runs of [Run] *)

Section RunFacts.
Context {Cluster : Type} `{KubeClient Cluster}.
Context {ClientSet : Type}.
Implicit Types (o : CommandDeInitOption ClientSet) (w : World Cluster).

Lemma staged_not_quiet e s : stage_of e = Some s -> ~ quiet e.
Proof. intros Hs [Hq _]. congruence. Qed.

Lemma quiet_no_call e :
  quiet e -> is_discovery e = false /\ is_mutation e = false.
Proof. intros [Hs _]. destruct e; simpl in *; auto; discriminate. Qed.

Lemma quiet_stages l : Forall quiet l -> omap stage_of l = [].
Proof.
  induction 1 as [|e l [Hs _] _ IH]; [reflexivity|]. cbn. rewrite Hs. exact IH.
Qed.

Lemma quiet_unfailing l : Forall quiet l -> unfailing l.
Proof.
  intros Hq. eapply Forall_impl; [exact Hq|]. intros e [_ Hf]. exact Hf.
Qed.

Lemma quiet_discoveries l : Forall quiet l -> discoveries l = [].
Proof.
  induction 1 as [|e l Hq _ IH]; [reflexivity|].
  unfold discoveries in *. cbn. unfold discovery_stage at 1.
  destruct (quiet_no_call e Hq) as [-> _]. exact IH.
Qed.

Lemma notice_of_staged k e name :
  notice_of k e = Some name -> stage_of e = Some (kind_stage k).
Proof.
  destruct e as [| format [|n [|? ?]] | | | | | | |]; simpl; try discriminate.
  destruct (format =? notice_format k)%string eqn:Hf; [|discriminate].
  apply String.eqb_eq in Hf. subst. intros _. apply notice_stage.
Qed.

Lemma node_notice_staged e name :
  node_notice e = Some name -> stage_of e = Some node_stage.
Proof.
  destruct e as [| format [|n [|l [|? ?]]] | | | | | | |]; simpl; try discriminate.
  destruct (format =? "remove node %q labels %q\n")%string eqn:Hf; [|discriminate].
  apply String.eqb_eq in Hf. subst. reflexivity.
Qed.

Lemma quiet_notices k l : Forall quiet l -> notices_of k l = [].
Proof.
  induction 1 as [|e l Hq _ IH]; [reflexivity|].
  unfold notices_of in *. cbn. rewrite IH.
  destruct (notice_of k e) eqn:Hn; [|reflexivity].
  destruct (staged_not_quiet _ _ (notice_of_staged _ _ _ Hn) Hq).
Qed.

Lemma quiet_node_notices l : Forall quiet l -> node_notices l = [].
Proof.
  induction 1 as [|e l Hq _ IH]; [reflexivity|].
  unfold node_notices in *. cbn. rewrite IH.
  destruct (node_notice e) eqn:Hn; [|reflexivity].
  destruct (staged_not_quiet _ _ (node_notice_staged _ _ Hn) Hq).
Qed.

Lemma staged_elem_middle pre evs post e s :
  Forall quiet pre -> Forall quiet post ->
  stage_of e = Some s -> e ∈ pre ++ evs ++ post -> e ∈ evs.
Proof.
  intros Hpre Hpost Hs Hin. rewrite Forall_forall in Hpre, Hpost.
  apply elem_of_app in Hin as [Hin|Hin].
  - destruct (staged_not_quiet _ _ Hs (Hpre _ Hin)).
  - apply elem_of_app in Hin as [Hin|Hin]; [exact Hin|].
    destruct (staged_not_quiet _ _ Hs (Hpost _ Hin)).
Qed.

Lemma last_failure pre0 e0 pre e post err :
  unfailing pre0 ->
  pre ++ e :: post = pre0 ++ [e0] ->
  failed e = Some err ->
  post = [] /\ e = e0.
Proof.
  intros Hu Heq Hf. destruct post as [|x post _] using rev_ind.
  - apply app_inj_tail in Heq as [_ ->]. auto.
  - change (pre ++ e :: post ++ [x]) with (pre ++ (e :: post) ++ [x]) in Heq.
    rewrite app_assoc in Heq. apply app_inj_tail in Heq as [<- _].
    unfold unfailing in Hu. rewrite Forall_forall in Hu.
    assert (e ∈ pre ++ e :: post) as Hin by (apply elem_of_app; right; left).
    rewrite (Hu _ Hin) in Hf. discriminate.
Qed.

Lemma sorted_after (pre post : list event) e p s k :
  StronglySorted le (omap stage_of (pre ++ e :: post)) ->
  stage_of e = Some s -> p ∈ post -> stage_of p = Some k -> s <= k.
Proof.
  intros Hsorted He Hp Hk.
  rewrite omap_app in Hsorted. apply StronglySorted_app_1_r in Hsorted.
  cbn in Hsorted. rewrite He in Hsorted.
  apply StronglySorted_cons in Hsorted as [Hall _].
  rewrite Forall_forall in Hall. apply Hall.
  apply list_elem_of_omap. eauto.
Qed.

(** A run either stays clear of the cluster (the scan failed, or the user
    declined), or it is a sequence of the six stages between quiet events. *)
Lemma Run_cases o w :
  (Forall quiet (events (Run o w)) /\
   (outcome (Run o w) = Ret None \/ exists code, outcome (Run o w) = Exited code) /\
   cluster (final (Run o w)) = cluster w)
  \/
  (exists pre r evs post,
     chain (DryRun o) (Namespace o) teardown_stages r evs /\
     outcome (Run o w) = Ret r /\
     events (Run o w) = pre ++ evs ++ post /\
     Forall quiet pre /\ Forall quiet post /\ (r <> None -> post = [])).
Proof.
  pose proof (Run_shape o w) as Hshape.
  pose proof (confirm_quiet (stdin w)) as Hq.
  destruct (confirm (stdin w)) as [[[[|]|code] rest] cevs]; simpl in Hq.
  - right. destruct Hshape as (r & evs & post & Hc & Hr & He & Hp & Hn).
    exists (Println "removes Karmada from Kubernetes" :: cevs), r, evs, post.
    repeat split; try assumption. constructor; [split; reflexivity | exact Hq].
  - left. rewrite Hshape. unfold events, outcome, final. simpl.
    rewrite app_nil_r. repeat split; eauto.
    constructor; [split; reflexivity | exact Hq].
  - left. rewrite Hshape. unfold events, outcome, final. simpl.
    repeat split; eauto. constructor; [split; reflexivity | exact Hq].
Qed.

End RunFacts.

(** ** The teardown sequence *)

Section Teardown.
Context {Cluster : Type} `{KubeClient Cluster}.
Context {ClientSet : Type}.
Implicit Types (o : CommandDeInitOption ClientSet) (w : World Cluster).

(** A client call that answers with an error is the last event of the run,
    and the run returns that error. *)
Lemma Run_fail_fast o w pre e post err :
  events (Run o w) = pre ++ e :: post ->
  failed e = Some err ->
  post = [] /\ outcome (Run o w) = Ret (Some err).
Proof.
  intros Hevs Hf.
  destruct (Run_cases o w) as [(Hq & _)|(pre0 & r & evs & post0 & Hc & Hr & He & Hpre & Hpost & Hn)].
  - apply quiet_unfailing in Hq. unfold unfailing in Hq.
    rewrite Forall_forall in Hq.
    assert (e ∈ events (Run o w)) as Hin
      by (rewrite Hevs; apply elem_of_app; right; left).
    rewrite (Hq _ Hin) in Hf. discriminate.
  - pose proof (chain_fail_fast _ _ _ _ _ Hc) as Hff.
    apply quiet_unfailing in Hpre. apply quiet_unfailing in Hpost.
    destruct r as [err0|]; simpl in Hff.
    + destruct Hff as (p1 & e0 & -> & Hf0 & Hu).
      rewrite (Hn ltac:(discriminate)) in He. rewrite app_nil_r, app_assoc in He.
      rewrite He in Hevs. symmetry in Hevs.
      assert (unfailing (pre0 ++ p1)) as Hu' by (apply Forall_app; auto).
      destruct (last_failure _ _ _ _ _ _ Hu' Hevs Hf) as [-> ->].
      split; [reflexivity|]. rewrite Hr. congruence.
    + assert (unfailing (events (Run o w))) as Hall
        by (rewrite He; repeat (apply Forall_app; split); assumption).
      unfold unfailing in Hall. rewrite Forall_forall in Hall.
      assert (e ∈ events (Run o w)) as Hin
        by (rewrite Hevs; apply elem_of_app; right; left).
      rewrite (Hall _ Hin) in Hf. discriminate.
Qed.

Lemma Run_sorted o w : StronglySorted le (omap stage_of (events (Run o w))).
Proof.
  destruct (Run_cases o w) as [(Hq & _)|(pre0 & r & evs & post0 & Hc & Hr & He & Hpre & Hpost & Hn)].
  - rewrite (quiet_stages _ Hq). constructor.
  - rewrite He, !omap_app, (quiet_stages _ Hpre), (quiet_stages _ Hpost), app_nil_r.
    simpl. eapply chain_sorted; [apply teardown_stages_sorted | exact Hc].
Qed.

Lemma earlier_stage_before (pre post : list event) e p s k :
  StronglySorted le (omap stage_of (pre ++ e :: post)) ->
  stage_of e = Some s -> stage_of p = Some k -> k < s ->
  p ∈ pre ++ e :: post -> p ∈ pre.
Proof.
  intros Hsorted He Hp Hlt Hin.
  apply elem_of_app in Hin as [Hin|Hin]; [exact Hin|].
  apply elem_of_cons in Hin as [->|Hin].
  - rewrite He in Hp. inversion Hp. lia.
  - pose proof (sorted_after _ _ _ _ _ _ Hsorted He Hin Hp). lia.
Qed.

(** A confirmed run that returns nil has discovered all six stages. *)
Lemma Run_discovers_all o w :
  outcome (deleteConfirmation w) = Ret true ->
  outcome (Run o w) = Ret None ->
  discoveries (events (Run o w)) = [0; 1; 2; 3; 4; 5].
Proof.
  intros Hyes Hok. pose proof (Run_shape o w) as Hshape.
  pose proof (confirm_quiet (stdin w)) as Hq.
  unfold deleteConfirmation, outcome in Hyes.
  destruct (confirm (stdin w)) as [[[[|]|code] rest] cevs]; simpl in Hyes, Hq;
    try discriminate.
  destruct Hshape as (r & evs & post & Hc & Hr & He & Hpost & _).
  rewrite Hok in Hr. injection Hr as <-. rewrite He.
  assert (Forall quiet (Println "removes Karmada from Kubernetes" :: cevs))
    as Hpre by (constructor; [split; reflexivity | exact Hq]).
  unfold discoveries. rewrite !omap_app.
  fold (discoveries (Println "removes Karmada from Kubernetes" :: cevs))
       (discoveries evs) (discoveries post).
  rewrite (quiet_discoveries _ Hpre), (quiet_discoveries _ Hpost), app_nil_r.
  simpl. apply (chain_discoveries _ _ _ _ _ Hc). reflexivity.
Qed.

(** C1 (amended): outside dry-run, a delete call that answers with an error,
    "not found" like any other, ends the teardown: nothing follows it in the
    trace, no remaining resource and no later stage is attempted, and the
    run returns that error. *)
Theorem delete_error_aborts o w pre k ns name err post :
  events (Run o w) = pre ++ DeleteCall k ns name (Some err) :: post ->
  post = [] /\ outcome (Run o w) = Ret (Some err).
Proof.
  intros Hevs. eapply Run_fail_fast; [exact Hevs | reflexivity].
Qed.

(** C2: the stages run in the order Deployments, StatefulSets, Services,
    Secrets, ClusterRoles, nodes: the stages of the events of a run never
    decrease, the discovery calls are an initial part of that order, and all
    six of them when a confirmed run returns nil; a call that fails is the
    last event and its error is returned; and before any event of a later
    stage, every item listed by an earlier stage has been processed (noticed,
    and deleted outside dry-run). *)
Theorem Run_stages_in_order o w :
  StronglySorted le (omap stage_of (events (Run o w))) /\
  discoveries (events (Run o w)) `prefix_of` [0; 1; 2; 3; 4; 5] /\
  (outcome (deleteConfirmation w) = Ret true ->
   outcome (Run o w) = Ret None ->
   discoveries (events (Run o w)) = [0; 1; 2; 3; 4; 5]) /\
  (forall pre e post err,
     events (Run o w) = pre ++ e :: post -> failed e = Some err ->
     post = [] /\ outcome (Run o w) = Ret (Some err)) /\
  (forall pre e post s k ns selector items item,
     events (Run o w) = pre ++ e :: post -> stage_of e = Some s ->
     ListCall k ns selector (inr items) ∈ pre -> kind_stage k < s ->
     item ∈ items -> processed (DryRun o) k ns item pre).
Proof.
  split; [apply Run_sorted|]. split; [|split; [apply Run_discovers_all|split]].
  - destruct (Run_cases o w) as [(Hq & _)|(pre0 & r & evs & post0 & Hc & Hr & He & Hpre & Hpost & Hn)].
    + rewrite (quiet_discoveries _ Hq). apply prefix_nil.
    + rewrite He. unfold discoveries. rewrite !omap_app.
      fold (discoveries pre0) (discoveries evs) (discoveries post0).
      rewrite (quiet_discoveries _ Hpre), (quiet_discoveries _ Hpost), app_nil_r.
      apply (chain_discoveries _ _ _ _ _ Hc).
  - intros pre e post err. apply Run_fail_fast.
  - intros pre e post s k ns selector items item Hevs Hs Hlist Hlt Hitem.
    pose proof (Run_sorted o w) as Hsorted. rewrite Hevs in Hsorted.
    assert (e ∈ events (Run o w)) as Hein
      by (rewrite Hevs; apply elem_of_app; right; left).
    assert (ListCall k ns selector (inr items) ∈ events (Run o w)) as Hlin
      by (rewrite Hevs; apply elem_of_app; by left).
    destruct (Run_cases o w) as [(Hq & _)|(pre0 & r & evs & post0 & Hc & Hr & He & Hpre & Hpost & Hn)].
    + rewrite Forall_forall in Hq. destruct (staged_not_quiet _ _ Hs (Hq _ Hein)).
    + rewrite He in Hein, Hlin.
      apply (staged_elem_middle _ _ _ _ _ Hpre Hpost Hs) in Hein.
      apply (staged_elem_middle pre0 evs post0 (ListCall k ns selector (inr items))
               (kind_stage k) Hpre Hpost eq_refl) in Hlin.
      destruct (chain_processed _ _ _ _ _ _ _ _ _ _ _ teardown_stages_sorted
                  Hc Hlin Hein Hs Hlt item Hitem) as [Hn1 Hd1].
      assert (forall p, p ∈ evs -> p ∈ pre ++ e :: post) as Hsub.
      { intros p Hp. rewrite <- Hevs, He.
        apply elem_of_app. right. apply elem_of_app. by left. }
      split.
      * eapply earlier_stage_before; [exact Hsorted | exact Hs | | exact Hlt | auto].
        simpl. apply notice_stage.
      * intros Hdry.
        eapply earlier_stage_before; [exact Hsorted | exact Hs | | exact Hlt | auto].
        reflexivity.
Qed.

Lemma deleteItems_dry_eq k ns format (items : list Object) w :
  deleteItems true k ns format items w
  = (Ret None, w, map (fun item => Printf format [Name item]) items).
Proof.
  induction items as [|item rest IH]; [reflexivity|].
  cbn [deleteItems map]. unfold bind, fmt_Printf, emit. rewrite IH. reflexivity.
Qed.

Lemma updateNodes_dry_eq (nodes : list Object) w :
  updateNodes true nodes w = (Ret None, w, spec_node_notices nodes).
Proof.
  induction nodes as [|node rest IH]; [reflexivity|].
  cbn [updateNodes]. unfold bind, fmt_Printf, emit. rewrite IH. reflexivity.
Qed.

Ltac flatten_trace :=
  cbn; rewrite ?app_nil_r; repeat (rewrite <- app_assoc; cbn [app]);
  rewrite ?app_nil_r.

(** Under dry-run the stages of [Run] do what the specification says of a
    dry-run, call for call and notice for notice. *)
Lemma dry_teardown_eq o (line : string) (c : Cluster)
    (input : list (string + error)) :
  DryRun o = true ->
  (check! delete o ;; check! removeNodeLabels o ;; fmt_Println line ;; ret None)
    (mkWorld c input)
  = match spec_dry_run (Namespace o) c with
    | (r, c', evs) =>
        (Ret r, mkWorld c' input,
         evs ++ match r with None => [Println line] | Some _ => [] end)
    end.
Proof.
  intros Hdry.
  unfold delete, deleteWorkload, removeNodeLabels, spec_dry_run.
  rewrite Hdry. cbn [spec_dry_kinds kind_namespace].
  unfold check, try, bind, List_, Nodes_List, call, fmt_Println, fmt_Printf,
    emit, ret, spec_dry_nodes, spec_notices.
  cbn [cluster stdin].
  repeat (match goal with
          | |- context [list_objects ?k ?ns ?s ?c0] =>
              destruct (list_objects k ns s c0) as [[?err|?items] ?c]
          end;
          cbn [cluster stdin];
          [solve [flatten_trace; reflexivity]|];
          rewrite deleteItems_dry_eq; cbn [cluster stdin]).
  destruct (nodes_list karmadaNodeLabel _) as [[err|[|node nodes]] cn];
    cbn [cluster stdin length Nat.eqb].
  - flatten_trace. reflexivity.
  - flatten_trace. reflexivity.
  - rewrite updateNodes_dry_eq. flatten_trace. reflexivity.
Qed.

(** C3: under dry-run no delete call and no node update is issued, and for
    every listing the notices printed for that kind name exactly the listed
    objects, one each and in order; likewise for the listed nodes.  And the
    listings are made: once the user has confirmed, a dry-run is the dry-run
    of the specification, which discovers every kind in order and then the
    nodes, names every object matched, and stops only at a discovery that
    fails: same result, same events after the dialogue, same cluster. *)
Theorem dry_run_purity o w :
  DryRun o = true ->
  Forall (fun e => is_mutation e = false) (events (Run o w)) /\
  (forall k ns selector items,
     ListCall k ns selector (inr items) ∈ events (Run o w) ->
     notices_of k (events (Run o w)) = map Name items) /\
  (forall selector nodes,
     NodesList selector (inr nodes) ∈ events (Run o w) ->
     node_notices (events (Run o w)) = map Name nodes) /\
  (outcome (deleteConfirmation w) = Ret true ->
   match spec_dry_run (Namespace o) (cluster w) with
   | (r, c, evs) =>
       outcome (Run o w) = Ret r /\
       cluster (final (Run o w)) = c /\
       events (Run o w)
       = Println "removes Karmada from Kubernetes"
         :: events (deleteConfirmation w) ++ evs
            ++ match r with None => [success_message] | Some _ => [] end
   end).
Proof.
  intros Hdry.
  assert (Forall (fun e => is_mutation e = false) (events (Run o w)) /\
          (forall k ns selector items,
             ListCall k ns selector (inr items) ∈ events (Run o w) ->
             notices_of k (events (Run o w)) = map Name items) /\
          (forall selector nodes,
             NodesList selector (inr nodes) ∈ events (Run o w) ->
             node_notices (events (Run o w)) = map Name nodes))
    as (Hpure & Hnotices & Hnodes).
  { destruct (Run_cases o w) as [(Hq & _)|(pre0 & r & evs & post0 & Hc & Hr & He & Hpre & Hpost & Hn)].
    - split; [|split].
      + eapply Forall_impl; [exact Hq|]. intros e He. apply (quiet_no_call e He).
      + intros k ns selector items Hin. rewrite Forall_forall in Hq.
        destruct (staged_not_quiet (ListCall k ns selector (inr items)) (kind_stage k)
                    eq_refl (Hq _ Hin)).
      + intros selector nodes Hin. rewrite Forall_forall in Hq.
        destruct (staged_not_quiet (NodesList selector (inr nodes)) node_stage
                    eq_refl (Hq _ Hin)).
    - rewrite He. split; [|split].
      + repeat (apply Forall_app; split).
        * eapply Forall_impl; [exact Hpre|]. intros e Hq. apply (quiet_no_call e Hq).
        * apply (chain_dry_no_mutation _ _ _ _ _ Hdry Hc).
        * eapply Forall_impl; [exact Hpost|]. intros e Hq. apply (quiet_no_call e Hq).
      + intros k ns selector items Hin.
        apply (staged_elem_middle pre0 evs post0 (ListCall k ns selector (inr items))
                 (kind_stage k) Hpre Hpost eq_refl) in Hin.
        unfold notices_of. rewrite !omap_app.
        fold (notices_of k pre0) (notices_of k evs) (notices_of k post0).
        rewrite (quiet_notices k _ Hpre), (quiet_notices k _ Hpost), app_nil_r.
        apply (chain_dry_notices _ _ _ _ _ _ _ _ _ teardown_stages_sorted Hdry Hc Hin).
      + intros selector nodes Hin.
        apply (staged_elem_middle pre0 evs post0 (NodesList selector (inr nodes))
                 node_stage Hpre Hpost eq_refl) in Hin.
        unfold node_notices. rewrite !omap_app.
        fold (node_notices pre0) (node_notices evs) (node_notices post0).
        rewrite (quiet_node_notices _ Hpre), (quiet_node_notices _ Hpost), app_nil_r.
        apply (chain_dry_node_notices _ _ _ _ _ _ _ teardown_stages_sorted Hdry Hc Hin).
  }
  split; [exact Hpure|]. split; [exact Hnotices|]. split; [exact Hnodes|].
  intros Hyes. rewrite Run_eq.
  unfold deleteConfirmation, outcome, events, final in Hyes |- *.
  destruct (confirm (stdin w)) as [[[[|]|code] rest] cevs]; simpl in Hyes;
    try discriminate.
  unfold success_message. rewrite (dry_teardown_eq o _ (cluster w) rest Hdry).
  destruct (spec_dry_run (Namespace o) (cluster w)) as [[r c] evs].
  simpl. repeat split.
Qed.

End Teardown.

(** ** Node labels *)

Section NodeLabels.
Context {Cluster : Type} `{KubeClient Cluster}.
Context {ClientSet : Type}.
Implicit Types (o : CommandDeInitOption ClientSet) (w : World Cluster).

(** C4 (amended): after a teardown that succeeded outside dry-run, every node
    that the discovery by the selector "karmada.io/etcd" returned has been
    sent to the update call with every label key containing that substring
    removed, and no other node has been updated. *)
Theorem discovered_nodes_stripped o w :
  DryRun o = false ->
  outcome (Run o w) = Ret None ->
  (forall selector nodes node,
     NodesList selector (inr nodes) ∈ events (Run o w) -> node ∈ nodes ->
     NodesUpdate (removeLabels node karmadaNodeLabel) None ∈ events (Run o w) /\
     forall key, Strings.Contains key karmadaNodeLabel = true ->
                 Labels (removeLabels node karmadaNodeLabel) !! key = None) /\
  (forall node res,
     NodesUpdate node res ∈ events (Run o w) ->
     exists nodes listed,
       NodesList karmadaNodeLabel (inr nodes) ∈ events (Run o w) /\
       listed ∈ nodes /\ node = removeLabels listed karmadaNodeLabel).
Proof.
  intros Hdry Hok.
  destruct (Run_cases o w) as [(Hq & _)|(pre0 & r & evs & post0 & Hc & Hr & He & Hpre & Hpost & Hn)].
  - rewrite Forall_forall in Hq. split.
    + intros selector nodes node Hin.
      destruct (staged_not_quiet (NodesList selector (inr nodes)) node_stage
                  eq_refl (Hq _ Hin)).
    + intros node res Hin.
      destruct (staged_not_quiet (NodesUpdate node res) node_stage
                  eq_refl (Hq _ Hin)).
  - rewrite Hok in Hr. injection Hr as <-. rewrite He. split.
    + intros selector nodes node Hin Hnode.
      apply (staged_elem_middle pre0 evs post0 (NodesList selector (inr nodes))
               node_stage Hpre Hpost eq_refl) in Hin.
      destruct (chain_node_updates _ _ _ _ _ _ Hc Hin node Hnode) as [_ Hu].
      split.
      * apply elem_of_app. right. apply elem_of_app. left. auto.
      * intros key Hkey. rewrite removeLabels_lookup, Hkey. reflexivity.
    + intros node res Hin.
      apply (staged_elem_middle pre0 evs post0 (NodesUpdate node res)
               node_stage Hpre Hpost eq_refl) in Hin.
      destruct (chain_updates_only _ _ _ _ _ _ _ Hc Hin) as (nodes & l & H1 & H2 & H3).
      exists nodes, l. split; [|auto].
      apply elem_of_app. right. apply elem_of_app. by left.
Qed.

Lemma removeNodeLabels_eq o w :
  removeNodeLabels o w
  = match nodes_list karmadaNodeLabel (cluster w) with
    | (inl err, c) =>
        (Ret (Some err), mkWorld c (stdin w),
         [NodesList karmadaNodeLabel (inl err)])
    | (inr nodes, c) =>
        if (length nodes =? 0)%nat then
          (Ret None, mkWorld c (stdin w),
           [NodesList karmadaNodeLabel (inr nodes);
            Printf "node not found by label %q\n" [karmadaNodeLabel]])
        else
          match updateNodes (DryRun o) nodes (mkWorld c (stdin w)) with
          | (r, w', evs) =>
              (r, w', NodesList karmadaNodeLabel (inr nodes) :: evs)
          end
    end.
Proof.
  unfold removeNodeLabels, try, bind, Nodes_List, call.
  destruct (nodes_list karmadaNodeLabel (cluster w)) as [[err|nodes] c];
    [reflexivity|].
  destruct (length nodes =? 0)%nat; [reflexivity|].
  destruct (updateNodes (DryRun o) nodes _) as [[r w'] evs]. reflexivity.
Qed.

(** The node loop outside dry-run, exactly: every node noticed and updated
    with its marker labels removed, in order, up to an update that fails. *)
Lemma node_loop_exact (dryRun : bool) (nodes : list Object) r evs :
  dryRun = false ->
  node_loop_run dryRun nodes r evs ->
  (r = None /\ evs = strip_updates nodes) \/
  (exists done node rest err,
     nodes = done ++ node :: rest /\ r = Some err /\
     evs = strip_updates done
           ++ [Printf "remove node %q labels %q\n" [Name node; karmadaNodeLabel];
               NodesUpdate (removeLabels node karmadaNodeLabel) (Some err)]).
Proof.
  intros Hd.
  induction 1 as [|node rest r evs Hdry Hl IH|node rest r evs Hdry Hl IH
                 |node rest err Hdry].
  - left. split; reflexivity.
  - congruence.
  - destruct IH as [[-> ->]|(done & n & rest' & err & -> & -> & ->)].
    + left. split; reflexivity.
    + right. exists (node :: done), n, rest', err. repeat split.
  - right. exists [], node, rest, err. repeat split.
Qed.

Lemma updateNodes_step (node : Object) (rest : list Object) w :
  updateNodes false (node :: rest) w
  = match nodes_update (removeLabels node karmadaNodeLabel) (cluster w) with
    | (Some err, c) =>
        (Ret (Some err), mkWorld c (stdin w),
         [Printf "remove node %q labels %q\n" [Name node; karmadaNodeLabel];
          NodesUpdate (removeLabels node karmadaNodeLabel) (Some err)])
    | (None, c) =>
        match updateNodes false rest (mkWorld c (stdin w)) with
        | (r, w', evs) =>
            (r, w',
             Printf "remove node %q labels %q\n" [Name node; karmadaNodeLabel]
             :: NodesUpdate (removeLabels node karmadaNodeLabel) None :: evs)
        end
    end.
Proof.
  cbn [updateNodes]. unfold bind at 1, fmt_Printf, emit, check, bind at 1,
    Nodes_Update, call.
  destruct (nodes_update (removeLabels node karmadaNodeLabel) (cluster w))
    as [[err|] c]; [reflexivity|].
  destruct (updateNodes false rest (mkWorld c (stdin w))) as [[r w'] evs].
  reflexivity.
Qed.

(** The cluster after a node loop in which every update succeeded: the
    updates of the stripped nodes, applied in order. *)
Lemma updateNodes_cluster (nodes : list Object) w :
  outcome (updateNodes false nodes w) = Ret None ->
  cluster (final (updateNodes false nodes w))
  = fold_left
      (fun c node => snd (nodes_update (removeLabels node karmadaNodeLabel) c))
      nodes (cluster w).
Proof.
  revert w. induction nodes as [|node rest IH]; intros w; [reflexivity|].
  rewrite updateNodes_step. cbn [fold_left].
  destruct (nodes_update (removeLabels node karmadaNodeLabel) (cluster w))
    as [[err|] c]; cbn [snd].
  - unfold outcome. simpl. discriminate.
  - specialize (IH (mkWorld c (stdin w))). unfold outcome, final in *.
    destruct (updateNodes false rest (mkWorld c (stdin w))) as [[r w'] evs].
    simpl in *. exact IH.
Qed.

(** C6: the label strip removes exactly the keys that contain the marker:
    the node labelled karmada.io/etcd and other.io/x keeps other.io/x alone;
    in general a key stays bound, to its value, exactly when it does not
    contain the marker; a node without such a key is unchanged; and when the
    discovery returns no node the pass prints its message and returns nil.
    The pass does this to each discovered node: outside dry-run, when the
    discovery returns nodes, the pass notices and updates every one of them
    in order, each with its marker labels removed, and returns nil, or stops
    at the first update that fails and returns its error; when it returns
    nil the cluster has received exactly those updates. *)
Theorem node_label_strip :
  (forall name,
     Labels (removeLabels
               {| Name := name;
                  Labels := {[ "karmada.io/etcd" := ""; "other.io/x" := "1" ]} |}
               karmadaNodeLabel)
     = {[ "other.io/x" := "1" ]}) /\
  (forall node key,
     Labels (removeLabels node karmadaNodeLabel) !! key
     = if Strings.Contains key karmadaNodeLabel then None
       else Labels node !! key) /\
  (forall node,
     (forall key, is_Some (Labels node !! key) ->
                  Strings.Contains key karmadaNodeLabel = false) ->
     removeLabels node karmadaNodeLabel = node) /\
  (forall o w c,
     nodes_list karmadaNodeLabel (cluster w) = (inr [], c) ->
     removeNodeLabels o w
     = (Ret None, mkWorld c (stdin w),
        [NodesList karmadaNodeLabel (inr []);
         Printf "node not found by label %q\n" [karmadaNodeLabel]])) /\
  (forall o w nodes c,
     nodes_list karmadaNodeLabel (cluster w) = (inr nodes, c) ->
     nodes <> [] ->
     DryRun o = false ->
     (outcome (removeNodeLabels o w) = Ret None /\
      events (removeNodeLabels o w)
      = NodesList karmadaNodeLabel (inr nodes) :: strip_updates nodes /\
      cluster (final (removeNodeLabels o w))
      = fold_left
          (fun c' node =>
             snd (nodes_update (removeLabels node karmadaNodeLabel) c'))
          nodes c) \/
     (exists done node rest err,
        nodes = done ++ node :: rest /\
        outcome (removeNodeLabels o w) = Ret (Some err) /\
        events (removeNodeLabels o w)
        = NodesList karmadaNodeLabel (inr nodes)
          :: strip_updates done
             ++ [Printf "remove node %q labels %q\n"
                   [Name node; karmadaNodeLabel];
                 NodesUpdate (removeLabels node karmadaNodeLabel) (Some err)])).
Proof.
  split; [|split; [|split; [|split]]].
  - intros name. unfold removeLabels. cbn [Labels]. vm_compute. reflexivity.
  - intros node key. apply removeLabels_lookup.
  - intros node. apply removeLabels_unchanged.
  - intros o w c Hlist.
    unfold removeNodeLabels, try, bind, Nodes_List, call. rewrite Hlist.
    reflexivity.
  - intros o w nodes c Hlist Hne Hdry.
    rewrite removeNodeLabels_eq, Hlist, Hdry.
    destruct nodes as [|node nodes]; [congruence|].
    change (length (node :: nodes) =? 0)%nat with false. cbv iota.
    destruct (updateNodes_runs false (node :: nodes) (mkWorld c (stdin w)))
      as (r & Hr & Hloop).
    pose proof (updateNodes_cluster (node :: nodes) (mkWorld c (stdin w)))
      as Hcluster.
    unfold outcome, events, final in *.
    destruct (updateNodes false (node :: nodes) (mkWorld c (stdin w)))
      as [[r' w'] evs]. simpl in *. subst r'.
    destruct (node_loop_exact false _ _ _ eq_refl Hloop)
      as [[-> ->]|(done & n & rest & err & Hsplit & -> & ->)].
    + left. split; [reflexivity|]. split; [reflexivity|].
      apply Hcluster. reflexivity.
    + right. exists done, n, rest, err. split; [exact Hsplit|].
      split; reflexivity.
Qed.

End NodeLabels.

(** ** Confirmation *)

Section Confirmation.
Context {Cluster : Type} `{KubeClient Cluster}.
Context {ClientSet : Type}.
Implicit Types (o : CommandDeInitOption ClientSet) (w : World Cluster).

Lemma quiet_calls l :
  Forall quiet l ->
  Forall (fun e => is_discovery e = false /\ is_mutation e = false) l.
Proof.
  intros Hq. eapply Forall_impl; [exact Hq|]. intros e. apply quiet_no_call.
Qed.

(** C5: when the user answers no, [Run] returns nil, no discovery call and
    no delete or update call is issued, and the cluster is as it was. *)
Theorem decline_short_circuit o w :
  outcome (deleteConfirmation w) = Ret false ->
  outcome (Run o w) = Ret None /\
  Forall (fun e => is_discovery e = false /\ is_mutation e = false)
         (events (Run o w)) /\
  cluster (final (Run o w)) = cluster w.
Proof.
  intros Hno. pose proof (confirm_quiet (stdin w)) as Hq.
  rewrite Run_eq. unfold deleteConfirmation, outcome in Hno.
  destruct (confirm (stdin w)) as [[[[|]|code] rest] cevs]; simpl in Hno;
    try discriminate.
  unfold outcome, events, final. simpl. rewrite app_nil_r.
  split; [reflexivity|]. split; [|reflexivity].
  apply quiet_calls. constructor; [split; reflexivity | exact Hq].
Qed.

Ltac split_token :=
  match goal with
  | |- context [String.eqb ?x ?t] =>
      is_var x; let E := fresh "E" in
      destruct (String.eqb x t) eqn:E;
      [apply String.eqb_eq in E; subst x; simpl|]
  end.

(** C8 (amended): an answer that the scan reads as one word and that is a
    casing of y or yes yields true, a casing of n or no yields false, and any
    other word makes [deleteConfirmation] prompt and scan again: its result
    is that of the call on the input that follows, after the events of this
    round.  When the scan itself fails, [deleteConfirmation] does not prompt
    again: it prints the error and the process exits with status 1, leaving
    the input that follows unread. *)
Theorem confirmation_tokens w :
  match next_scan (stdin w) with
  | inl response =>
      let rest := tail (stdin w) in
      let round := [prompt; ScanlnCall (inl response)] in
      (Strings.casing_of "y" response || Strings.casing_of "yes" response = true ->
       deleteConfirmation w = (Ret true, mkWorld (cluster w) rest, round)) /\
      (Strings.casing_of "n" response || Strings.casing_of "no" response = true ->
       deleteConfirmation w = (Ret false, mkWorld (cluster w) rest, round)) /\
      (Strings.casing_of "y" response || Strings.casing_of "yes" response
       || Strings.casing_of "n" response || Strings.casing_of "no" response = false ->
       deleteConfirmation w
       = (outcome (deleteConfirmation (mkWorld (cluster w) rest)),
          final (deleteConfirmation (mkWorld (cluster w) rest)),
          round ++ events (deleteConfirmation (mkWorld (cluster w) rest))))
  | inr err =>
      deleteConfirmation w
      = (Exited 1, mkWorld (cluster w) (tail (stdin w)),
         [prompt; ScanlnCall (inr err); PrintlnError err])
  end.
Proof.
  unfold deleteConfirmation.
  destruct (stdin w) as [|[response|err] rest]; cbn [next_scan tail];
    [reflexivity| |reflexivity].
  simpl stdin. cbn [confirm]. fold prompt.
  rewrite (StringFacts.casing_of_ToLower "y" eq_refl),
    (StringFacts.casing_of_ToLower "yes" eq_refl),
    (StringFacts.casing_of_ToLower "n" eq_refl),
    (StringFacts.casing_of_ToLower "no" eq_refl).
  generalize (Strings.ToLower response). intros lower.
  repeat split_token; simpl; repeat split; intros;
    try discriminate; try reflexivity.
  unfold outcome, final, events.
  destruct (confirm rest) as [[r rest'] evs]. reflexivity.
Qed.


End Confirmation.

(** ** Complete and the command *)

Section Completion.
Context {Cluster : Type} `{KubeClient Cluster}.
Context {RestCfg ClientSet : Type}.
Variable env : Env RestCfg ClientSet.
Implicit Types (o : CommandDeInitOption ClientSet) (w : World Cluster).

(** [Complete], case by case on what the environment and the cluster
    answer. *)
Lemma Complete_cases o w :
  let path := kubeconfig_path env o in
  if negb (Exists env path) then
    exists o', Complete env o w = (Ret (o', Some ErrEmptyConfig), w, [])
  else
    match RestConfig env (KubeContext o) path with
    | inl err => exists o', Complete env o w = (Ret (o', Some err), w, [])
    | inr cfg =>
        match NewClientSet env cfg with
        | (cs, Some err) =>
            exists o', Complete env o w = (Ret (o', Some err), w, [])
        | (cs, None) =>
            match namespaces_get (Namespace o) (cluster w) with
            | (res, c) =>
                exists o',
                  Complete env o w
                  = (Ret (o', res), mkWorld c (stdin w),
                     [NamespacesGet (Namespace o) res])
            end
        end
    end.
Proof.
  unfold kubeconfig_path, Complete.
  destruct (KubeConfig o =? "")%string; cbn [KubeConfig set_KubeConfig
    KubeContext Namespace set_KubeClientSet];
    (destruct (negb (Exists env _)); [eauto|]);
    (destruct (RestConfig env _ _) as [err|cfg]; [eauto|]);
    (destruct (NewClientSet env cfg) as [cs [err|]]; [eauto|]);
    unfold bind, Namespaces_Get, call; cbn [Namespace];
    destruct (namespaces_get _ _) as [[err|] c]; eauto.
Qed.

Lemma Complete_no_call o w :
  Forall (fun e => is_discovery e = false /\ is_mutation e = false)
         (events (Complete env o w)) /\
  stdin (final (Complete env o w)) = stdin w.
Proof.
  pose proof (Complete_cases o w) as Hc. cbv zeta in Hc.
  destruct (negb _); [destruct Hc as [o' ->]; split; [constructor | reflexivity]|].
  destruct (RestConfig _ _ _);
    [destruct Hc as [o' ->]; split; [constructor | reflexivity]|].
  destruct (NewClientSet _ _) as [cs [err|]];
    [destruct Hc as [o' ->]; split; [constructor | reflexivity]|].
  destruct (namespaces_get _ _) as [res c]. destruct Hc as [o' ->].
  split; [repeat constructor | reflexivity].
Qed.

(** C7: when [Complete] fails, [RunE] returns its error and [Run] is not
    invoked: the events of the command are those of [Complete], which hold no
    discovery, delete or update call, and standard input is not read.
    [Complete] fails with the empty-config error when the kubeconfig file
    does not exist, with the error of [utils.RestConfig] or of
    [utils.NewClientSet] when the configuration cannot be used, and with the
    error of the namespace lookup when that fails. *)
Theorem Complete_failure_prevents_Run o w :
  let path := kubeconfig_path env o in
  (forall o' err,
     outcome (Complete env o w) = Ret (o', Some err) ->
     RunE env o w
     = (Ret (Some err), final (Complete env o w), events (Complete env o w)) /\
     Forall (fun e => is_discovery e = false /\ is_mutation e = false)
            (events (RunE env o w)) /\
     stdin (final (RunE env o w)) = stdin w) /\
  (Exists env path = false ->
   exists o', Complete env o w = (Ret (o', Some ErrEmptyConfig), w, [])) /\
  (forall err,
     Exists env path = true ->
     RestConfig env (KubeContext o) path = inl err ->
     exists o', Complete env o w = (Ret (o', Some err), w, [])) /\
  (forall cfg cs err,
     Exists env path = true ->
     RestConfig env (KubeContext o) path = inr cfg ->
     NewClientSet env cfg = (cs, Some err) ->
     exists o', Complete env o w = (Ret (o', Some err), w, [])) /\
  (forall cfg cs err c,
     Exists env path = true ->
     RestConfig env (KubeContext o) path = inr cfg ->
     NewClientSet env cfg = (cs, None) ->
     namespaces_get (Namespace o) (cluster w) = (Some err, c) ->
     exists o',
       Complete env o w
       = (Ret (o', Some err), mkWorld c (stdin w),
          [NamespacesGet (Namespace o) (Some err)])).
Proof.
  intros path. pose proof (Complete_cases o w) as Hc. cbv zeta in Hc.
  fold path in Hc. split; [|split; [|split; [|split]]].
  - intros o' err Hfail.
    assert (RunE env o w
            = (Ret (Some err), final (Complete env o w),
               events (Complete env o w))) as Heq.
    { unfold RunE, bind, outcome, final, events in *.
      destruct (Complete env o w) as [[r w1] evs]. simpl in *. subst r.
      simpl. rewrite app_nil_r. reflexivity. }
    split; [exact Heq|]. rewrite Heq. unfold events at 1, final at 1. simpl.
    apply Complete_no_call.
  - intros Hex. rewrite Hex in Hc. exact Hc.
  - intros err Hex Hrest. rewrite Hex, Hrest in Hc. exact Hc.
  - intros cfg cs err Hex Hrest Hnew. rewrite Hex, Hrest, Hnew in Hc. exact Hc.
  - intros cfg cs err c Hex Hrest Hnew Hget.
    rewrite Hex, Hrest, Hnew, Hget in Hc. exact Hc.
Qed.

(** C10: with an empty kubeconfig option, [Complete] proceeds as it does on
    the option set to the join of HOME and .kube/config: that is the path
    whose existence is tested, and when no file is there [Complete] returns
    the empty-config error, with the option holding the default path. *)
Theorem default_kubeconfig o w :
  KubeConfig o = "" ->
  let default := Join env (Getenv env "HOME") ".kube/config" in
  Complete env o w = Complete env (set_KubeConfig o default) w /\
  (Exists env default = false ->
   Complete env o w
   = (Ret (set_KubeConfig o default, Some ErrEmptyConfig), w, [])).
Proof.
  intros Hempty default. unfold Complete. rewrite Hempty.
  change ("" =? "")%string with true. cbv iota. fold default. split.
  - cbn [KubeConfig set_KubeConfig].
    destruct (default =? "")%string; reflexivity.
  - intros Hex. cbn [KubeConfig set_KubeConfig]. rewrite Hex. reflexivity.
Qed.

End Completion.

(** ** The properties on the sample cluster *)

Section Samples.
Import Sample.

Lemma delete_error_aborts_witness :
  events (Run (opts false) (mkWorld racing yes))
  = [Println "removes Karmada from Kubernetes";
     prompt; ScanlnCall (inl "maybe"); prompt; ScanlnCall (inl "YES");
     ListCall Deployment (Some ns) LabelSelector
       (inr [installed "karmada-apiserver"; installed "karmada-scheduler"]);
     Printf "delete deployment %q\n" ["karmada-apiserver"]]
    ++ DeleteCall Deployment (Some ns) "karmada-apiserver"
         (Some (StatusError NotFound
                  "deployments.apps karmada-apiserver not found"))
    :: [] /\
  ([] = @nil event /\
   outcome (Run (opts false) (mkWorld racing yes))
   = Ret (Some (StatusError NotFound
                  "deployments.apps karmada-apiserver not found"))).
Proof.
  assert (events (Run (opts false) (mkWorld racing yes))
          = [Println "removes Karmada from Kubernetes";
             prompt; ScanlnCall (inl "maybe"); prompt; ScanlnCall (inl "YES");
             ListCall Deployment (Some ns) LabelSelector
               (inr [installed "karmada-apiserver"; installed "karmada-scheduler"]);
             Printf "delete deployment %q\n" ["karmada-apiserver"]]
            ++ DeleteCall Deployment (Some ns) "karmada-apiserver"
                 (Some (StatusError NotFound
                          "deployments.apps karmada-apiserver not found"))
            :: []) as Hevs by (vm_compute; reflexivity).
  split; [exact Hevs|].
  exact (delete_error_aborts _ _ _ _ _ _ _ _ Hevs).
Defined.

(** C1, as claimed, fails: the first deployment answers "not found" to its
    delete call; the run returns that error, the second deployment is never
    deleted and no later stage is discovered. *)
Lemma not_found_aborts_teardown :
  let run := Run (opts false) (mkWorld racing yes) in
  let not_found :=
    StatusError NotFound "deployments.apps karmada-apiserver not found" in
  events run
  = [Println "removes Karmada from Kubernetes";
     prompt; ScanlnCall (inl "maybe"); prompt; ScanlnCall (inl "YES");
     ListCall Deployment (Some ns) LabelSelector
       (inr [installed "karmada-apiserver"; installed "karmada-scheduler"]);
     Printf "delete deployment %q\n" ["karmada-apiserver"];
     DeleteCall Deployment (Some ns) "karmada-apiserver" (Some not_found)] /\
  outcome run = Ret (Some not_found) /\
  discoveries (events run) = [0] /\
  fake_objects (cluster (final run)) = objects.
Proof. vm_compute. repeat split. Qed.

Lemma Run_stages_in_order_witness :
  outcome (deleteConfirmation (mkWorld host yes)) = Ret true /\
  outcome (Run (opts false) (mkWorld host yes)) = Ret None /\
  StronglySorted le (omap stage_of (events (Run (opts false) (mkWorld host yes)))) /\
  discoveries (events (Run (opts false) (mkWorld host yes))) = [0; 1; 2; 3; 4; 5].
Proof.
  assert (outcome (Run (opts false) (mkWorld host yes)) = Ret None) as Hok
    by (vm_compute; reflexivity).
  destruct (Run_stages_in_order (opts false) (mkWorld host yes))
    as (Hsorted & _ & Hall & _).
  split; [reflexivity|]. split; [exact Hok|]. split; [exact Hsorted|].
  apply Hall; [reflexivity | exact Hok].
Defined.

Lemma dry_run_purity_witness :
  DryRun (opts true) = true /\
  outcome (deleteConfirmation (mkWorld host yes)) = Ret true /\
  Forall (fun e => is_mutation e = false)
         (events (Run (opts true) (mkWorld host yes))) /\
  outcome (Run (opts true) (mkWorld host yes)) = Ret None /\
  cluster (final (Run (opts true) (mkWorld host yes))) = host /\
  events (Run (opts true) (mkWorld host yes))
  = [Println "removes Karmada from Kubernetes";
     prompt; ScanlnCall (inl "maybe"); prompt; ScanlnCall (inl "YES");
     ListCall Deployment (Some ns) LabelSelector
       (inr [installed "karmada-apiserver"; installed "karmada-scheduler"]);
     Printf "delete deployment %q\n" ["karmada-apiserver"];
     Printf "delete deployment %q\n" ["karmada-scheduler"];
     ListCall StatefulSet (Some ns) LabelSelector (inr [installed "etcd"]);
     Printf "delete StatefulSet: %q\n" ["etcd"];
     ListCall Service (Some ns) LabelSelector (inr [installed "karmada-apiserver"]);
     Printf "delete Service %q\n" ["karmada-apiserver"];
     ListCall Secret (Some ns) LabelSelector (inr [installed "karmada-cert"]);
     Printf "delete Secrets %q\n" ["karmada-cert"];
     ListCall ClusterRole None LabelSelector
       (inr [installed "karmada-controller-manager"]);
     Printf "delete ClusterRole %q\n" ["karmada-controller-manager"];
     NodesList karmadaNodeLabel (inr [etcd_node]);
     Printf "remove node %q labels %q\n" ["node-1"; karmadaNodeLabel];
     success_message].
Proof.
  assert (outcome (deleteConfirmation (mkWorld host yes)) = Ret true) as Hyes
    by reflexivity.
  destruct (dry_run_purity (opts true) (mkWorld host yes) eq_refl)
    as (Hpure & _ & _ & Hexact).
  split; [reflexivity|]. split; [exact Hyes|]. split; [exact Hpure|].
  specialize (Hexact Hyes).
  assert (spec_dry_run (Namespace (opts true)) (cluster (mkWorld host yes))
          = (None, host,
             [ListCall Deployment (Some ns) LabelSelector
                (inr [installed "karmada-apiserver"; installed "karmada-scheduler"]);
              Printf "delete deployment %q\n" ["karmada-apiserver"];
              Printf "delete deployment %q\n" ["karmada-scheduler"];
              ListCall StatefulSet (Some ns) LabelSelector (inr [installed "etcd"]);
              Printf "delete StatefulSet: %q\n" ["etcd"];
              ListCall Service (Some ns) LabelSelector
                (inr [installed "karmada-apiserver"]);
              Printf "delete Service %q\n" ["karmada-apiserver"];
              ListCall Secret (Some ns) LabelSelector (inr [installed "karmada-cert"]);
              Printf "delete Secrets %q\n" ["karmada-cert"];
              ListCall ClusterRole None LabelSelector
                (inr [installed "karmada-controller-manager"]);
              Printf "delete ClusterRole %q\n" ["karmada-controller-manager"];
              NodesList karmadaNodeLabel (inr [etcd_node]);
              Printf "remove node %q labels %q\n" ["node-1"; karmadaNodeLabel]]))
    as Hspec by (vm_compute; reflexivity).
  rewrite Hspec in Hexact. destruct Hexact as (Hout & Hcluster & Hevents).
  split; [exact Hout|]. split; [exact Hcluster|]. exact Hevents.
Defined.

Lemma discovered_nodes_stripped_witness :
  DryRun (opts false) = false /\
  outcome (Run (opts false) (mkWorld host yes)) = Ret None /\
  forall node res,
    NodesUpdate node res ∈ events (Run (opts false) (mkWorld host yes)) ->
    exists nodes listed,
      NodesList karmadaNodeLabel (inr nodes)
        ∈ events (Run (opts false) (mkWorld host yes)) /\
      listed ∈ nodes /\ node = removeLabels listed karmadaNodeLabel.
Proof.
  assert (outcome (Run (opts false) (mkWorld host yes)) = Ret None) as Hok
    by (vm_compute; reflexivity).
  split; [reflexivity|]. split; [exact Hok|].
  apply (discovered_nodes_stripped (opts false) (mkWorld host yes) eq_refl Hok).
Defined.

(** C4, as claimed, fails: the teardown succeeds on the sample cluster, and
    the node that carries only karmada.io/etcd-old, which the selector
    karmada.io/etcd does not match, keeps that label. *)
Lemma variant_marker_survives :
  let run := Run (opts false) (mkWorld host yes) in
  outcome run = Ret None /\
  ~ (forall node key,
       node ∈ fake_nodes (cluster (final run)) ->
       Strings.Contains key karmadaNodeLabel = true ->
       Labels node !! key = None).
Proof.
  split; [vm_compute; reflexivity|].
  intros Hall. specialize (Hall variant_node "karmada.io/etcd-old").
  assert (variant_node ∈ fake_nodes (cluster (final (Run (opts false) (mkWorld host yes)))))
    as Hin.
  { replace (fake_nodes (cluster (final (Run (opts false) (mkWorld host yes)))))
      with [removeLabels etcd_node karmadaNodeLabel; variant_node; plain_node]
      by (vm_compute; reflexivity).
    right. left. }
  specialize (Hall Hin eq_refl). vm_compute in Hall. discriminate.
Qed.

Lemma decline_short_circuit_witness :
  outcome (deleteConfirmation (mkWorld host no)) = Ret false /\
  outcome (Run (opts false) (mkWorld host no)) = Ret None /\
  Forall (fun e => is_discovery e = false /\ is_mutation e = false)
         (events (Run (opts false) (mkWorld host no))) /\
  cluster (final (Run (opts false) (mkWorld host no))) = host.
Proof.
  split; [reflexivity|].
  apply (decline_short_circuit (opts false) (mkWorld host no)). reflexivity.
Defined.

Lemma node_label_strip_witness :
  nodes_list karmadaNodeLabel control_plane_only = (inr [], control_plane_only) /\
  removeNodeLabels (opts false) (mkWorld control_plane_only [])
  = (Ret None, mkWorld control_plane_only [],
     [NodesList karmadaNodeLabel (inr []);
      Printf "node not found by label %q\n" [karmadaNodeLabel]]) /\
  nodes_list karmadaNodeLabel host = (inr [etcd_node], host) /\
  [etcd_node] <> [] /\
  DryRun (opts false) = false /\
  outcome (removeNodeLabels (opts false) (mkWorld host [])) = Ret None /\
  events (removeNodeLabels (opts false) (mkWorld host []))
  = [NodesList karmadaNodeLabel (inr [etcd_node]);
     Printf "remove node %q labels %q\n" ["node-1"; karmadaNodeLabel];
     NodesUpdate (removeLabels etcd_node karmadaNodeLabel) None] /\
  cluster (final (removeNodeLabels (opts false) (mkWorld host [])))
  = snd (nodes_update (removeLabels etcd_node karmadaNodeLabel) host) /\
  fake_nodes (cluster (final (removeNodeLabels (opts false) (mkWorld host []))))
  = [{| Name := "node-1"; Labels := {[ "other.io/x" := "1" ]} |};
     variant_node; plain_node].
Proof.
  assert (nodes_list karmadaNodeLabel control_plane_only
          = (inr [], control_plane_only)) as Hnone by (vm_compute; reflexivity).
  assert (nodes_list karmadaNodeLabel host = (inr [etcd_node], host)) as Hone
    by (vm_compute; reflexivity).
  assert ([etcd_node] <> []) as Hsome by discriminate.
  destruct (node_label_strip (Cluster:=FakeCluster) (ClientSet:=unit))
    as (_ & _ & _ & Hpass & Hstrip).
  split; [exact Hnone|].
  split; [exact (Hpass (opts false) (mkWorld control_plane_only []) _ Hnone)|].
  split; [exact Hone|]. split; [exact Hsome|]. split; [reflexivity|].
  destruct (Hstrip (opts false) (mkWorld host []) [etcd_node] host Hone Hsome eq_refl)
    as [(Hout & Hevents & Hcluster)|(done & node & rest & err & _ & Hout & _)].
  - split; [exact Hout|]. split; [exact Hevents|]. split; [exact Hcluster|].
    rewrite Hcluster. vm_compute. reflexivity.
  - vm_compute in Hout. discriminate.
Defined.

Lemma Complete_failure_prevents_Run_witness :
  Exists (fake_env "/root" []) (kubeconfig_path (fake_env "/root" []) (opts false))
  = false /\
  exists o',
    Complete (fake_env "/root" []) (opts false) (mkWorld host yes)
    = (Ret (o', Some ErrEmptyConfig), mkWorld host yes, []).
Proof.
  split; [reflexivity|].
  destruct (Complete_failure_prevents_Run (fake_env "/root" []) (opts false)
              (mkWorld host yes)) as (_ & Hmissing & _).
  apply Hmissing. reflexivity.
Defined.

Lemma confirmation_tokens_witness :
  typed ["  maybe"; "YES "] = [inl "maybe"; inl "YES"] /\
  typed ["yes please"] = [inr (ScanError "expected newline")] /\
  deleteConfirmation (mkWorld host (typed ["  maybe"; "YES "]))
  = (Ret true, mkWorld host [],
     [prompt; ScanlnCall (inl "maybe"); prompt; ScanlnCall (inl "YES")]) /\
  deleteConfirmation (mkWorld host (typed ["No"]))
  = (Ret false, mkWorld host [], [prompt; ScanlnCall (inl "No")]) /\
  deleteConfirmation (mkWorld host (typed ["yes please"]))
  = (Exited 1, mkWorld host [],
     [prompt; ScanlnCall (inr (ScanError "expected newline"));
      PrintlnError (ScanError "expected newline")]).
Proof.
  split; [reflexivity|]. split; [reflexivity|].
  pose proof (confirmation_tokens (mkWorld host (typed ["  maybe"; "YES "])))
    as (_ & _ & Hagain).
  pose proof (confirmation_tokens (mkWorld host (typed ["YES "])))
    as (Hyes & _ & _).
  pose proof (confirmation_tokens (mkWorld host (typed ["No"])))
    as (_ & Hno & _).
  pose proof (confirmation_tokens (mkWorld host (typed ["yes please"])))
    as Hfail.
  specialize (Hagain eq_refl). specialize (Hyes eq_refl).
  specialize (Hno eq_refl).
  split; [|split; [exact Hno | exact Hfail]].
  rewrite Hagain.
  change (mkWorld (cluster (mkWorld host (typed ["  maybe"; "YES "])))
                  (tail (stdin (mkWorld host (typed ["  maybe"; "YES "])))))
    with (mkWorld host (typed ["YES "])).
  rewrite Hyes. reflexivity.
Defined.

(** C8, as claimed, fails: not every other line is answered by a new prompt.
    An empty line and a line of two words are no casing of a token, yet on
    either the scan fails and the process exits with status 1 after a single
    prompt; the yes typed on the following line, which a new prompt would
    have read, is never scanned. *)
Lemma unscannable_line_exits :
  unrecognised "" = true /\ unrecognised "yes please" = true /\
  deleteConfirmation (mkWorld host (typed [""; "yes"]))
  = (Exited 1, mkWorld host (typed ["yes"]),
     [prompt; ScanlnCall (inr (ScanError "unexpected newline"));
      PrintlnError (ScanError "unexpected newline")]) /\
  deleteConfirmation (mkWorld host (typed ["yes please"; "yes"]))
  = (Exited 1, mkWorld host (typed ["yes"]),
     [prompt; ScanlnCall (inr (ScanError "expected newline"));
      PrintlnError (ScanError "expected newline")]) /\
  outcome (deleteConfirmation (mkWorld host (typed ["yes"]))) = Ret true /\
  ~ (forall line lines,
       unrecognised line = true ->
       outcome (deleteConfirmation (mkWorld host (typed (line :: lines))))
       = outcome (deleteConfirmation (mkWorld host (typed lines)))).
Proof.
  repeat (split; [reflexivity|]).
  intros Hagain. specialize (Hagain "" ["yes"] eq_refl).
  vm_compute in Hagain. discriminate.
Qed.


Lemma default_kubeconfig_witness :
  KubeConfig (opts false) = "" /\
  Exists (fake_env "/root" ["/etc/kubeconfig"]) "/root/.kube/config" = false /\
  Complete (fake_env "/root" ["/etc/kubeconfig"]) (opts false) (mkWorld host yes)
  = (Ret (set_KubeConfig (opts false) "/root/.kube/config", Some ErrEmptyConfig),
     mkWorld host yes, []).
Proof.
  split; [reflexivity|]. split; [reflexivity|].
  destruct (default_kubeconfig (fake_env "/root" ["/etc/kubeconfig"]) (opts false)
              (mkWorld host yes) eq_refl) as [_ Hmissing].
  apply Hmissing. reflexivity.
Defined.

End Samples.

(** * Further properties *)

(** ** Substrings and label removal *)

Section Substrings.
Import Strings.

Lemma HasPrefix_spec (prefix s : string) :
  HasPrefix s prefix = true <-> exists rest, s = prefix +:+ rest.
Proof.
  revert s. induction prefix as [|p prefix IH]; intros [|c s]; simpl.
  - split; [eauto | reflexivity].
  - split; [eauto | reflexivity].
  - split; [discriminate | intros [rest Heq]; discriminate].
  - destruct (Ascii.eqb p c) eqn:Hpc.
    + apply Ascii.eqb_eq in Hpc. subst c. rewrite IH. split.
      * intros [rest ->]. eauto.
      * intros [rest Heq]. injection Heq as ->. eauto.
    + apply Ascii.eqb_neq in Hpc. split; [discriminate|].
      intros [rest Heq]. injection Heq as Hc _. congruence.
Qed.

(** X1: [strings.Contains s substr] holds exactly when [s] can be cut into a
    part before, [substr] itself and a part after. *)
Theorem Contains_spec (s substr : string) :
  Contains s substr = true <->
  exists before after, s = before +:+ substr +:+ after.
Proof.
  induction s as [|c s IH].
  - cbn [Contains]. rewrite orb_false_r, HasPrefix_spec. split.
    + intros [rest Heq]. exists "", rest. exact Heq.
    + intros ([|b before] & after & Heq); [eauto | discriminate].
  - cbn [Contains]. rewrite orb_true_iff, HasPrefix_spec, IH. split.
    + intros [[rest Heq]|(before & after & ->)].
      * exists "", rest. exact Heq.
      * exists (String c before), after. reflexivity.
    + intros ([|b before] & after & Heq).
      * left. eauto.
      * right. injection Heq as _ ->. eauto.
Qed.

Lemma length_append (s1 s2 : string) :
  String.length (s1 +:+ s2) = String.length s1 + String.length s2.
Proof.
  induction s1 as [|c s1 IH]; [reflexivity|].
  change (String c s1 +:+ s2) with (String c (s1 +:+ s2)). simpl.
  rewrite IH. reflexivity.
Qed.

Lemma Contains_length (s substr : string) :
  Contains s substr = true -> String.length substr <= String.length s.
Proof.
  induction s as [|c s IH]; cbn [Contains]; intros Hc;
    apply orb_true_iff in Hc as [Hp|Hc]; try discriminate.
  - apply HasPrefix_spec in Hp as [rest ->]. rewrite length_append. lia.
  - apply HasPrefix_spec in Hp as [rest ->]. rewrite length_append. lia.
  - specialize (IH Hc). simpl. lia.
Qed.

Lemma object_eq (a b : Object) :
  Name a = Name b -> Labels a = Labels b -> a = b.
Proof. destruct a, b. simpl. intros -> ->. reflexivity. Qed.

(** X2: removing the labels of a marker twice is removing them once. *)
Theorem removeLabels_idempotent (node : Object) (marker : string) :
  removeLabels (removeLabels node marker) marker = removeLabels node marker.
Proof.
  apply object_eq; [reflexivity|]. apply map_eq. intros key.
  rewrite !removeLabels_lookup. destruct (Contains key marker); reflexivity.
Qed.

(** X3: removals for two markers can be done in either order. *)
Theorem removeLabels_commute (node : Object) (marker1 marker2 : string) :
  removeLabels (removeLabels node marker1) marker2
  = removeLabels (removeLabels node marker2) marker1.
Proof.
  apply object_eq; [reflexivity|]. apply map_eq. intros key.
  rewrite !removeLabels_lookup.
  destruct (Contains key marker1), (Contains key marker2); reflexivity.
Qed.

(** X4: the empty marker is contained in every key, so removing by it
    leaves a node without labels; and a marker longer than every key of a
    node removes nothing. *)
Theorem removeLabels_marker_edges (node : Object) :
  Labels (removeLabels node "") = ∅ /\
  forall marker,
    (forall key, is_Some (Labels node !! key) ->
                 String.length key < String.length marker) ->
    removeLabels node marker = node.
Proof.
  split.
  - apply map_eq. intros key. rewrite removeLabels_lookup, lookup_empty.
    destruct key; reflexivity.
  - intros marker Hshort. apply removeLabels_unchanged. intros key Hkey.
    destruct (Contains key marker) eqn:Hc; [|reflexivity].
    apply Contains_length in Hc. specialize (Hshort key Hkey). lia.
Qed.

End Substrings.

(** ** The confirmation dialogue *)

Section Dialogue.
Context {Cluster : Type} `{KubeClient Cluster}.
Context {ClientSet : Type}.
Implicit Types (o : CommandDeInitOption ClientSet) (w : World Cluster).

Lemma unrecognised_lower (response : string) :
  unrecognised response
  = negb ((Strings.ToLower response =? "y")%string
          || (Strings.ToLower response =? "yes")%string
          || (Strings.ToLower response =? "n")%string
          || (Strings.ToLower response =? "no")%string).
Proof.
  unfold unrecognised.
  rewrite (StringFacts.casing_of_ToLower "y" eq_refl),
    (StringFacts.casing_of_ToLower "yes" eq_refl),
    (StringFacts.casing_of_ToLower "n" eq_refl),
    (StringFacts.casing_of_ToLower "no" eq_refl).
  reflexivity.
Qed.

Lemma confirm_unrecognised (response : string) (rest : list (string + error)) :
  unrecognised response = true ->
  confirm (inl response :: rest)
  = (fst (fst (confirm rest)), snd (fst (confirm rest)),
     [prompt; ScanlnCall (inl response)] ++ snd (confirm rest)).
Proof.
  rewrite unrecognised_lower. intros Hun. cbn [confirm]. fold prompt.
  destruct (_ =? "y")%string; [discriminate|].
  destruct (_ =? "yes")%string; [discriminate|].
  destruct (_ =? "n")%string; [discriminate|].
  destruct (_ =? "no")%string; [discriminate|].
  simpl. destruct (confirm rest) as [[r rest'] evs]. reflexivity.
Qed.

Lemma confirm_recognised (response : string) (rest : list (string + error)) :
  unrecognised response = false ->
  exists b,
    confirm (inl response :: rest)
    = (Ret b, rest, [prompt; ScanlnCall (inl response)]) /\
    (if b
     then Strings.casing_of "y" response || Strings.casing_of "yes" response
     else Strings.casing_of "n" response || Strings.casing_of "no" response)
    = true.
Proof.
  unfold unrecognised.
  rewrite (StringFacts.casing_of_ToLower "y" eq_refl),
    (StringFacts.casing_of_ToLower "yes" eq_refl),
    (StringFacts.casing_of_ToLower "n" eq_refl),
    (StringFacts.casing_of_ToLower "no" eq_refl).
  intros Hrec. cbn [confirm]. fold prompt.
  destruct ((_ =? "y")%string || (_ =? "yes")%string) eqn:Hyes.
  - exists true. auto.
  - destruct ((_ =? "n")%string || (_ =? "no")%string) eqn:Hno.
    + exists false. auto.
    + simpl in Hrec. rewrite Hno in Hrec. discriminate.
Qed.

Lemma rounds_app (l1 l2 : list string) :
  rounds (l1 ++ l2) = rounds l1 ++ rounds l2.
Proof. unfold rounds. apply flat_map_app. Qed.

Lemma confirm_skips (junk : list string) (rest : list (string + error)) :
  Forall (fun response => unrecognised response = true) junk ->
  confirm (map inl junk ++ rest)
  = (fst (fst (confirm rest)), snd (fst (confirm rest)),
     rounds junk ++ snd (confirm rest)).
Proof.
  induction 1 as [|response junk Hun _ IH].
  - simpl. destruct (confirm rest) as [[r rest'] evs]. reflexivity.
  - cbn [map app]. rewrite (confirm_unrecognised _ _ Hun), IH. reflexivity.
Qed.

(** What has been read when [confirm] returns an answer: unrecognised
    answers, then a recognised one that decides. *)
Lemma confirm_decided (input : list (string + error)) (b : bool)
    (rest : list (string + error)) (evs : list event) :
  confirm input = (Ret b, rest, evs) ->
  exists junk answer,
    input = map inl junk ++ inl answer :: rest /\
    Forall (fun response => unrecognised response = true) junk /\
    (if b
     then Strings.casing_of "y" answer || Strings.casing_of "yes" answer
     else Strings.casing_of "n" answer || Strings.casing_of "no" answer)
    = true /\
    evs = rounds (junk ++ [answer]).
Proof.
  revert evs. induction input as [|[response|err] input IH]; intros evs Hc.
  - discriminate.
  - destruct (unrecognised response) eqn:Hun.
    + rewrite (confirm_unrecognised _ _ Hun) in Hc.
      destruct (confirm input) as [[r rest'] evs'] eqn:Hci. simpl in Hc.
      injection Hc as -> -> <-.
      destruct (IH evs' eq_refl) as (junk & answer & -> & Hjunk & Hb & ->).
      exists (response :: junk), answer. repeat split; auto.
    + destruct (confirm_recognised response input Hun) as (b' & Heq & Hb').
      rewrite Heq in Hc. injection Hc as -> -> <-.
      exists [], response. repeat split; auto.
  - discriminate.
Qed.

Lemma confirm_exit_code (input : list (string + error)) (code : Z) :
  fst (fst (confirm input)) = Exited code -> code = 1%Z.
Proof.
  induction input as [|[response|err] input IH]; simpl.
  - intros [= <-]. reflexivity.
  - destruct (_ || _); [discriminate|]. destruct (_ || _); [discriminate|].
    destruct (confirm input) as [[r rest'] evs]. simpl in *. exact IH.
  - intros [= <-]. reflexivity.
Qed.

(** X5: any number of unrecognised answers is passed over: each costs one
    prompt and one scan, and the dialogue goes on as it would on the input
    that follows them. *)
Theorem unrecognised_answers_skipped (c : Cluster) (junk : list string)
    (rest : list (string + error)) :
  Forall (fun response => unrecognised response = true) junk ->
  deleteConfirmation (mkWorld c (map inl junk ++ rest))
  = (outcome (deleteConfirmation (mkWorld c rest)),
     final (deleteConfirmation (mkWorld c rest)),
     rounds junk ++ events (deleteConfirmation (mkWorld c rest))).
Proof.
  intros Hjunk. unfold deleteConfirmation, outcome, final, events. simpl.
  rewrite (confirm_skips junk rest Hjunk).
  destruct (confirm rest) as [[r rest'] evs]. reflexivity.
Qed.

(** X6: [deleteConfirmation] returns an answer only on what the user typed:
    when it returns [b], the input read consists of unrecognised answers
    followed by one casing of y or yes (for true) or of n or no (for false),
    nothing after that answer has been read, and every answer read cost one
    prompt and one scan. *)
Theorem confirmation_decided w (b : bool) :
  outcome (deleteConfirmation w) = Ret b ->
  exists junk answer,
    stdin w = map inl junk ++ inl answer :: stdin (final (deleteConfirmation w)) /\
    Forall (fun response => unrecognised response = true) junk /\
    (if b
     then Strings.casing_of "y" answer || Strings.casing_of "yes" answer
     else Strings.casing_of "n" answer || Strings.casing_of "no" answer)
    = true /\
    events (deleteConfirmation w) = rounds (junk ++ [answer]).
Proof.
  unfold deleteConfirmation, outcome, final, events.
  destruct (confirm (stdin w)) as [[r rest] evs] eqn:Hc. simpl.
  intros ->. apply (confirm_decided _ _ _ _ Hc).
Qed.

(** X7: [Run] calls the cluster only with the consent of the user: if a
    discovery, delete or update call occurs in a run, the input began with
    unrecognised answers followed by a casing of y or yes. *)
Theorem calls_need_consent o w (e : event) :
  e ∈ events (Run o w) ->
  is_discovery e = true \/ is_mutation e = true ->
  exists junk answer rest,
    stdin w = map inl junk ++ inl answer :: rest /\
    Forall (fun response => unrecognised response = true) junk /\
    Strings.casing_of "y" answer || Strings.casing_of "yes" answer = true.
Proof.
  intros Hin Hcall. pose proof (confirm_quiet (stdin w)) as Hq.
  rewrite Run_eq in Hin.
  destruct (confirm (stdin w)) as [[[[|]|code] rest] cevs] eqn:Hc; simpl in Hq.
  - destruct (confirm_decided _ _ _ _ Hc) as (junk & answer & Heq & Hjunk & Hb & _).
    exists junk, answer, rest. auto.
  - exfalso. unfold events in Hin. simpl in Hin. rewrite app_nil_r in Hin.
    assert (Forall quiet (Println "removes Karmada from Kubernetes" :: cevs))
      as Hall by (constructor; [split; reflexivity | exact Hq]).
    rewrite Forall_forall in Hall.
    destruct (quiet_no_call e (Hall e Hin)) as [Hd Hm].
    destruct Hcall; congruence.
  - exfalso. unfold events in Hin. simpl in Hin.
    assert (Forall quiet (Println "removes Karmada from Kubernetes" :: cevs))
      as Hall by (constructor; [split; reflexivity | exact Hq]).
    rewrite Forall_forall in Hall.
    destruct (quiet_no_call e (Hall e Hin)) as [Hd Hm].
    destruct Hcall; congruence.
Qed.

(** X8: the process exits from [Run] only with status 1, and then without
    having called the cluster: the cluster is as it was and the events hold
    no discovery, delete or update call. *)
Theorem Run_exit_is_clean o w (code : Z) :
  outcome (Run o w) = Exited code ->
  code = 1%Z /\
  cluster (final (Run o w)) = cluster w /\
  Forall (fun e => is_discovery e = false /\ is_mutation e = false)
         (events (Run o w)).
Proof.
  pose proof (confirm_quiet (stdin w)) as Hq.
  pose proof (confirm_exit_code (stdin w)) as Hcode.
  pose proof (teardown_runs o (emit success_message ;; ret None) [success_message]
                (fun w' => ex_intro _ None (conj eq_refl (conj eq_refl eq_refl))))
    as Hruns.
  rewrite Run_eq.
  destruct (confirm (stdin w)) as [[[[|]|code'] rest] cevs]; simpl in Hq, Hcode.
  - specialize (Hruns (mkWorld (cluster w) rest)).
    destruct Hruns as (r & Hr & _). unfold outcome, fmt_Println, success_message in *.
    destruct ((check! delete o ;; _) _) as [[r' w'] evs']. simpl in *.
    subst r'. discriminate.
  - discriminate.
  - unfold outcome, final, events. simpl. intros [= <-].
    split; [apply Hcode; reflexivity|]. split; [reflexivity|].
    apply quiet_calls. constructor; [split; reflexivity | exact Hq].
Qed.

End Dialogue.

(** ** The scope of the calls and how often they are made *)

Section Scope.
Variable dryRun : bool.
Variable namespace : string.

Lemma in_scope_mono (evs evs' : list event) (e : event) :
  (forall e', e' ∈ evs -> e' ∈ evs') ->
  in_scope dryRun namespace evs e -> in_scope dryRun namespace evs' e.
Proof.
  intros Hsub. destruct e; simpl; auto.
  intros (Hns & Hdry & items & item & Hin & Hitem & Hname).
  split; [exact Hns|]. split; [exact Hdry|]. exists items, item. auto.
Qed.

Lemma loop_event_mono d k ns items item e :
  loop_event d k ns items e -> loop_event d k ns (item :: items) e.
Proof.
  intros [(x & Hx & ->)|(Hd & x & res & Hx & ->)].
  - left. exists x. split; [by right | reflexivity].
  - right. split; [exact Hd|]. exists x, res. split; [by right | reflexivity].
Qed.

Lemma loop_events k ns items r evs :
  loop_run dryRun k ns items r evs ->
  Forall (loop_event dryRun k ns items) evs.
Proof.
  induction 1 as [|item rest r evs Hdry Hl IH|item rest r evs Hdry Hl IH
                 |item rest err Hdry].
  - constructor.
  - constructor.
    + left. exists item. split; [left | reflexivity].
    + eapply Forall_impl; [exact IH|]. intros e. apply loop_event_mono.
  - constructor; [|constructor].
    + left. exists item. split; [left | reflexivity].
    + right. split; [exact Hdry|]. exists item, None. split; [left | reflexivity].
    + eapply Forall_impl; [exact IH|]. intros e. apply loop_event_mono.
  - constructor; [|constructor; [|constructor]].
    + left. exists item. split; [left | reflexivity].
    + right. split; [exact Hdry|]. exists item, (Some err).
      split; [left | reflexivity].
Qed.

Lemma node_loop_event_mono d nodes node e :
  node_loop_event d nodes e -> node_loop_event d (node :: nodes) e.
Proof.
  intros [(x & Hx & ->)|(Hd & x & res & Hx & ->)].
  - left. exists x. split; [by right | reflexivity].
  - right. split; [exact Hd|]. exists x, res. split; [by right | reflexivity].
Qed.

Lemma node_loop_events nodes r evs :
  node_loop_run dryRun nodes r evs ->
  Forall (node_loop_event dryRun nodes) evs.
Proof.
  induction 1 as [|node rest r evs Hdry Hl IH|node rest r evs Hdry Hl IH
                 |node rest err Hdry].
  - constructor.
  - constructor.
    + left. exists node. split; [left | reflexivity].
    + eapply Forall_impl; [exact IH|]. intros e. apply node_loop_event_mono.
  - constructor; [|constructor].
    + left. exists node. split; [left | reflexivity].
    + right. split; [exact Hdry|]. exists node, None. split; [left | reflexivity].
    + eapply Forall_impl; [exact IH|]. intros e. apply node_loop_event_mono.
  - constructor; [|constructor; [|constructor]].
    + left. exists node. split; [left | reflexivity].
    + right. split; [exact Hdry|]. exists node, (Some err).
      split; [left | reflexivity].
Qed.

Lemma stage_scope st r evs :
  stage_run dryRun namespace st r evs ->
  Forall (in_scope dryRun namespace evs) evs.
Proof.
  destruct 1 as [k err|k items r evs Hl|err| |nodes r evs Hne Hl].
  - repeat constructor.
  - constructor; [split; reflexivity|].
    pose proof (loop_events _ _ _ _ _ Hl) as Hev.
    eapply Forall_impl; [exact Hev|].
    intros e [(item & Hitem & ->)|(Hd & item & res & Hitem & ->)]; simpl; [exact I|].
    split; [reflexivity|]. split; [exact Hd|].
    exists items, item. split; [left | auto].
  - repeat constructor.
  - repeat constructor.
  - constructor; [reflexivity|].
    pose proof (node_loop_events _ _ _ Hl) as Hev.
    eapply Forall_impl; [exact Hev|].
    intros e [(node & Hnode & ->)|(Hd & node & res & Hnode & ->)]; simpl;
      [exact I | exact Hd].
Qed.

Lemma chain_scope sts r evs :
  chain dryRun namespace sts r evs ->
  Forall (in_scope dryRun namespace evs) evs.
Proof.
  induction 1 as [|st rest err evs Hs|st rest evs1 r evs2 Hs Hc IH].
  - constructor.
  - apply (stage_scope _ _ _ Hs).
  - apply Forall_app. split.
    + eapply Forall_impl; [apply (stage_scope _ _ _ Hs)|].
      intros e. apply in_scope_mono. intros e' He'. apply elem_of_app. by left.
    + eapply Forall_impl; [exact IH|].
      intros e. apply in_scope_mono. intros e' He'. apply elem_of_app. by right.
Qed.

(** *** Counting the delete calls *)

Lemma delete_of_staged k e name :
  delete_of k e = Some name -> stage_of e = Some (kind_stage k).
Proof.
  destruct e; simpl; try discriminate.
  case_bool_decide as Hk; [|discriminate]. subst. reflexivity.
Qed.

Lemma deletes_of_other k P evs :
  staged_in P evs -> ~ P (kind_stage k) -> deletes_of k evs = [].
Proof.
  unfold staged_in, deletes_of.
  induction 1 as [|e evs (s & He & HP) _ IH]; intros Hk; [reflexivity|].
  cbn. rewrite (IH Hk). destruct (delete_of k e) eqn:Hd; [|reflexivity].
  apply delete_of_staged in Hd. rewrite Hd in He. inversion He; subst.
  contradiction.
Qed.

Lemma notices_cons_notice k name evs :
  notices_of k (Printf (notice_format k) [name] :: evs) = name :: notices_of k evs.
Proof. unfold notices_of. cbn. rewrite String.eqb_refl. reflexivity. Qed.

Lemma notices_cons_delete k k' ns name res evs :
  notices_of k (DeleteCall k' ns name res :: evs) = notices_of k evs.
Proof. reflexivity. Qed.

Lemma deletes_cons_notice k format args evs :
  deletes_of k (Printf format args :: evs) = deletes_of k evs.
Proof. reflexivity. Qed.

Lemma deletes_cons_delete k ns name res evs :
  deletes_of k (DeleteCall k ns name res :: evs) = name :: deletes_of k evs.
Proof.
  unfold deletes_of. cbn. rewrite bool_decide_eq_true_2 by reflexivity.
  reflexivity.
Qed.

(** The notices and the delete calls of a loop follow the items in order,
    one each, up to where the loop stopped. *)
Lemma loop_counts k ns items r evs :
  loop_run dryRun k ns items r evs ->
  notices_of k evs `prefix_of` map Name items /\
  deletes_of k evs `prefix_of` map Name items /\
  (r = None -> notices_of k evs = map Name items) /\
  (r = None -> dryRun = false -> deletes_of k evs = map Name items) /\
  (dryRun = true -> deletes_of k evs = []).
Proof.
  induction 1 as [|item rest r evs Hdry Hl (IHn & IHd & IHne & IHde & IHdry)
                 |item rest r evs Hdry Hl (IHn & IHd & IHne & IHde & IHdry)
                 |item rest err Hdry].
  - repeat split; auto using prefix_nil.
  - rewrite notices_cons_notice, deletes_cons_notice. cbn [map].
    rewrite (IHdry Hdry) in *. repeat split.
    + apply prefix_cons, IHn.
    + apply prefix_nil.
    + intros Hr. rewrite (IHne Hr). reflexivity.
    + congruence.
  - rewrite notices_cons_notice, deletes_cons_notice, notices_cons_delete,
      deletes_cons_delete. cbn [map]. repeat split.
    + apply prefix_cons, IHn.
    + apply prefix_cons, IHd.
    + intros Hr. rewrite (IHne Hr). reflexivity.
    + intros Hr _. rewrite (IHde Hr Hdry). reflexivity.
    + congruence.
  - rewrite notices_cons_notice, deletes_cons_notice, notices_cons_delete,
      deletes_cons_delete. cbn [map].
    repeat split; try discriminate; try congruence;
      apply prefix_cons, prefix_nil.
Qed.

Lemma stage_counts st r evs k ns selector items :
  stage_run dryRun namespace st r evs ->
  ListCall k ns selector (inr items) ∈ evs ->
  notices_of k evs `prefix_of` map Name items /\
  deletes_of k evs `prefix_of` map Name items /\
  (r = None -> notices_of k evs = map Name items) /\
  (r = None -> dryRun = false -> deletes_of k evs = map Name items).
Proof.
  intros Hs Hin.
  destruct Hs as [k0 err|k0 items0 r evs Hl|err| |nodes r evs Hne Hl].
  - apply elem_of_cons in Hin as [Heq|Hin]; [discriminate | inversion Hin].
  - apply elem_of_cons in Hin as [Heq|Hin].
    + injection Heq as ? ? ? ?; subst k ns selector items.
      destruct (loop_counts _ _ _ _ _ Hl) as (Hn & Hd & Hne & Hde & _).
      change (notices_of k0 (ListCall k0 (kind_namespace k0 namespace)
                               LabelSelector (inr items0) :: evs))
        with (notices_of k0 evs).
      change (deletes_of k0 (ListCall k0 (kind_namespace k0 namespace)
                               LabelSelector (inr items0) :: evs))
        with (deletes_of k0 evs).
      auto.
    + pose proof (discoveries_nil_elem _ _ (loop_discoveries _ _ _ _ _ _ Hl) Hin).
      discriminate.
  - apply elem_of_cons in Hin as [Heq|Hin]; [discriminate | inversion Hin].
  - apply elem_of_cons in Hin as [Heq|Hin]; [discriminate|].
    apply elem_of_cons in Hin as [Heq|Hin]; [discriminate | inversion Hin].
  - apply elem_of_cons in Hin as [Heq|Hin]; [discriminate|].
    pose proof (discoveries_nil_elem _ _ (node_loop_discoveries _ _ _ _ Hl) Hin).
    discriminate.
Qed.

Lemma chain_counts sts r evs k ns selector items :
  StronglySorted lt (map stage_index sts) ->
  chain dryRun namespace sts r evs ->
  ListCall k ns selector (inr items) ∈ evs ->
  notices_of k evs `prefix_of` map Name items /\
  deletes_of k evs `prefix_of` map Name items /\
  (r = None -> notices_of k evs = map Name items) /\
  (r = None -> dryRun = false -> deletes_of k evs = map Name items).
Proof.
  intros Hsorted Hc. revert Hsorted.
  induction Hc as [|st rest err evs Hs|st rest evs1 r evs2 Hs Hc IH];
    intros Hsorted Hlist.
  - inversion Hlist.
  - apply (stage_counts _ _ _ _ _ _ _ Hs Hlist).
  - apply sorted_stages_head in Hsorted as [Hhead Hrest].
    pose proof (stage_staged _ _ _ _ _ Hs) as Hst1.
    pose proof (chain_staged _ _ _ _ _ Hc) as Hst2.
    unfold notices_of, deletes_of. rewrite !omap_app.
    fold (notices_of k evs1) (notices_of k evs2)
         (deletes_of k evs1) (deletes_of k evs2).
    apply elem_of_app in Hlist as [Hlist|Hlist].
    + destruct (staged_in_elem _ _ _ Hst1 Hlist) as (s1 & H1 & ->).
      simpl in H1. inversion H1 as [Hk].
      assert (~ kind_stage k ∈ map stage_index rest) as Hnot
        by (intros Hin; specialize (Hhead _ Hin); lia).
      rewrite (notices_of_other k _ _ Hst2 Hnot), (deletes_of_other k _ _ Hst2 Hnot),
        !app_nil_r.
      destruct (stage_counts _ _ _ _ _ _ _ Hs Hlist) as (Hn & Hd & Hne & Hde).
      repeat split; auto.
    + destruct (staged_in_elem _ _ _ Hst2 Hlist) as (s2 & H2 & Hin2).
      simpl in H2. inversion H2; subst s2.
      assert (kind_stage k <> stage_index st) as Hnot
        by (intros Heq; specialize (Hhead _ Hin2); lia).
      rewrite (notices_of_other k _ _ Hst1), (deletes_of_other k _ _ Hst1);
        [|intros Heq; apply Hnot; exact Heq..].
      apply (IH Hrest Hlist).
Qed.

End Scope.

(** ** Confirmed runs *)

Section Confirmed.
Context {Cluster : Type} `{KubeClient Cluster}.
Context {ClientSet : Type}.
Implicit Types (o : CommandDeInitOption ClientSet) (w : World Cluster).

Lemma confirm_dialogue (input : list (string + error)) :
  Forall dialogue_event (snd (confirm input)).
Proof.
  assert (forall res, dialogue_event (ScanlnCall res)) as Hscan
    by (intros res; right; left; eauto).
  assert (forall err, dialogue_event (PrintlnError err)) as Herr
    by (intros err; right; right; eauto).
  assert (dialogue_event (Println "Please type (y)es or (n)o and then press enter:"))
    as Hprompt by (left; reflexivity).
  induction input as [|[response|err] rest IH]; simpl.
  - repeat (apply Forall_cons_2; [auto|]). apply Forall_nil_2.
  - destruct (_ || _); [repeat (apply Forall_cons_2; [auto|]); apply Forall_nil_2|].
    destruct (_ || _); [repeat (apply Forall_cons_2; [auto|]); apply Forall_nil_2|].
    destruct (confirm rest) as [[r rest'] evs]. simpl in *.
    repeat (apply Forall_cons_2; [auto|]). exact IH.
  - repeat (apply Forall_cons_2; [auto|]). apply Forall_nil_2.
Qed.

(** A confirmed run: the title, the dialogue, the stages, and the closing
    message when the stages returned no error. *)
Lemma Run_confirmed o w rest cevs :
  confirm (stdin w) = (Ret true, rest, cevs) ->
  exists r evs,
    chain (DryRun o) (Namespace o) teardown_stages r evs /\
    outcome (Run o w) = Ret r /\
    events (Run o w)
    = (Println "removes Karmada from Kubernetes" :: cevs) ++ evs
      ++ match r with None => [success_message] | Some _ => [] end.
Proof.
  intros Hc. rewrite Run_eq, Hc.
  destruct (teardown_runs o (emit success_message ;; ret None) [success_message]
              (fun w' => ex_intro _ None (conj eq_refl (conj eq_refl eq_refl)))
              (mkWorld (cluster w) rest)) as (r & Hr & evs0 & Hch & Hevs).
  unfold outcome, events, fmt_Println, success_message in *.
  destruct ((check! delete o ;; check! removeNodeLabels o ;; _) _)
    as [[r' w'] evs']. simpl in *. subst r' evs'.
  exists r, evs0. split; [exact Hch|]. split; reflexivity.
Qed.

(** A run that is not confirmed: the title and the dialogue, nothing else. *)
Lemma Run_unconfirmed o w r rest cevs :
  confirm (stdin w) = (r, rest, cevs) ->
  r <> Ret true ->
  events (Run o w) = Println "removes Karmada from Kubernetes" :: cevs /\
  final (Run o w) = mkWorld (cluster w) rest /\
  outcome (Run o w)
  = match r with Ret _ => Ret None | Exited code => Exited code end.
Proof.
  intros Hc Hr. rewrite Run_eq, Hc. destruct r as [[|]|code]; [congruence| |].
  - unfold events, final, outcome. simpl. rewrite app_nil_r. repeat split.
  - unfold events, final, outcome. simpl. repeat split.
Qed.

Lemma confirmed_or_not (r : Outcome bool) : r = Ret true \/ r <> Ret true.
Proof. destruct r as [[|]|code]; [left; reflexivity | right; discriminate..]. Qed.

Lemma dialogue_in_scope d ns evs e :
  dialogue_event e -> in_scope d ns evs e.
Proof. intros [->|[[res ->]|[err ->]]]; exact I. Qed.

Lemma dialogue_not_success e : dialogue_event e -> e <> success_message.
Proof. intros [->|[[res ->]|[err ->]]]; discriminate. Qed.

Lemma dialogue_quiet e : dialogue_event e -> quiet e.
Proof. intros [->|[[res ->]|[err ->]]]; split; reflexivity. Qed.

Lemma quiet_deletes k l : Forall quiet l -> deletes_of k l = [].
Proof.
  induction 1 as [|e l Hq _ IH]; [reflexivity|].
  unfold deletes_of in *. cbn. rewrite IH.
  destruct (delete_of k e) eqn:Hd; [|reflexivity].
  destruct (staged_not_quiet _ _ (delete_of_staged _ _ _ Hd) Hq).
Qed.

(** X9: every call of a run is in scope: listings use the bootstrapping
    selector in the namespace of the option (no namespace for cluster
    roles); a delete call is issued outside dry-run only, in that same
    namespace, for the name of an item that its kind listed in this run;
    nodes are listed by the node label and updated outside dry-run only; and
    [Run] never looks a namespace up. *)
Theorem calls_in_scope o w :
  Forall (in_scope (DryRun o) (Namespace o) (events (Run o w)))
         (events (Run o w)).
Proof.
  pose proof (confirm_dialogue (stdin w)) as Hd.
  destruct (confirm (stdin w)) as [[r rest] cevs] eqn:Hc. simpl in Hd.
  assert (Forall (in_scope (DryRun o) (Namespace o) (events (Run o w)))
                 (Println "removes Karmada from Kubernetes" :: cevs)) as Hpre.
  { constructor; [exact I|]. eapply Forall_impl; [exact Hd|].
    intros e. apply dialogue_in_scope. }
  destruct (confirmed_or_not r) as [->|Hr].
  - destruct (Run_confirmed o w rest cevs Hc) as (r & evs & Hch & _ & He).
    rewrite He at 2. repeat (apply Forall_app; split).
    + exact Hpre.
    + eapply Forall_impl; [apply (chain_scope _ _ _ _ _ Hch)|].
      intros e. apply in_scope_mono. intros e' He'. rewrite He.
      apply elem_of_app. right. apply elem_of_app. by left.
    + destruct r; repeat constructor.
  - destruct (Run_unconfirmed o w r rest cevs Hc Hr) as (He & _).
    rewrite He at 2. exact Hpre.
Qed.

(** X10: for every listing of a run, the notices and the delete calls of
    that kind follow the listed items in order, one each and none twice, up
    to where the run stopped; when the run returns nil every listed item has
    been noticed once and, outside dry-run, deleted once. *)
Theorem one_delete_per_item o w k ns selector items :
  ListCall k ns selector (inr items) ∈ events (Run o w) ->
  notices_of k (events (Run o w)) `prefix_of` map Name items /\
  deletes_of k (events (Run o w)) `prefix_of` map Name items /\
  (outcome (Run o w) = Ret None ->
   notices_of k (events (Run o w)) = map Name items /\
   (DryRun o = false -> deletes_of k (events (Run o w)) = map Name items)).
Proof.
  intros Hin. pose proof (confirm_dialogue (stdin w)) as Hd.
  destruct (confirm (stdin w)) as [[r rest] cevs] eqn:Hc. simpl in Hd.
  assert (Forall quiet (Println "removes Karmada from Kubernetes" :: cevs))
    as Hpre.
  { constructor; [split; reflexivity|]. eapply Forall_impl; [exact Hd|].
    intros e. apply dialogue_quiet. }
  destruct (confirmed_or_not r) as [->|Hr].
  - destruct (Run_confirmed o w rest cevs Hc) as (r & evs & Hch & Hout & He).
    assert (Forall quiet (match r with None => [success_message] | Some _ => [] end))
      as Hpost by (destruct r; repeat constructor).
    rewrite He in Hin |- *.
    apply (staged_elem_middle _ evs _ (ListCall k ns selector (inr items))
             (kind_stage k) Hpre Hpost eq_refl) in Hin.
    unfold notices_of, deletes_of. rewrite !omap_app.
    fold (notices_of k (Println "removes Karmada from Kubernetes" :: cevs))
         (notices_of k evs)
         (notices_of k (match r with None => [success_message] | Some _ => [] end))
         (deletes_of k (Println "removes Karmada from Kubernetes" :: cevs))
         (deletes_of k evs)
         (deletes_of k (match r with None => [success_message] | Some _ => [] end)).
    rewrite (quiet_notices k _ Hpre), (quiet_notices k _ Hpost),
      (quiet_deletes k _ Hpre), (quiet_deletes k _ Hpost), !app_nil_r.
    cbn [app].
    destruct (chain_counts _ _ _ _ _ _ _ _ _ teardown_stages_sorted Hch Hin)
      as (Hn & Hdel & Hne & Hde).
    split; [exact Hn|]. split; [exact Hdel|].
    intros Hok. rewrite Hout in Hok. injection Hok as ->. auto.
  - destruct (Run_unconfirmed o w r rest cevs Hc Hr) as (He & _).
    rewrite He in Hin. rewrite Forall_forall in Hpre.
    destruct (staged_not_quiet (ListCall k ns selector (inr items))
                (kind_stage k) eq_refl (Hpre _ Hin)).
Qed.

(** X11: the closing message is printed exactly when the user confirmed and
    the run returns nil, and then it is the last event: success is never
    reported after a decline, an exit or a failed call. *)
Theorem success_message_only_on_success o w :
  (success_message ∈ events (Run o w) <->
   outcome (deleteConfirmation w) = Ret true /\ outcome (Run o w) = Ret None) /\
  (success_message ∈ events (Run o w) ->
   last (events (Run o w)) = Some success_message).
Proof.
  pose proof (confirm_dialogue (stdin w)) as Hd.
  unfold deleteConfirmation at 1, outcome at 1.
  destruct (confirm (stdin w)) as [[r rest] cevs] eqn:Hc. simpl in Hd |- *.
  assert (success_message ∉ Println "removes Karmada from Kubernetes" :: cevs)
    as Hpre.
  { intros Hin. apply elem_of_cons in Hin as [Heq|Hin]; [discriminate|].
    rewrite Forall_forall in Hd. apply (dialogue_not_success _ (Hd _ Hin)).
    reflexivity. }
  destruct (confirmed_or_not r) as [->|Hr].
  - destruct (Run_confirmed o w rest cevs Hc) as (r & evs & Hch & Hout & He).
    assert (success_message ∉ evs) as Hmid.
    { intros Hin.
      destruct (staged_in_elem _ _ _ (chain_staged _ _ _ _ _ Hch) Hin)
        as (s & Hs & _). discriminate. }
    rewrite He, Hout. destruct r as [err|].
    + rewrite app_nil_r. split; [split|].
      * intros Hin. apply elem_of_app in Hin as [Hin|Hin]; contradiction.
      * intros [_ Hok]. discriminate.
      * intros Hin. apply elem_of_app in Hin as [Hin|Hin]; contradiction.
    + split; [split|].
      * auto.
      * intros _. apply elem_of_app. right. apply elem_of_app. right. left.
      * intros _. rewrite app_assoc. apply last_snoc.
  - destruct (Run_unconfirmed o w r rest cevs Hc Hr) as (He & _).
    rewrite He. split; [split|].
    + intros Hin. contradiction.
    + intros [Hyes _]. contradiction.
    + intros Hin. contradiction.
Qed.

End Confirmed.

(** ** What a run leaves untouched *)

Section Frames.
Context {Cluster : Type} `{KubeClient Cluster}.
Context {ClientSet : Type}.
Implicit Types (o : CommandDeInitOption ClientSet) (w : World Cluster).

Lemma preserves_ret {A X} (f : World Cluster -> X) (a : A) :
  preserves f (ret a).
Proof. intros w. reflexivity. Qed.

Lemma preserves_emit {X} (f : World Cluster -> X) (e : event) :
  preserves f (emit e).
Proof. intros w. reflexivity. Qed.

Lemma preserves_bind {A B X} (f : World Cluster -> X) (m : M Cluster A)
    (k : A -> M Cluster B) :
  preserves f m -> (forall a, preserves f (k a)) -> preserves f (bind m k).
Proof.
  intros Hm Hk w. specialize (Hm w). unfold bind, final in *.
  destruct (m w) as [[[a|code] w1] t1]; simpl in *; [|exact Hm].
  specialize (Hk a w1). unfold final in Hk.
  destruct (k a w1) as [[r2 w2] t2]. simpl in *. congruence.
Qed.

Lemma preserves_check {X} (f : World Cluster -> X)
    (m k : M Cluster (option error)) :
  preserves f m -> preserves f k -> preserves f (check! m ;; k).
Proof.
  intros Hm Hk. apply preserves_bind; [exact Hm|].
  intros [err|]; [apply preserves_ret | exact Hk].
Qed.

Lemma preserves_try {A X} (f : World Cluster -> X)
    (m : M Cluster (error + A)) (k : A -> M Cluster (option error)) :
  preserves f m -> (forall a, preserves f (k a)) ->
  preserves f (x <-! m ;; k x).
Proof.
  intros Hm Hk. apply preserves_bind; [exact Hm|].
  intros [err|a]; [apply preserves_ret | apply Hk].
Qed.

Lemma call_preserves_stdin {R} (op : Cluster -> R * Cluster) (ev : R -> event) :
  preserves stdin (call op ev).
Proof. intros w. unfold call, final. destruct (op (cluster w)). reflexivity. Qed.

Lemma call_preserves_cluster {R} (op : Cluster -> R * Cluster) (ev : R -> event) :
  (forall c, snd (op c) = c) -> preserves cluster (call op ev).
Proof.
  intros Hop w. unfold call, final. specialize (Hop (cluster w)).
  destruct (op (cluster w)). simpl in *. exact Hop.
Qed.

Lemma deleteItems_stdin (d : bool) k ns format items :
  preserves stdin (deleteItems d k ns format items).
Proof.
  induction items as [|item rest IH]; simpl; [apply preserves_ret|].
  apply preserves_bind; [apply preserves_emit|]. intros _.
  destruct d; [exact IH|].
  apply preserves_check; [apply call_preserves_stdin | exact IH].
Qed.

Lemma deleteItems_dry_cluster k ns format items :
  preserves cluster (deleteItems true k ns format items).
Proof.
  induction items as [|item rest IH]; simpl; [apply preserves_ret|].
  apply preserves_bind; [apply preserves_emit | intros _; exact IH].
Qed.

Lemma updateNodes_stdin (d : bool) nodes :
  preserves stdin (updateNodes d nodes).
Proof.
  induction nodes as [|node rest IH]; simpl; [apply preserves_ret|].
  apply preserves_bind; [apply preserves_emit|]. intros _.
  destruct d; [exact IH|].
  apply preserves_check; [apply call_preserves_stdin | exact IH].
Qed.

Lemma updateNodes_dry_cluster nodes :
  preserves cluster (updateNodes true nodes).
Proof.
  induction nodes as [|node rest IH]; simpl; [apply preserves_ret|].
  apply preserves_bind; [apply preserves_emit | intros _; exact IH].
Qed.

Lemma stages_stdin o (k : M Cluster (option error)) :
  preserves stdin k ->
  preserves stdin (check! delete o ;; check! removeNodeLabels o ;; k).
Proof.
  intros Hk.
  repeat (first
    [ exact Hk
    | apply preserves_ret
    | apply preserves_emit
    | apply call_preserves_stdin
    | apply deleteItems_stdin
    | apply updateNodes_stdin
    | apply preserves_check
    | apply preserves_try; [|intros ?]
    | match goal with
      | |- preserves _ (if (length ?l =? 0)%nat then _ else _) =>
          destruct (length l =? 0)%nat
      end
    | apply preserves_bind; [|intros ?]
    | unfold delete, deleteWorkload, removeNodeLabels, List_, Nodes_List,
        fmt_Printf ]).
Qed.

Lemma stages_dry_cluster o (k : M Cluster (option error)) :
  read_only_lists Cluster ->
  DryRun o = true ->
  preserves cluster k ->
  preserves cluster (check! delete o ;; check! removeNodeLabels o ;; k).
Proof.
  intros [Hlist Hnodes] Hdry Hk.
  unfold delete, deleteWorkload, removeNodeLabels, List_, Nodes_List, fmt_Printf.
  rewrite Hdry.
  repeat (first
    [ exact Hk
    | apply preserves_ret
    | apply preserves_emit
    | apply call_preserves_cluster; intros c; first [apply Hlist | apply Hnodes]
    | apply deleteItems_dry_cluster
    | apply updateNodes_dry_cluster
    | apply preserves_check
    | apply preserves_try; [|intros ?]
    | match goal with
      | |- preserves _ (if (length ?l =? 0)%nat then _ else _) =>
          destruct (length l =? 0)%nat
      end
    | apply preserves_bind; [|intros ?] ]).
Qed.

Lemma closing_preserves {X} (f : World Cluster -> X) (line : string) :
  preserves f (fmt_Println line ;; ret (@None error)).
Proof.
  apply preserves_bind; [apply preserves_emit | intros _; apply preserves_ret].
Qed.

(** X12: with a client whose list calls do not change the cluster, a
    dry-run leaves the cluster exactly as it was, whatever the user answers
    and whatever the calls return. *)
Theorem dry_run_keeps_cluster o w :
  read_only_lists Cluster ->
  DryRun o = true ->
  cluster (final (Run o w)) = cluster w.
Proof.
  intros Hro Hdry. rewrite Run_eq.
  destruct (confirm (stdin w)) as [[[[|]|code] rest] cevs]; try reflexivity.
  pose proof (stages_dry_cluster o _ Hro Hdry
                (closing_preserves cluster
                   ("remove Karmada from Kubernetes successfully." +:+
                    "\ndeinit will not delete etcd data, if the etcd data is persistent, please delete it yourself."))
                (mkWorld (cluster w) rest)) as Hkeep.
  unfold final in *.
  destruct ((check! delete o ;; _) _) as [[r w'] evs]. simpl in *. exact Hkeep.
Qed.

(** X13: a run reads standard input for the confirmation only: what is left
    unread after [Run] is what [deleteConfirmation] left unread. *)
Theorem Run_reads_only_the_dialogue o w :
  stdin (final (Run o w)) = stdin (final (deleteConfirmation w)).
Proof.
  rewrite Run_eq. unfold deleteConfirmation.
  destruct (confirm (stdin w)) as [[[[|]|code] rest] cevs]; try reflexivity.
  pose proof (stages_stdin o _
                (closing_preserves stdin
                   ("remove Karmada from Kubernetes successfully." +:+
                    "\ndeinit will not delete etcd data, if the etcd data is persistent, please delete it yourself."))
                (mkWorld (cluster w) rest)) as Hkeep.
  unfold final in *.
  destruct ((check! delete o ;; _) _) as [[r w'] evs]. simpl in *. exact Hkeep.
Qed.

End Frames.

(** ** Complete and RunE, further *)

Section Completed.
Context {Cluster : Type} `{KubeClient Cluster}.
Context {RestCfg ClientSet : Type}.
Variable env : Env RestCfg ClientSet.
Implicit Types (o : CommandDeInitOption ClientSet) (w : World Cluster).

(** What a result of [Complete] tells about the option returned and, when
    there is no error, about the checks that passed. *)
Lemma Complete_inv o w :
  exists o' err,
    outcome (Complete env o w) = Ret (o', err) /\
    DryRun o' = DryRun o /\ Namespace o' = Namespace o /\
    KubeContext o' = KubeContext o /\
    KubeConfig o' = kubeconfig_path env o /\
    (err = None ->
     Exists env (kubeconfig_path env o) = true /\
     exists cfg,
       RestConfig env (KubeContext o) (kubeconfig_path env o) = inr cfg /\
       NewClientSet env cfg = (KubeClientSet o', None) /\
       fst (namespaces_get (Namespace o) (cluster w)) = None /\
       events (Complete env o w) = [NamespacesGet (Namespace o) None]).
Proof.
  unfold kubeconfig_path, Complete, outcome, events.
  destruct (KubeConfig o =? "")%string;
    cbn [KubeConfig set_KubeConfig KubeContext Namespace DryRun];
    (destruct (Exists env _) eqn:Hex; cbn [negb];
       [|eexists _, _; repeat split; discriminate]);
    (destruct (RestConfig env _ _) as [err|cfg] eqn:Hrest;
       [eexists _, _; repeat split; discriminate|]);
    (destruct (NewClientSet env cfg) as [cs [err|]] eqn:Hnew;
       [eexists _, _; repeat split; discriminate|]);
    unfold bind, Namespaces_Get, call;
    cbn [Namespace set_KubeClientSet KubeConfig DryRun KubeContext];
    destruct (namespaces_get _ _) as [[err|] c] eqn:Hget; cbn;
    eexists _, _; (split; [reflexivity|]); repeat split; try discriminate;
    exists cfg; cbn; rewrite ?Hnew, ?Hget; repeat split.
Qed.

(** X14: [Complete] returns nil only when every check has passed: the
    kubeconfig file exists at the path in use, [utils.RestConfig] accepted
    it, [utils.NewClientSet] built the client that the option now holds, and
    the one call made, the lookup of the target namespace, succeeded. *)
Theorem Complete_success_checked o w o' :
  outcome (Complete env o w) = Ret (o', None) ->
  Exists env (kubeconfig_path env o) = true /\
  exists cfg,
    RestConfig env (KubeContext o) (kubeconfig_path env o) = inr cfg /\
    NewClientSet env cfg = (KubeClientSet o', None) /\
    fst (namespaces_get (Namespace o) (cluster w)) = None /\
    events (Complete env o w) = [NamespacesGet (Namespace o) None].
Proof.
  intros Hok. destruct (Complete_inv o w) as (o1 & err & Hout & _ & _ & _ & _ & Hchecks).
  rewrite Hout in Hok. injection Hok as -> ->. apply Hchecks. reflexivity.
Qed.

(** X15: [Complete] always returns (it never exits), and whatever it returns
    the option keeps its dry-run flag, its namespace and its context; the
    kubeconfig path is the one given, or the default when none was given. *)
Theorem Complete_keeps_options o w :
  exists o' err,
    outcome (Complete env o w) = Ret (o', err) /\
    DryRun o' = DryRun o /\ Namespace o' = Namespace o /\
    KubeContext o' = KubeContext o /\
    KubeConfig o' = kubeconfig_path env o /\
    (KubeConfig o <> "" -> KubeConfig o' = KubeConfig o).
Proof.
  destruct (Complete_inv o w) as (o' & err & Hout & Hd & Hn & Hc & Hk & _).
  exists o', err. repeat split; try assumption.
  intros Hne. rewrite Hk. unfold kubeconfig_path.
  destruct (KubeConfig o =? "")%string eqn:He; [|reflexivity].
  apply String.eqb_eq in He. contradiction.
Qed.

End Completed.

(** ** The etcd chart *)

Section Chart.
Import Strings Template.

Lemma append_cons (c : ascii) (s t : string) :
  String c s +:+ t = String c (s +:+ t).
Proof. reflexivity. Qed.

Lemma append_assoc (s1 s2 s3 : string) :
  (s1 +:+ s2) +:+ s3 = s1 +:+ (s2 +:+ s3).
Proof.
  induction s1 as [|c s1 IH]; [reflexivity|].
  rewrite !append_cons, IH. reflexivity.
Qed.

Lemma substring_prefix (s t : string) :
  substring 0 (String.length s) (s +:+ t) = s.
Proof.
  induction s as [|c s IH]; [destruct t; reflexivity|].
  rewrite append_cons. simpl. rewrite IH. reflexivity.
Qed.

Lemma substring_whole (t : string) : substring 0 (String.length t) t = t.
Proof. induction t as [|c t IH]; simpl; [reflexivity | rewrite IH; reflexivity]. Qed.

Lemma substring_suffix (s t : string) :
  substring (String.length s) (String.length t) (s +:+ t) = t.
Proof.
  induction s as [|c s IH]; [apply substring_whole|].
  rewrite append_cons. simpl. exact IH.
Qed.

(** Trimming a suffix that has just been appended gives the string back. *)
Lemma TrimSuffix_append (s suffix : string) :
  TrimSuffix (s +:+ suffix) suffix = s.
Proof.
  unfold TrimSuffix, HasSuffix. rewrite length_append.
  replace (String.length s + String.length suffix - String.length suffix)
    with (String.length s) by lia.
  rewrite substring_suffix, String.eqb_refl, substring_prefix.
  replace (String.length suffix <=? String.length s + String.length suffix)%nat
    with true by (symmetry; apply Nat.leb_le; lia).
  reflexivity.
Qed.

Lemma HasPrefix_char (x c : ascii) (s : string) :
  HasPrefix (String x s) (String c "") = Ascii.eqb c x.
Proof. simpl. destruct (Ascii.eqb c x); [destruct s; reflexivity | reflexivity]. Qed.

Lemma Contains_cons (x : ascii) (s substr : string) :
  Contains (String x s) substr
  = HasPrefix (String x s) substr || Contains s substr.
Proof. reflexivity. Qed.

Lemma Contains_char_append (a b : string) (c : ascii) :
  Contains (a +:+ b) (String c "")
  = Contains a (String c "") || Contains b (String c "").
Proof.
  induction a as [|x a IH]; [reflexivity|].
  rewrite append_cons, !Contains_cons, !HasPrefix_char, IH, orb_assoc.
  reflexivity.
Qed.

Lemma verb_free_append (a b : string) :
  verb_free (a +:+ b) = verb_free a && verb_free b.
Proof.
  unfold verb_free. rewrite Contains_char_append, negb_orb. reflexivity.
Qed.

Lemma verb_free_digit (x : N) (s : string) :
  verb_free s = true -> verb_free (String (pretty_N_char x) s) = true.
Proof.
  unfold verb_free. rewrite Contains_cons, HasPrefix_char. intros Hs.
  assert (Ascii.eqb "%" (pretty_N_char x) = false) as ->
    by (unfold pretty_N_char; repeat case_match; reflexivity).
  exact Hs.
Qed.

Lemma verb_free_pretty_N_go (x : N) :
  forall s, verb_free s = true -> verb_free (pretty_N_go x s) = true.
Proof.
  induction (N.lt_wf_0 x) as [x _ IH]. intros s Hs.
  destruct (decide (0 < x)%N) as [Hpos|Hzero].
  - rewrite pretty_N_go_step by exact Hpos.
    apply IH; [apply N.div_lt; [exact Hpos | reflexivity]|].
    apply verb_free_digit, Hs.
  - assert (x = 0%N) as -> by lia. rewrite pretty_N_go_0. exact Hs.
Qed.

Lemma verb_free_pretty_N (x : N) : verb_free (pretty x) = true.
Proof.
  unfold pretty, pretty_N. case_decide; [reflexivity|].
  apply verb_free_pretty_N_go. reflexivity.
Qed.

Lemma verb_free_pretty_Z (x : Z) : verb_free (pretty x) = true.
Proof.
  destruct x as [|p|p]; unfold pretty, pretty_Z; [reflexivity| |].
  - apply (verb_free_pretty_N (Npos p)).
  - change (verb_free ("-" +:+ pretty (Npos p)) = true).
    rewrite verb_free_append, (verb_free_pretty_N (Npos p)). reflexivity.
Qed.

Lemma verb_free_node (index : Z) (ns clusterDomain : string) :
  verb_free ns = true -> verb_free clusterDomain = true ->
  verb_free (etcd_node index ns clusterDomain) = true.
Proof.
  intros Hns Hd. unfold etcd_node.
  rewrite !verb_free_append, !verb_free_pretty_Z, Hns, Hd. reflexivity.
Qed.

Lemma verb_free_fold (f : Z -> string) (l : list Z) (acc : string) :
  verb_free acc = true -> (forall i, verb_free (f i) = true) ->
  verb_free (fold_left (fun uri index => uri +:+ f index) l acc) = true.
Proof.
  revert acc. induction l as [|i l IH]; intros acc Hacc Hf; simpl; [exact Hacc|].
  apply IH; [|exact Hf]. rewrite verb_free_append, Hacc, Hf. reflexivity.
Qed.

Lemma node_member (index : Z) (ns clusterDomain : string) :
  etcd_node index ns clusterDomain = etcd_member index ns clusterDomain +:+ ",".
Proof. unfold etcd_node, etcd_member. rewrite !append_assoc. reflexivity. Qed.

Lemma fold_left_pointwise (f g : string -> Z -> string) (l : list Z) (acc : string) :
  (forall uri index, f uri index = g uri index) ->
  fold_left f l acc = fold_left g l acc.
Proof.
  intros Hfg. revert acc. induction l as [|i l IH]; intros acc; simpl;
    [reflexivity | rewrite Hfg; apply IH].
Qed.

(** The accumulated string of a non-empty range: the members joined by
    commas, and one more comma. *)
Lemma uri_joined (m : Z -> string) (l : list Z) (i : Z) (acc : string) :
  fold_left (fun uri index => uri +:+ (m index +:+ ",")) (i :: l) acc
  = (acc +:+ String.concat "," (map m (i :: l))) +:+ ",".
Proof.
  revert i acc. induction l as [|j l IH]; intros i acc.
  - cbn [fold_left map String.concat]. rewrite append_assoc. reflexivity.
  - change (fold_left (fun uri index => uri +:+ (m index +:+ ",")) (i :: j :: l) acc)
      with (fold_left (fun uri index => uri +:+ (m index +:+ ",")) (j :: l)
              (acc +:+ (m i +:+ ","))).
    rewrite IH.
    change (String.concat "," (map m (i :: j :: l)))
      with (m i +:+ ("," +:+ String.concat "," (map m (j :: l)))).
    rewrite !append_assoc. reflexivity.
Qed.

(** X17: for a replica count that is not negative and a namespace and a
    cluster domain without percent sign (so that [printf] finds no verb in
    the accumulated string), the template yields the quoted list of the
    members etcd-0 ... etcd-(n-1), joined by commas, without the comma that
    the range leaves at the end; with no replica it is the quoted empty
    string. *)
Theorem initial_clusters_joined (Sprintf0 quote : string -> string)
    (replicaCount : Z) (ns clusterDomain : string) :
  (0 <= replicaCount)%Z ->
  verb_free ns = true -> verb_free clusterDomain = true ->
  (forall s, verb_free s = true -> Sprintf0 s = s) ->
  etcd_initial_clusters Sprintf0 quote replicaCount ns clusterDomain
  = quote (String.concat ","
             (map (fun i => etcd_member (Z.of_nat i) ns clusterDomain)
                  (seq 0 (Z.to_nat replicaCount)))).
Proof.
  intros Hcount Hns Hd Hprintf. unfold etcd_initial_clusters, until.
  replace (replicaCount <? 0)%Z with false by (symmetry; apply Z.ltb_ge; lia).
  rewrite Hprintf
    by (apply verb_free_fold; [reflexivity | intros i; apply verb_free_node; assumption]).
  rewrite <- (map_map Z.of_nat (fun index => etcd_member index ns clusterDomain)).
  destruct (map Z.of_nat (seq 0 (Z.to_nat replicaCount))) as [|i l].
  - reflexivity.
  - f_equal.
    rewrite (fold_left_pointwise _
               (fun uri index =>
                  uri +:+ (etcd_member index ns clusterDomain +:+ ","))).
    + rewrite uri_joined. apply TrimSuffix_append.
    + intros uri index. rewrite node_member. reflexivity.
Qed.

End Chart.

(** ** Notices before calls, and the namespace before everything *)

Section Announced.

Lemma announced_between (pre evs post : list event) (e : event) :
  announced evs e -> announced (pre ++ evs ++ post) e.
Proof.
  destruct e; simpl; auto; intros (before & after & ->);
    exists (pre ++ before), (after ++ post);
    rewrite <- !app_assoc; reflexivity.
Qed.

Lemma announced_all_between (pre evs post : list event) :
  Forall (announced evs) evs -> Forall (announced (pre ++ evs ++ post)) evs.
Proof.
  intros Hall. eapply Forall_impl; [exact Hall|].
  intros e. apply announced_between.
Qed.

Lemma announced_all_after (pre evs : list event) :
  Forall (announced evs) evs -> Forall (announced (pre ++ evs)) evs.
Proof.
  intros Hall. rewrite <- (app_nil_r evs) at 1.
  apply (announced_all_between pre evs []), Hall.
Qed.

Lemma announced_all_before (evs post : list event) :
  Forall (announced evs) evs -> Forall (announced (evs ++ post)) evs.
Proof. intros Hall. apply (announced_all_between [] evs post), Hall. Qed.

Lemma loop_announced dryRun k ns items r evs :
  loop_run dryRun k ns items r evs -> Forall (announced evs) evs.
Proof.
  induction 1 as [|item rest r evs Hdry Hl IH|item rest r evs Hdry Hl IH
                 |item rest err Hdry].
  - constructor.
  - constructor; [exact I|].
    apply (announced_all_after [Printf (notice_format k) [Name item]]), IH.
  - constructor; [exact I|]. constructor.
    + exists [], evs. reflexivity.
    + apply (announced_all_after
               [Printf (notice_format k) [Name item];
                DeleteCall k ns (Name item) None]), IH.
  - constructor; [exact I|]. constructor; [|constructor].
    exists [], []. reflexivity.
Qed.

Lemma node_loop_announced dryRun nodes r evs :
  node_loop_run dryRun nodes r evs -> Forall (announced evs) evs.
Proof.
  induction 1 as [|node rest r evs Hdry Hl IH|node rest r evs Hdry Hl IH
                 |node rest err Hdry].
  - constructor.
  - constructor; [exact I|].
    apply (announced_all_after
             [Printf "remove node %q labels %q\n" [Name node; karmadaNodeLabel]]),
      IH.
  - constructor; [exact I|]. constructor.
    + exists [], evs. reflexivity.
    + apply (announced_all_after
               [Printf "remove node %q labels %q\n" [Name node; karmadaNodeLabel];
                NodesUpdate (removeLabels node karmadaNodeLabel) None]), IH.
  - constructor; [exact I|]. constructor; [|constructor].
    exists [], []. reflexivity.
Qed.

Lemma stage_announced dryRun namespace st r evs :
  stage_run dryRun namespace st r evs -> Forall (announced evs) evs.
Proof.
  destruct 1 as [k err|k items r evs Hl|err| |nodes r evs Hne Hl].
  - repeat constructor.
  - constructor; [exact I|].
    apply (announced_all_after
             [ListCall k (kind_namespace k namespace) LabelSelector (inr items)]),
      (loop_announced _ _ _ _ _ _ Hl).
  - repeat constructor.
  - repeat constructor.
  - constructor; [exact I|].
    apply (announced_all_after [NodesList karmadaNodeLabel (inr nodes)]),
      (node_loop_announced _ _ _ _ Hl).
Qed.

Lemma chain_announced dryRun namespace sts r evs :
  chain dryRun namespace sts r evs -> Forall (announced evs) evs.
Proof.
  induction 1 as [|st rest err evs Hs|st rest evs1 r evs2 Hs Hc IH].
  - constructor.
  - apply (stage_announced _ _ _ _ _ Hs).
  - apply Forall_app. split.
    + apply announced_all_before, (stage_announced _ _ _ _ _ Hs).
    + apply announced_all_after, IH.
Qed.

End Announced.

Section Order.
Context {Cluster : Type} `{KubeClient Cluster}.
Context {RestCfg ClientSet : Type}.
Implicit Types (o : CommandDeInitOption ClientSet) (w : World Cluster).

(** X18: progress is reported before each change: in every run, each delete
    call is immediately preceded by the notice that names the object it
    deletes, and each node update by the notice that names its node. *)
Theorem calls_are_announced o w :
  Forall (announced (events (Run o w))) (events (Run o w)).
Proof.
  pose proof (confirm_dialogue (stdin w)) as Hd.
  destruct (confirm (stdin w)) as [[r rest] cevs] eqn:Hc. simpl in Hd.
  assert (forall evs, Forall (announced evs)
                             (Println "removes Karmada from Kubernetes" :: cevs))
    as Hpre.
  { intros evs. constructor; [exact I|]. eapply Forall_impl; [exact Hd|].
    intros e [->|[[res ->]|[err ->]]]; exact I. }
  destruct (confirmed_or_not r) as [->|Hr].
  - destruct (Run_confirmed o w rest cevs Hc) as (r & evs & Hch & _ & He).
    rewrite He. repeat (apply Forall_app; split).
    + apply Hpre.
    + apply announced_all_between, (chain_announced _ _ _ _ _ Hch).
    + destruct r; repeat constructor.
  - destruct (Run_unconfirmed o w r rest cevs Hc Hr) as (He & _).
    rewrite He. apply Hpre.
Qed.

(** X19: the command touches the cluster only in a namespace it has found:
    if a discovery, delete or update call occurs in a run of [RunE], the
    first event of that run is the successful lookup of the target
    namespace. *)
Theorem namespace_checked_first (env : Env RestCfg ClientSet) o w (e : event) :
  e ∈ events (RunE env o w) ->
  is_discovery e = true \/ is_mutation e = true ->
  exists rest,
    events (RunE env o w) = NamespacesGet (Namespace o) None :: rest.
Proof.
  intros Hin Hcall.
  destruct (Complete_inv env o w) as (o' & err & Hout & _ & _ & _ & _ & Hchecks).
  pose proof (Complete_no_call env o w) as [Hquiet _].
  unfold RunE, bind, outcome, events in *.
  destruct (Complete env o w) as [[rc w1] evs1]. simpl in *. subst rc.
  destruct err as [err|].
  - simpl in Hin. rewrite app_nil_r in Hin.
    rewrite Forall_forall in Hquiet. destruct (Hquiet e Hin) as [Hd Hm].
    destruct Hcall; congruence.
  - destruct (Hchecks eq_refl) as (_ & cfg & _ & _ & _ & ->).
    destruct (Run o' w1) as [[[[err|]|code] w2] evs2]; simpl; eauto.
Qed.

End Order.

(** ** The further properties on the sample cluster *)

Section MoreSamples.
Import Sample.

Lemma removeLabels_marker_edges_witness :
  (forall key, is_Some (Labels plain_node !! key) ->
               String.length key < String.length karmadaNodeLabel) /\
  removeLabels plain_node karmadaNodeLabel = plain_node.
Proof.
  assert (forall key, is_Some (Labels plain_node !! key) ->
                      String.length key < String.length karmadaNodeLabel) as Hshort.
  { intros key [v Hv]. unfold plain_node in Hv. cbn [Labels] in Hv.
    apply lookup_singleton_Some in Hv as [<- _]. vm_compute. lia. }
  split; [exact Hshort|].
  destruct (removeLabels_marker_edges plain_node) as [_ Hlong].
  exact (Hlong karmadaNodeLabel Hshort).
Defined.

Lemma unrecognised_answers_skipped_witness :
  Forall (fun response => unrecognised response = true) ["maybe"; "ok"] /\
  deleteConfirmation (mkWorld host (map inl ["maybe"; "ok"] ++ [inl "y"]))
  = (outcome (deleteConfirmation (mkWorld host [inl "y"])),
     final (deleteConfirmation (mkWorld host [inl "y"])),
     rounds ["maybe"; "ok"] ++ events (deleteConfirmation (mkWorld host [inl "y"]))).
Proof.
  assert (Forall (fun response => unrecognised response = true) ["maybe"; "ok"])
    as Hjunk by (repeat apply Forall_cons_2; [reflexivity..|apply Forall_nil_2]).
  split; [exact Hjunk|].
  exact (unrecognised_answers_skipped host ["maybe"; "ok"] [inl "y"] Hjunk).
Defined.

Lemma confirmation_decided_witness :
  outcome (deleteConfirmation (mkWorld host yes)) = Ret true /\
  exists junk answer,
    stdin (mkWorld host yes)
    = map inl junk ++ inl answer
        :: stdin (final (deleteConfirmation (mkWorld host yes))) /\
    Forall (fun response => unrecognised response = true) junk /\
    Strings.casing_of "y" answer || Strings.casing_of "yes" answer = true /\
    events (deleteConfirmation (mkWorld host yes)) = rounds (junk ++ [answer]).
Proof.
  split; [reflexivity|].
  exact (confirmation_decided (mkWorld host yes) true eq_refl).
Defined.

Lemma calls_need_consent_witness :
  NodesList karmadaNodeLabel (inr [etcd_node])
    ∈ events (Run (opts false) (mkWorld host yes)) /\
  exists junk answer rest,
    stdin (mkWorld host yes) = map inl junk ++ inl answer :: rest /\
    Forall (fun response => unrecognised response = true) junk /\
    Strings.casing_of "y" answer || Strings.casing_of "yes" answer = true.
Proof.
  assert (NodesList karmadaNodeLabel (inr [etcd_node])
            ∈ events (Run (opts false) (mkWorld host yes))) as Hin.
  { apply list_elem_of_In. vm_compute.
    repeat (first [left; reflexivity | right]). }
  split; [exact Hin|].
  exact (calls_need_consent (opts false) (mkWorld host yes) _ Hin
           (or_introl eq_refl)).
Defined.

Lemma Run_exit_is_clean_witness :
  outcome (Run (opts false) (mkWorld host [])) = Exited 1 /\
  1%Z = 1%Z /\
  cluster (final (Run (opts false) (mkWorld host []))) = host /\
  Forall (fun e => is_discovery e = false /\ is_mutation e = false)
         (events (Run (opts false) (mkWorld host []))).
Proof.
  split; [reflexivity|].
  exact (Run_exit_is_clean (opts false) (mkWorld host []) 1 eq_refl).
Defined.

Lemma one_delete_per_item_witness :
  ListCall Deployment (Some ns) LabelSelector
    (inr [installed "karmada-apiserver"; installed "karmada-scheduler"])
    ∈ events (Run (opts false) (mkWorld host yes)) /\
  deletes_of Deployment (events (Run (opts false) (mkWorld host yes)))
    `prefix_of` ["karmada-apiserver"; "karmada-scheduler"].
Proof.
  assert (ListCall Deployment (Some ns) LabelSelector
            (inr [installed "karmada-apiserver"; installed "karmada-scheduler"])
            ∈ events (Run (opts false) (mkWorld host yes))) as Hin.
  { apply list_elem_of_In. vm_compute.
    repeat (first [left; reflexivity | right]). }
  split; [exact Hin|].
  apply (one_delete_per_item (opts false) (mkWorld host yes) _ _ _ _ Hin).
Defined.

Lemma success_message_only_on_success_witness :
  outcome (deleteConfirmation (mkWorld host yes)) = Ret true /\
  outcome (Run (opts false) (mkWorld host yes)) = Ret None /\
  last (events (Run (opts false) (mkWorld host yes))) = Some success_message.
Proof.
  assert (outcome (Run (opts false) (mkWorld host yes)) = Ret None) as Hok
    by (vm_compute; reflexivity).
  split; [reflexivity|]. split; [exact Hok|].
  destruct (success_message_only_on_success (opts false) (mkWorld host yes))
    as [Hiff Hlast].
  apply Hlast, Hiff. split; [reflexivity | exact Hok].
Defined.

Lemma dry_run_keeps_cluster_witness :
  read_only_lists FakeCluster /\
  DryRun (opts true) = true /\
  cluster (final (Run (opts true) (mkWorld host yes))) = host.
Proof.
  assert (read_only_lists FakeCluster) as Hro
    by (split; intros; reflexivity).
  split; [exact Hro|]. split; [reflexivity|].
  exact (dry_run_keeps_cluster (opts true) (mkWorld host yes) Hro eq_refl).
Defined.

Lemma Complete_success_checked_witness :
  outcome (Complete (fake_env "/root" ["/root/.kube/config"]) (opts false)
             (mkWorld host yes))
  = Ret (set_KubeClientSet (set_KubeConfig (opts false) "/root/.kube/config")
           (Some tt), None) /\
  events (Complete (fake_env "/root" ["/root/.kube/config"]) (opts false)
            (mkWorld host yes))
  = [NamespacesGet ns None].
Proof.
  assert (outcome (Complete (fake_env "/root" ["/root/.kube/config"]) (opts false)
                     (mkWorld host yes))
          = Ret (set_KubeClientSet
                   (set_KubeConfig (opts false) "/root/.kube/config") (Some tt),
                 None)) as Hok by (vm_compute; reflexivity).
  split; [exact Hok|].
  destruct (Complete_success_checked _ _ _ _ Hok)
    as (_ & cfg & _ & _ & _ & Hevs).
  exact Hevs.
Defined.

Lemma Complete_keeps_options_witness :
  exists o' err,
    outcome (Complete (fake_env "/root" []) (opts true) (mkWorld host yes))
    = Ret (o', err) /\
    DryRun o' = true /\ Namespace o' = ns.
Proof.
  destruct (Complete_keeps_options (fake_env "/root" []) (opts true)
              (mkWorld host yes)) as (o' & err & Hout & Hd & Hn & _).
  exists o', err. auto.
Defined.

Lemma initial_clusters_joined_witness :
  (0 <= 2)%Z /\
  Template.verb_free "karmada-system" = true /\
  Template.verb_free "cluster.local" = true /\
  Template.etcd_initial_clusters (fun s => s)
    (fun s => String (ascii_of_nat 34) (s +:+ String (ascii_of_nat 34) ""))
    2 "karmada-system" "cluster.local"
  = String (ascii_of_nat 34)
      (("etcd-0=http://etcd-0.etcd.karmada-system.svc.cluster.local:2380" +:+
        "," +:+
        "etcd-1=http://etcd-1.etcd.karmada-system.svc.cluster.local:2380")
       +:+ String (ascii_of_nat 34) "").
Proof.
  split; [lia|]. split; [reflexivity|]. split; [reflexivity|].
  rewrite (initial_clusters_joined (fun s => s) _ 2 "karmada-system"
             "cluster.local" ltac:(lia) eq_refl eq_refl (fun s _ => eq_refl)).
  vm_compute. reflexivity.
Defined.

Lemma namespace_checked_first_witness :
  ListCall Deployment (Some ns) LabelSelector
    (inr [installed "karmada-apiserver"; installed "karmada-scheduler"])
    ∈ events (RunE (fake_env "/root" ["/root/.kube/config"]) (opts false)
                (mkWorld host yes)) /\
  exists rest,
    events (RunE (fake_env "/root" ["/root/.kube/config"]) (opts false)
              (mkWorld host yes))
    = NamespacesGet ns None :: rest.
Proof.
  assert (ListCall Deployment (Some ns) LabelSelector
            (inr [installed "karmada-apiserver"; installed "karmada-scheduler"])
            ∈ events (RunE (fake_env "/root" ["/root/.kube/config"]) (opts false)
                        (mkWorld host yes))) as Hin.
  { apply list_elem_of_In. vm_compute.
    repeat (first [left; reflexivity | right]). }
  split; [exact Hin|].
  exact (namespace_checked_first _ _ _ _ Hin (or_introl eq_refl)).
Defined.

End MoreSamples.
